(** * StockOS: event backbone, agent runtime and domain rules

    A shallow embedding of the parts of the StockOS sources that the
    specification's testable properties talk about, followed by the
    statements settled against it.

    Conventions of the embedding.
    - A JavaScript [number] is a binary64 value of [Double] where the code
      computes with fractions: the measurements, weights and scores of the
      slotting scorer, and the quantities of the FEFO allocator, which is
      given both on doubles ([FefoDouble]) and on integers ([Fefo]), with
      the lemma that the two agree on safe integers.  The quantities of the
      stock repository, counters, versions and numbers of days are integers,
      a [Z]: on safe integers the additions and subtractions of the source
      are exact.  A [Date] is its [getTime()] value, a [Z] of milliseconds.
    - An optional field ([x?: T], or a nullable column) is an [option].
    - [Map<string, V>] is a [gmap string V]; a [Set<string>] is the list of
      its members in insertion order, without duplicates.
    - A function that can [throw] returns a [result]. *)

From Stdlib Require Import ZArith Lia List Sorted Permutation Ascii String.
From Stdlib Require PrimFloat FloatOps SpecFloat Uint63.
From stdpp Require Import gmap strings list pretty.

Local Open Scope string_scope.
Local Open Scope list_scope.
Local Open Scope Z_scope.

(* ===================================================================== *)
(** * Part I: the program *)
(* ===================================================================== *)

(** ** JavaScript array and error primitives *)

Module Js.

(** Outcome of a call that may throw. *)
Inductive result (E A : Type) : Type :=
| Ok (a : A)
| Throw (e : E).
Arguments Ok {E A} a.
Arguments Throw {E A} e.

(** [Array.prototype.sort(compareFn)].  ECMAScript requires the sort to be
    stable and, for a consistent comparator, to return the elements in
    non-decreasing comparator order.  [le x y] stands for
    [compareFn(x, y) <= 0]; an element is inserted in front of the first
    element of the already sorted tail that it does not exceed, so elements
    that compare equal keep their input order. *)
Fixpoint sort_insert {A : Type} (le : A -> A -> bool) (x : A) (l : list A) : list A :=
  match l with
  | [] => [x]
  | y :: l' => if le x y then x :: y :: l' else y :: sort_insert le x l'
  end.

Fixpoint sort {A : Type} (le : A -> A -> bool) (l : list A) : list A :=
  match l with
  | [] => []
  | x :: l' => sort_insert le x (sort le l')
  end.

(** [Array.prototype.includes] on an array of strings. *)
Definition includes (l : list string) (x : string) : bool := bool_decide (x ∈ l).

(** [Math.ceil(a / b)] for integers [a] and a positive integer [b]. *)
Definition ceil_div (a b : Z) : Z := - ((- a) / b).

End Js.

(** ** JavaScript numbers

    A JavaScript [number] is an IEEE 754 binary64 value.  Every finite one
    is an integer multiple of [2^-1074]; [units x] is that integer, so [x]
    has the value [units x / 2^1074].  An arithmetic operation computes the
    exact result and rounds it to the nearest value with 53 significant
    bits, ties to the even one.  The infinities and NaN are not represented
    and the two zeros are one: the operations below are the machine's as
    long as no result reaches [2^1024] in magnitude and no divisor is
    zero. *)

Module Double.

Definition unitsPerOne : Z := 2 ^ 1074.

Record number : Type := ofUnits { units : Z }.

(** The integer nearest to [n / d], for [d > 0]; a tie goes to the even
    one. *)
Definition nearestEven (n d : Z) : Z :=
  let q := n / d in
  match 2 * (n mod d) ?= d with
  | Lt => q
  | Gt => q + 1
  | Eq => if Z.even q then q else q + 1
  end.

(** The number of units of the double nearest to [n / d] units, for
    [d > 0].  A magnitude below [2^53] units is rounded to a whole number of
    units; above, the low bits that do not fit in 53 are dropped. *)
Definition round (n d : Z) : Z :=
  let a := Z.abs n in
  let dropped := Z.max 0 (Z.log2 (a / d) - 52) in
  Z.sgn n * (nearestEven a (d * 2 ^ dropped) * 2 ^ dropped).

Definition add (x y : number) : number := ofUnits (round (units x + units y) 1).
Definition sub (x y : number) : number := ofUnits (round (units x - units y) 1).
Definition mul (x y : number) : number :=
  ofUnits (round (units x * units y) unitsPerOne).
Definition div (x y : number) : number :=
  ofUnits (round (Z.sgn (units y) * units x * unitsPerOne) (Z.abs (units y))).

(** A decimal literal [n / d], such as [0.25] for [25 / 100], and an integer
    literal. *)
Definition ofRatio (n d : Z) : number := ofUnits (round (n * unitsPerOne) d).
Definition ofInt (n : Z) : number := ofRatio n 1.

Definition zero : number := ofInt 0.
Definition one : number := ofInt 1.
Definition half : number := ofRatio 1 2.

Definition eqb (x y : number) : bool := units x =? units y.
Definition ltb (x y : number) : bool := units x <? units y.
Definition leb (x y : number) : bool := units x <=? units y.

(** [Math.min] and [Math.max] of two numbers. *)
Definition min (x y : number) : number := if ltb y x then y else x.
Definition max (x y : number) : number := if ltb x y then y else x.

(** [Number.isSafeInteger]: an integer of magnitude below [2^53]. *)
Definition isSafeInteger (n : Z) : Prop := Z.abs n < 2 ^ 53.

End Double.

(** The same operations on the kernel's primitive binary64 floats, to compare
    [Double] with: [unitsOf f] is the number of units of a finite [f], and
    [machine n d] the float [n / d] for integers below [2^53]. *)
Module Machine.

Definition unitsOf (f : PrimFloat.float) : option Z :=
  match FloatOps.Prim2SF f with
  | SpecFloat.S754_zero _ => Some 0
  | SpecFloat.S754_finite s m e => Some ((if s then -1 else 1) * Z.pos m * 2 ^ (e + 1074))
  | _ => None
  end.

Definition machine (n d : Z) : PrimFloat.float :=
  PrimFloat.div (PrimFloat.of_uint63 (Uint63.of_Z n)) (PrimFloat.of_uint63 (Uint63.of_Z d)).

(** Whether an operation of the model and the machine's give the same
    result on the operands [a / b] and [c / d]. *)
Definition agree (model : Double.number -> Double.number -> Double.number)
    (primitive : PrimFloat.float -> PrimFloat.float -> PrimFloat.float)
    (operands : Z * Z * Z * Z) : bool :=
  let '(a, b, c, d) := operands in
  bool_decide
    (Some (Double.units (model (Double.ofRatio a b) (Double.ofRatio c d)))
     = unitsOf (primitive (machine a b) (machine c d))).

Definition samples : list (Z * Z * Z * Z) :=
  [ (1, 10, 2, 10); (36, 10, 12, 10); (44, 10, 11, 10); (33, 10, 33, 10);
    (3, 10, 1, 3); (5, 1, 20, 1); (1, 3, 7, 1000); (30, 100, 1, 2);
    (123456789, 1000, 987654321, 7); (9007199254740991, 1, 1, 1);
    (9007199254740991, 2, 9007199254740989, 4); (1, 9007199254740991, 3, 7);
    (0, 1, 5, 100); (25, 100, 75, 100) ].

End Machine.

Declare Scope double_scope.
Delimit Scope double_scope with D.
Infix "+" := Double.add : double_scope.
Infix "-" := Double.sub : double_scope.
Infix "*" := Double.mul : double_scope.
Infix "/" := Double.div : double_scope.

(** ** Lot batches (domain/entities/lot-batch.ts) *)

Module Lot.

Inductive LotStatus : Type := AVAILABLE | QUARANTINE | EXPIRED | HOLD | RELEASED.

Record LotBatch : Type := {
  id : string;
  lotNumber : string;
  expirationDate : option Z;
  receivedAt : Z;
  status : LotStatus
}.

Definition isLotExpired (lot : LotBatch) (referenceDate : Z) : bool :=
  match expirationDate lot with
  | None => false
  | Some e => e <? referenceDate
  end.

Definition isLotAvailable (lot : LotBatch) (referenceDate : Z) : bool :=
  match status lot with
  | AVAILABLE | RELEASED => negb (isLotExpired lot referenceDate)
  | _ => false
  end.

(** The comparator: negative when [a] goes first. *)
Definition compareLotsByFEFO (a b : LotBatch) : Z :=
  match expirationDate a, expirationDate b with
  | None, None => receivedAt a - receivedAt b
  | None, Some _ => 1
  | Some _, None => -1
  | Some ea, Some eb => ea - eb
  end.

End Lot.

(** ** FEFO allocator (domain/rules/fefo-allocator.ts) *)

Module Fefo.
Import Lot.

Record StockLevel : Type := {
  sl_id : string;
  warehouseId : string;
  productId : string;
  variantId : option string;
  locationId : string;
  quantityAvailable : Z
}.

Record AllocationRequest : Type := {
  req_productId : string;
  req_variantId : option string;
  requestedQuantity : Z;
  req_warehouseId : string;
  preferredLocations : option (list string);
  excludedLots : option (list string);
  req_minDaysToExpiration : option Z
}.

Record InventorySource : Type := {
  stockLevel : StockLevel;
  lotBatch : option LotBatch
}.

Record AllocationLine : Type := {
  al_stockLevelId : string;
  al_locationId : string;
  al_lotBatchId : option string;
  al_lotNumber : option string;
  al_expirationDate : option Z;
  quantity : Z;
  daysToExpiration : option Z
}.

(** The reason strings of a skipped source, by the check that produced them. *)
Inductive SkipReason : Type :=
| NoAvailableQuantity
| LotNotAvailable (s : LotStatus)
| TooCloseToExpiration (days : Z)
| LotExcludedByRequest.

Record SkippedSource : Type := {
  reason : SkipReason;
  sk_stockLevelId : string;
  sk_lotBatchId : option string
}.

Record AllocationResult : Type := {
  success : bool;
  fullyAllocated : bool;
  res_requestedQuantity : Z;
  allocatedQuantity : Z;
  shortfallQuantity : Z;
  allocations : list AllocationLine;
  skippedSources : list SkippedSource
}.

(** The allocator object: the two private fields set by the constructor. *)
Record FefoAllocator : Type := {
  minDaysToExpiration : Z;
  referenceDate : Z
}.

Record FefoOptions : Type := {
  opt_minDaysToExpiration : option Z;
  opt_referenceDate : option Z
}.

(** [new FefoAllocator(options)]; [now] is the value of [new Date()]. *)
Definition new_FefoAllocator (now : Z) (options : FefoOptions) : FefoAllocator :=
  {| minDaysToExpiration := default 0 (opt_minDaysToExpiration options);
     referenceDate := default now (opt_referenceDate options) |}.

Definition msPerDay : Z := 1000 * 60 * 60 * 24.

Definition calculateDaysToExpiration (self : FefoAllocator) (expirationDate : Z) : Z :=
  Js.ceil_div (expirationDate - referenceDate self) msPerDay.

(** [!request.variantId]: undefined and the empty string are falsy. *)
Definition variantMatches (request : AllocationRequest) (s : InventorySource) : bool :=
  match req_variantId request with
  | None => true
  | Some v =>
      if bool_decide (v = "") then true
      else bool_decide (variantId (stockLevel s) = Some v)
  end.

Definition matchesRequest (request : AllocationRequest) (s : InventorySource) : bool :=
  bool_decide (productId (stockLevel s) = req_productId request)
  && bool_decide (warehouseId (stockLevel s) = req_warehouseId request)
  && variantMatches request s.

(** [request.preferredLocations?.includes(loc) ?? false] *)
Definition isPreferred (request : AllocationRequest) (loc : string) : bool :=
  match preferredLocations request with
  | None => false
  | Some prefs => Js.includes prefs loc
  end.

(** Comparator of the first sort (preferred locations first). *)
Definition comparePreferred (request : AllocationRequest) (a b : InventorySource) : Z :=
  let aPreferred := isPreferred request (locationId (stockLevel a)) in
  let bPreferred := isPreferred request (locationId (stockLevel b)) in
  if aPreferred && negb bPreferred then -1
  else if negb aPreferred && bPreferred then 1
  else 0.

(** Comparator of the second sort (FEFO within each priority group). *)
Definition compareSources (request : AllocationRequest) (a b : InventorySource) : Z :=
  let aPreferred := isPreferred request (locationId (stockLevel a)) in
  let bPreferred := isPreferred request (locationId (stockLevel b)) in
  if negb (eqb aPreferred bPreferred) then (if aPreferred then -1 else 1)
  else
    match lotBatch a, lotBatch b with
    | Some la, Some lb => compareLotsByFEFO la lb
    | Some _, None => -1
    | None, Some _ => 1
    | None, None => 0
    end.

Definition filterAndSortSources (sources : list InventorySource)
    (request : AllocationRequest) : list InventorySource :=
  let filtered := filter (fun s => matchesRequest request s = true) sources in
  let filtered :=
    match preferredLocations request with
    | Some (_ :: _) =>
        Js.sort (fun a b => comparePreferred request a b <=? 0) filtered
    | _ => filtered
    end in
  Js.sort (fun a b => compareSources request a b <=? 0) filtered.

Definition isExcluded (request : AllocationRequest) (lot : LotBatch) : bool :=
  match excludedLots request with
  | None => false
  | Some ex => Js.includes ex (Lot.id lot)
  end.

Definition lineOf (self : FefoAllocator) (source : InventorySource)
    (allocateQty : Z) : AllocationLine :=
  let sl := stockLevel source in
  let lot := lotBatch source in
  {| al_stockLevelId := sl_id sl;
     al_locationId := locationId sl;
     al_lotBatchId := Lot.id <$> lot;
     al_lotNumber := lotNumber <$> lot;
     al_expirationDate := lot ≫= expirationDate;
     quantity := allocateQty;
     daysToExpiration := calculateDaysToExpiration self <$> (lot ≫= expirationDate) |}.

Definition skip (r : SkipReason) (source : InventorySource) : SkippedSource :=
  {| reason := r;
     sk_stockLevelId := sl_id (stockLevel source);
     sk_lotBatchId := Lot.id <$> lotBatch source |}.

(** The four checks of the loop body, in source order: [Some r] when the
    source is skipped with reason [r], [None] when it is allocated from. *)
Definition skipCheck (self : FefoAllocator) (request : AllocationRequest)
    (source : InventorySource) : option SkipReason :=
  if quantityAvailable (stockLevel source) <=? 0 then Some NoAvailableQuantity
  else
    match lotBatch source with
    | None => None
    | Some lot =>
        if negb (isLotAvailable lot (referenceDate self))
        then Some (LotNotAvailable (status lot))
        else
          match expirationDate lot with
          | Some e =>
              let daysToExp := calculateDaysToExpiration self e in
              if daysToExp <? minDaysToExpiration self
              then Some (TooCloseToExpiration daysToExp)
              else if isExcluded request lot then Some LotExcludedByRequest
              else None
          | None =>
              if isExcluded request lot then Some LotExcludedByRequest else None
          end
    end.

(** The [for ... of validSources] loop, with its three mutable variables as
    accumulators; the first clause of the body is the [break]. *)
Fixpoint allocateLoop (self : FefoAllocator) (request : AllocationRequest)
    (validSources : list InventorySource) (remainingQty : Z)
    (allocations : list AllocationLine) (skippedSources : list SkippedSource)
    : Z * list AllocationLine * list SkippedSource :=
  match validSources with
  | [] => (remainingQty, allocations, skippedSources)
  | source :: rest =>
      if remainingQty <=? 0 then (remainingQty, allocations, skippedSources)
      else
        match skipCheck self request source with
        | Some r =>
            allocateLoop self request rest remainingQty allocations
              (skippedSources ++ [skip r source])
        | None =>
            let allocateQty :=
              Z.min remainingQty (quantityAvailable (stockLevel source)) in
            allocateLoop self request rest (remainingQty - allocateQty)
              (allocations ++ [lineOf self source allocateQty]) skippedSources
        end
  end.

Definition allocate (self : FefoAllocator) (request : AllocationRequest)
    (sources : list InventorySource) : AllocationResult :=
  let validSources := filterAndSortSources sources request in
  let '(remainingQty, allocations, skippedSources) :=
    allocateLoop self request validSources (requestedQuantity request) [] [] in
  let allocatedQuantity := requestedQuantity request - remainingQty in
  {| success := 0 <? allocatedQuantity;
     fullyAllocated := remainingQty =? 0;
     res_requestedQuantity := requestedQuantity request;
     allocatedQuantity := allocatedQuantity;
     shortfallQuantity := remainingQty;
     allocations := allocations;
     skippedSources := skippedSources |}.

Definition allocateWithFefo (now : Z) (request : AllocationRequest)
    (sources : list InventorySource) (options : FefoOptions) : AllocationResult :=
  allocate (new_FefoAllocator now options) request sources.

End Fefo.

(** ** The allocator on JavaScript numbers

    Quantities are [number]s in the source.  [Fefo] above is the allocator
    on integer quantities; [FefoDouble] is the same code with the requested,
    available and allocated quantities as doubles and the two subtractions
    rounded.  On safe integers the two coincide (lemma
    [allocate_on_integers] below). *)

Module FefoDouble.
Import Lot.

Record StockLevel : Type := {
  sl_id : string;
  warehouseId : string;
  productId : string;
  variantId : option string;
  locationId : string;
  quantityAvailable : Double.number
}.

Record AllocationRequest : Type := {
  req_productId : string;
  req_variantId : option string;
  requestedQuantity : Double.number;
  req_warehouseId : string;
  preferredLocations : option (list string);
  excludedLots : option (list string);
  req_minDaysToExpiration : option Z
}.

Record InventorySource : Type := {
  stockLevel : StockLevel;
  lotBatch : option LotBatch
}.

Record AllocationLine : Type := {
  al_stockLevelId : string;
  al_locationId : string;
  al_lotBatchId : option string;
  al_lotNumber : option string;
  al_expirationDate : option Z;
  quantity : Double.number;
  daysToExpiration : option Z
}.

Record AllocationResult : Type := {
  success : bool;
  fullyAllocated : bool;
  res_requestedQuantity : Double.number;
  allocatedQuantity : Double.number;
  shortfallQuantity : Double.number;
  allocations : list AllocationLine;
  skippedSources : list Fefo.SkippedSource
}.

Definition variantMatches (request : AllocationRequest) (s : InventorySource) : bool :=
  match req_variantId request with
  | None => true
  | Some v =>
      if bool_decide (v = "") then true
      else bool_decide (variantId (stockLevel s) = Some v)
  end.

Definition matchesRequest (request : AllocationRequest) (s : InventorySource) : bool :=
  bool_decide (productId (stockLevel s) = req_productId request)
  && bool_decide (warehouseId (stockLevel s) = req_warehouseId request)
  && variantMatches request s.

Definition isPreferred (request : AllocationRequest) (loc : string) : bool :=
  match preferredLocations request with
  | None => false
  | Some prefs => Js.includes prefs loc
  end.

Definition comparePreferred (request : AllocationRequest) (a b : InventorySource) : Z :=
  let aPreferred := isPreferred request (locationId (stockLevel a)) in
  let bPreferred := isPreferred request (locationId (stockLevel b)) in
  if aPreferred && negb bPreferred then -1
  else if negb aPreferred && bPreferred then 1
  else 0.

Definition compareSources (request : AllocationRequest) (a b : InventorySource) : Z :=
  let aPreferred := isPreferred request (locationId (stockLevel a)) in
  let bPreferred := isPreferred request (locationId (stockLevel b)) in
  if negb (eqb aPreferred bPreferred) then (if aPreferred then -1 else 1)
  else
    match lotBatch a, lotBatch b with
    | Some la, Some lb => compareLotsByFEFO la lb
    | Some _, None => -1
    | None, Some _ => 1
    | None, None => 0
    end.

Definition filterAndSortSources (sources : list InventorySource)
    (request : AllocationRequest) : list InventorySource :=
  let filtered := filter (fun s => matchesRequest request s = true) sources in
  let filtered :=
    match preferredLocations request with
    | Some (_ :: _) =>
        Js.sort (fun a b => comparePreferred request a b <=? 0) filtered
    | _ => filtered
    end in
  Js.sort (fun a b => compareSources request a b <=? 0) filtered.

Definition isExcluded (request : AllocationRequest) (lot : LotBatch) : bool :=
  match excludedLots request with
  | None => false
  | Some ex => Js.includes ex (Lot.id lot)
  end.

Definition lineOf (self : Fefo.FefoAllocator) (source : InventorySource)
    (allocateQty : Double.number) : AllocationLine :=
  let sl := stockLevel source in
  let lot := lotBatch source in
  {| al_stockLevelId := sl_id sl;
     al_locationId := locationId sl;
     al_lotBatchId := Lot.id <$> lot;
     al_lotNumber := lotNumber <$> lot;
     al_expirationDate := lot ≫= expirationDate;
     quantity := allocateQty;
     daysToExpiration := Fefo.calculateDaysToExpiration self <$> (lot ≫= expirationDate) |}.

Definition skip (r : Fefo.SkipReason) (source : InventorySource) : Fefo.SkippedSource :=
  {| Fefo.reason := r;
     Fefo.sk_stockLevelId := sl_id (stockLevel source);
     Fefo.sk_lotBatchId := Lot.id <$> lotBatch source |}.

Definition skipCheck (self : Fefo.FefoAllocator) (request : AllocationRequest)
    (source : InventorySource) : option Fefo.SkipReason :=
  if Double.leb (quantityAvailable (stockLevel source)) Double.zero
  then Some Fefo.NoAvailableQuantity
  else
    match lotBatch source with
    | None => None
    | Some lot =>
        if negb (isLotAvailable lot (Fefo.referenceDate self))
        then Some (Fefo.LotNotAvailable (status lot))
        else
          match expirationDate lot with
          | Some e =>
              let daysToExp := Fefo.calculateDaysToExpiration self e in
              if daysToExp <? Fefo.minDaysToExpiration self
              then Some (Fefo.TooCloseToExpiration daysToExp)
              else if isExcluded request lot then Some Fefo.LotExcludedByRequest
              else None
          | None =>
              if isExcluded request lot then Some Fefo.LotExcludedByRequest else None
          end
    end.

Fixpoint allocateLoop (self : Fefo.FefoAllocator) (request : AllocationRequest)
    (validSources : list InventorySource) (remainingQty : Double.number)
    (allocations : list AllocationLine) (skippedSources : list Fefo.SkippedSource)
    : Double.number * list AllocationLine * list Fefo.SkippedSource :=
  match validSources with
  | [] => (remainingQty, allocations, skippedSources)
  | source :: rest =>
      if Double.leb remainingQty Double.zero
      then (remainingQty, allocations, skippedSources)
      else
        match skipCheck self request source with
        | Some r =>
            allocateLoop self request rest remainingQty allocations
              (skippedSources ++ [skip r source])
        | None =>
            let allocateQty :=
              Double.min remainingQty (quantityAvailable (stockLevel source)) in
            allocateLoop self request rest (remainingQty - allocateQty)%D
              (allocations ++ [lineOf self source allocateQty]) skippedSources
        end
  end.

Definition allocate (self : Fefo.FefoAllocator) (request : AllocationRequest)
    (sources : list InventorySource) : AllocationResult :=
  let validSources := filterAndSortSources sources request in
  let '(remainingQty, allocations, skippedSources) :=
    allocateLoop self request validSources (requestedQuantity request) [] [] in
  let allocatedQuantity := (requestedQuantity request - remainingQty)%D in
  {| success := Double.ltb Double.zero allocatedQuantity;
     fullyAllocated := Double.eqb remainingQty Double.zero;
     res_requestedQuantity := requestedQuantity request;
     allocatedQuantity := allocatedQuantity;
     shortfallQuantity := remainingQty;
     allocations := allocations;
     skippedSources := skippedSources |}.

(** The exact sum of the quantities of the lines, in units. *)
Definition sumUnits (lines : list AllocationLine) : Z :=
  fold_right Z.add 0 (map (fun l => Double.units (quantity l)) lines).

(** An integer request, source, line and result as the allocator holds
    them. *)
Definition ofRequest (request : Fefo.AllocationRequest) : AllocationRequest :=
  {| req_productId := Fefo.req_productId request;
     req_variantId := Fefo.req_variantId request;
     requestedQuantity := Double.ofInt (Fefo.requestedQuantity request);
     req_warehouseId := Fefo.req_warehouseId request;
     preferredLocations := Fefo.preferredLocations request;
     excludedLots := Fefo.excludedLots request;
     req_minDaysToExpiration := Fefo.req_minDaysToExpiration request |}.

Definition ofSource (s : Fefo.InventorySource) : InventorySource :=
  {| stockLevel :=
       {| sl_id := Fefo.sl_id (Fefo.stockLevel s);
          warehouseId := Fefo.warehouseId (Fefo.stockLevel s);
          productId := Fefo.productId (Fefo.stockLevel s);
          variantId := Fefo.variantId (Fefo.stockLevel s);
          locationId := Fefo.locationId (Fefo.stockLevel s);
          quantityAvailable := Double.ofInt (Fefo.quantityAvailable (Fefo.stockLevel s)) |};
     lotBatch := Fefo.lotBatch s |}.

Definition ofLine (l : Fefo.AllocationLine) : AllocationLine :=
  {| al_stockLevelId := Fefo.al_stockLevelId l;
     al_locationId := Fefo.al_locationId l;
     al_lotBatchId := Fefo.al_lotBatchId l;
     al_lotNumber := Fefo.al_lotNumber l;
     al_expirationDate := Fefo.al_expirationDate l;
     quantity := Double.ofInt (Fefo.quantity l);
     daysToExpiration := Fefo.daysToExpiration l |}.

Definition ofResult (r : Fefo.AllocationResult) : AllocationResult :=
  {| success := Fefo.success r;
     fullyAllocated := Fefo.fullyAllocated r;
     res_requestedQuantity := Double.ofInt (Fefo.res_requestedQuantity r);
     allocatedQuantity := Double.ofInt (Fefo.allocatedQuantity r);
     shortfallQuantity := Double.ofInt (Fefo.shortfallQuantity r);
     allocations := map ofLine (Fefo.allocations r);
     skippedSources := Fefo.skippedSources r |}.

(** The request and the sources hold safe integers. *)
Definition integerInputs (request : Fefo.AllocationRequest)
    (sources : list Fefo.InventorySource) : Prop :=
  Double.isSafeInteger (Fefo.requestedQuantity request)
  /\ Forall (fun s => Double.isSafeInteger (Fefo.quantityAvailable (Fefo.stockLevel s)))
       sources.

(** A source of product P2 in warehouse W1 without a lot, and a request for
    that product, with decimal quantities [n / 10]. *)
Definition tenths (n : Z) : Double.number := Double.ofRatio n 10.

Definition sourceOf (stockId : string) (available : Double.number) : InventorySource :=
  {| stockLevel :=
       {| sl_id := stockId; warehouseId := "W1"; productId := "P2"; variantId := None;
          locationId := "A-01"; quantityAvailable := available |};
     lotBatch := None |}.

Definition requestOf (qty : Double.number) : AllocationRequest :=
  {| req_productId := "P2"; req_variantId := None; requestedQuantity := qty;
     req_warehouseId := "W1"; preferredLocations := None; excludedLots := None;
     req_minDaysToExpiration := None |}.

(** The result shape as the specification has it: the lines sum to at most
    the requested quantity, allocated plus shortfall is the requested
    quantity, and [fullyAllocated] holds exactly for a zero shortfall. *)
Definition claimedShape (request : AllocationRequest) (res : AllocationResult) : Prop :=
  sumUnits (allocations res) <= Double.units (requestedQuantity request)
  /\ Double.units (allocatedQuantity res) + Double.units (shortfallQuantity res)
     = Double.units (requestedQuantity request)
  /\ (fullyAllocated res = true <-> shortfallQuantity res = Double.zero).

End FefoDouble.

(** ** Stock levels (domain/entities/stock-level.ts and
       db/repositories/stock-level.repository.ts) *)

Module StockRepo.

Record StockLevel : Type := {
  id : string;
  quantityOnHand : Z;
  quantityReserved : Z;
  quantityAvailable : Z;
  quantityInbound : Z;
  quantityOutbound : Z;
  lastMovementAt : option Z;
  rowVersion : Z
}.

(** The domain helper; no mutation path of the repository calls it. *)
Definition calculateAvailableQuantity (onHand reserved : Z) : Z :=
  Z.max 0 (onHand - reserved).

Record Delta : Type := {
  onHand : option Z;
  reserved : option Z;
  inbound : option Z;
  outbound : option Z
}.

(** The two [throw new Error(...)] of [updateQuantities], by message. *)
Inductive Error : Type :=
| StockLevelNotFound (id : string)
| OptimisticLockConflict (expectedVersion found : Z).

(** [updateQuantities(id, delta, expectedVersion)] over the table [db];
    [now] is the value of [new Date()].  Returns the table after the update
    and the updated row. *)
Definition updateQuantities (db : gmap string StockLevel) (now : Z) (id : string)
    (delta : Delta) (expectedVersion : Z)
    : Js.result Error (gmap string StockLevel * StockLevel) :=
  match db !! id with
  | None => Js.Throw (StockLevelNotFound id)
  | Some current =>
      if negb (rowVersion current =? expectedVersion)
      then Js.Throw (OptimisticLockConflict expectedVersion (rowVersion current))
      else
        let newOnHand := quantityOnHand current + default 0 (onHand delta) in
        let newReserved := quantityReserved current + default 0 (reserved delta) in
        let updated :=
          {| id := StockRepo.id current;
             quantityOnHand := newOnHand;
             quantityReserved := newReserved;
             quantityAvailable := newOnHand - newReserved;
             quantityInbound := quantityInbound current + default 0 (inbound delta);
             quantityOutbound := quantityOutbound current + default 0 (outbound delta);
             lastMovementAt := Some now;
             rowVersion := rowVersion current + 1 |} in
        Js.Ok (<[id := updated]> db, updated)
  end.

Definition noDelta : Delta :=
  {| onHand := None; reserved := None; inbound := None; outbound := None |}.

Definition decrementOnHand db now id (quantity expectedVersion : Z) :=
  updateQuantities db now id
    {| onHand := Some (- quantity); reserved := None; inbound := None; outbound := None |}
    expectedVersion.

Definition reserve db now id (quantity expectedVersion : Z) :=
  updateQuantities db now id
    {| onHand := None; reserved := Some quantity; inbound := None; outbound := None |}
    expectedVersion.

End StockRepo.

(** ** Outbox (db/repositories/outbox.repository.ts) *)

Module Outbox.

Inductive Status : Type := PENDING | PUBLISHED | FAILED.

Record OutboxMessage : Type := {
  id : string;
  status : Status;
  retryCount : Z;
  maxRetries : Z;
  lastError : option string;
  scheduledAt : Z;
  publishedAt : option Z
}.

Inductive Error : Type :=
| OutboxMessageNotFound (id : string).

(** [markAsFailed(id, error)]; [now] is [Date.now()].  [Math.pow(2, n)] is
    [2 ^ n] for the non-negative counts the column holds. *)
Definition markAsFailed (db : gmap string OutboxMessage) (now : Z) (id : string)
    (error : string) : Js.result Error (gmap string OutboxMessage * OutboxMessage) :=
  match db !! id with
  | None => Js.Throw (OutboxMessageNotFound id)
  | Some message =>
      let newRetryCount := retryCount message + 1 in
      let status' := if maxRetries message <=? newRetryCount then FAILED else PENDING in
      let backoffSeconds := 2 ^ newRetryCount in
      let nextSchedule := now + backoffSeconds * 1000 in
      let updated :=
        {| id := Outbox.id message;
           status := status';
           retryCount := newRetryCount;
           maxRetries := maxRetries message;
           lastError := Some error;
           scheduledAt := nextSchedule;
           publishedAt := publishedAt message |} in
      Js.Ok (<[id := updated]> db, updated)
  end.

End Outbox.

(** ** Slotting scorer (domain/rules/slotting-scorer.ts)

    Measurements, weights and scores are [number]s; every operation of the
    source is the rounded operation of [Double], in the order in which the
    source evaluates it. *)

Module Slotting.

Inductive LocationType : Type :=
| BULK | PICK | STAGING | RECEIVING | SHIPPING | QUARANTINE | RETURN | CROSS_DOCK.
Inductive TemperatureZone : Type := AMBIENT | CHILLED | FROZEN | CONTROLLED.
Inductive ABCClass : Type := A | B | C.

Record Location : Type := {
  id : string;
  zone : string;
  type : LocationType;
  temperatureZone : TemperatureZone;
  pickSequence : option Z;
  isActive : bool;
  isHazmatCertified : bool
}.

Record SlottingCandidate : Type := {
  location : Location;
  currentUtilization : Double.number;
  distanceFromDock : Double.number;
  pickFrequency : Double.number
}.

Record SlottingContext : Type := {
  productAbcClass : option ABCClass;
  temperatureRequired : option TemperatureZone;
  isHazmat : bool;
  quantityToStore : Double.number;
  preferredZones : option (list string);
  excludedLocations : option (list string)
}.

Record SlottingWeights : Type := {
  abcVelocity : Double.number;
  proximity : Double.number;
  capacity : Double.number;
  temperature : Double.number;
  fefo : Double.number;
  hazard : Double.number
}.

Definition DEFAULT_SLOTTING_WEIGHTS : SlottingWeights :=
  {| abcVelocity := Double.ofRatio 30 100;
     proximity := Double.ofRatio 25 100;
     capacity := Double.ofRatio 20 100;
     temperature := Double.ofRatio 10 100;
     fefo := Double.ofRatio 10 100;
     hazard := Double.ofRatio 5 100 |}.

Record Breakdown : Type := {
  abcVelocityScore : Double.number;
  proximityScore : Double.number;
  capacityScore : Double.number;
  temperatureScore : Double.number;
  fefoScore : Double.number;
  hazardScore : Double.number
}.

Record ScoredLocation : Type := {
  sc_location : Location;
  score : Double.number;
  breakdown : Breakdown
}.

Definition eqTemperatureZone (a b : TemperatureZone) : bool :=
  match a, b with
  | AMBIENT, AMBIENT | CHILLED, CHILLED | FROZEN, FROZEN | CONTROLLED, CONTROLLED => true
  | _, _ => false
  end.

Definition isLocationValid (location : Location) (context : SlottingContext) : bool :=
  if negb (isActive location) then false
  else if match excludedLocations context with
          | Some ex => Js.includes ex (id location)
          | None => false
          end then false
  else if match preferredZones context with
          | Some (z :: zs) => negb (Js.includes (z :: zs) (zone location))
          | _ => false
          end then false
  else if match temperatureRequired context with
          | Some t =>
              negb (eqTemperatureZone t AMBIENT)
              && negb (eqTemperatureZone (temperatureZone location) t)
          | None => false
          end then false
  else if isHazmat context && negb (isHazmatCertified location) then false
  else true.

Definition scoreAbcVelocity (candidate : SlottingCandidate) (context : SlottingContext)
    : Double.number :=
  let maxFrequency := Double.ofInt 100 in
  let normalizedFrequency :=
    Double.min (pickFrequency candidate / maxFrequency)%D Double.one in
  match productAbcClass context with
  | Some A => normalizedFrequency
  | Some C => (Double.one - normalizedFrequency)%D
  | _ => Double.half
  end.

(** [Math.max(...xs)]: [None] stands for the [-Infinity] of an empty list. *)
Definition mathMax (xs : list Double.number) : option Double.number :=
  match xs with
  | [] => None
  | x :: xs' => Some (fold_left Double.max xs' x)
  end.

Definition scoreProximity (candidate : SlottingCandidate)
    (allCandidates : list SlottingCandidate) : Double.number :=
  match mathMax (map distanceFromDock allCandidates) with
  | None => Double.one
  | Some maxDistance =>
      if Double.eqb maxDistance Double.zero then Double.one
      else (Double.one - distanceFromDock candidate / maxDistance)%D
  end.

Definition scoreCapacity (candidate : SlottingCandidate) : Double.number :=
  (Double.one - currentUtilization candidate / Double.ofInt 100)%D.

Definition scoreTemperature (location : Location) (context : SlottingContext)
    : Double.number :=
  match temperatureRequired context with
  | None => Double.half
  | Some t =>
      if eqTemperatureZone (temperatureZone location) t then Double.one else Double.zero
  end.

Definition scoreFefo (location : Location) : Double.number :=
  match type location with
  | PICK | STAGING => Double.one
  | _ => Double.half
  end.

Definition scoreHazard (location : Location) (context : SlottingContext) : Double.number :=
  if negb (isHazmat context) then Double.one
  else if isHazmatCertified location then Double.one else Double.zero.

Definition scoreCandidate (weights : SlottingWeights) (candidates : list SlottingCandidate)
    (context : SlottingContext) (candidate : SlottingCandidate) : ScoredLocation :=
  let breakdown :=
    {| abcVelocityScore := scoreAbcVelocity candidate context;
       proximityScore := scoreProximity candidate candidates;
       capacityScore := scoreCapacity candidate;
       temperatureScore := scoreTemperature (location candidate) context;
       fefoScore := scoreFefo (location candidate);
       hazardScore := scoreHazard (location candidate) context |} in
  let score :=
    (abcVelocityScore breakdown * abcVelocity weights +
     proximityScore breakdown * proximity weights +
     capacityScore breakdown * capacity weights +
     temperatureScore breakdown * temperature weights +
     fefoScore breakdown * fefo weights +
     hazardScore breakdown * hazard weights)%D in
  {| sc_location := location candidate; score := score; breakdown := breakdown |}.

(** Comparator of the final sort: [(a, b) => b.score - a.score]. *)
Definition compareScore (a b : ScoredLocation) : Double.number := (score b - score a)%D.

Definition scoreLocations (weights : SlottingWeights)
    (candidates : list SlottingCandidate) (context : SlottingContext)
    : list ScoredLocation :=
  let validCandidates :=
    filter (fun c => isLocationValid (location c) context = true) candidates in
  let scored := map (scoreCandidate weights candidates context) validCandidates in
  Js.sort (fun a b => Double.leb (compareScore a b) Double.zero) scored.

End Slotting.

(** ** Event envelopes and the agent contract
       (contracts/events/envelope.ts, agents/runtime/base-agent.ts) *)

Module Agents.

Inductive ActorType : Type := USER | SYSTEM | AGENT | INTEGRATION.

Record Actor : Type := {
  actor_type : ActorType;
  actor_id : string
}.

Record EventEnvelope : Type := {
  event_id : string;
  event_type : string;
  occurred_at : string;
  schema_version : string;
  correlation_id : string;
  causation_id : option string;
  actor : Actor;
  tenant_id : string;
  warehouse_id : option string;
  payload : string
}.

Record EventContext : Type := {
  ec_correlationId : string;
  ec_causationId : option string;
  ec_actor : Actor;
  ec_tenantId : string;
  ec_warehouseId : option string
}.

(** [createEvent]; [uuid] and [nowIso] are the values of [randomUUID()] and
    [new Date().toISOString()]. *)
Definition createEvent (uuid nowIso : string) (eventType : string) (payload : string)
    (context : EventContext) : EventEnvelope :=
  {| event_id := uuid;
     event_type := eventType;
     occurred_at := nowIso;
     schema_version := "1.0";
     correlation_id := ec_correlationId context;
     causation_id := ec_causationId context;
     actor := ec_actor context;
     tenant_id := ec_tenantId context;
     warehouse_id := ec_warehouseId context;
     payload := payload |}.

(** [AgentContext] without its logger. *)
Record AgentContext : Type := {
  tenantId : string;
  warehouseId : option string;
  correlationId : string
}.

Record AgentResult : Type := {
  success : bool;
  message : option string;
  eventsToPublish : option (list EventEnvelope);
  errors : option (list string)
}.

(** A thrown value: an [Error] with its message, or anything else. *)
Inductive Thrown : Type :=
| ErrorObject (message : string)
| OtherValue.

Definition errorMessage (e : Thrown) : string :=
  match e with
  | ErrorObject m => m
  | OtherValue => "Unknown error"
  end.

(** What the abstract [process] of an agent does on one invocation: it
    resolves, it throws, or it is still pending when the runner's timer
    fires. *)
Inductive ProcessOutcome : Type :=
| Resolves (r : AgentResult)
| Throws (e : Thrown)
| Pending.

Record BaseAgent : Type := {
  name : string;
  description : string;
  subscribesTo : list string;
  process : EventEnvelope -> AgentContext -> ProcessOutcome
}.



End Agents.

(** ** Agent registry (agents/runtime/agent-registry.ts) *)

Module Registry.
Import Agents.

Record AgentRegistry : Type := {
  agents : gmap string BaseAgent;
  eventSubscriptions : gmap string (list string)
}.

Definition empty : AgentRegistry :=
  {| agents := ∅; eventSubscriptions := ∅ |}.

(** [Set.prototype.add] and [Set.prototype.delete]. *)
Definition setAdd (x : string) (s : list string) : list string :=
  if bool_decide (x ∈ s) then s else s ++ [x].

Definition setDelete (x : string) (s : list string) : list string :=
  filter (fun y => y ≠ x) s.

Definition subscribe (agentName : string) (subs : gmap string (list string))
    (eventType : string) : gmap string (list string) :=
  <[eventType := setAdd agentName (default [] (subs !! eventType))]> subs.

Definition register (agent : BaseAgent) (self : AgentRegistry) : AgentRegistry :=
  {| agents := <[name agent := agent]> (agents self);
     eventSubscriptions :=
       fold_left (subscribe (name agent)) (subscribesTo agent) (eventSubscriptions self) |}.

Definition unsubscribe (agentName : string) (subs : gmap string (list string))
    (eventType : string) : gmap string (list string) :=
  alter (setDelete agentName) eventType subs.

Definition unregister (agentName : string) (self : AgentRegistry) : AgentRegistry :=
  match agents self !! agentName with
  | None => self
  | Some agent =>
      {| agents := delete agentName (agents self);
         eventSubscriptions :=
           fold_left (unsubscribe agentName) (subscribesTo agent) (eventSubscriptions self) |}
  end.

Definition getAgent (self : AgentRegistry) (name : string) : option BaseAgent :=
  agents self !! name.

Definition addAll (names : option (list string)) (agentNames : list string) : list string :=
  match names with
  | Some subs => fold_left (fun acc n => setAdd n acc) subs agentNames
  | None => agentNames
  end.

Definition getAgentsForEvent (self : AgentRegistry) (eventType : string) : list BaseAgent :=
  let agentNames := addAll (eventSubscriptions self !! eventType) [] in
  let agentNames := addAll (eventSubscriptions self !! "*") agentNames in
  omap (fun n => agents self !! n) agentNames.

End Registry.

(** ** Agent runner (agents/runtime/agent-runner.ts) *)

Module Runner.
Import Agents.

Record AgentRunnerConfig : Type := {
  concurrency : nat;
  continueOnError : bool;
  timeout : Z
}.

Definition DEFAULT_CONFIG : AgentRunnerConfig :=
  {| concurrency := 10; continueOnError := true; timeout := 30000 |}.

(** Durations, which are wall-clock differences, are left out. *)
Record AgentExecutionResult : Type := {
  agentName : string;
  result : AgentResult
}.

Record BatchExecutionResult : Type := {
  eventId : string;
  eventType : string;
  results : list AgentExecutionResult;
  successCount : nat;
  failureCount : nat;
  eventsToPublish : list EventEnvelope
}.

(** What awaiting a promise gives: its value, the value it was rejected
    with, or nothing because it never settles. *)
Inductive Awaited (A : Type) : Type :=
| Fulfilled (a : A)
| Rejected (e : Thrown)
| Unsettled.
Arguments Fulfilled {A} a.
Arguments Rejected {A} e.
Arguments Unsettled {A}.



(** What is passed for the parameter [agentName]: a string or, at the call
    in [executeAgents], an agent object. *)
Inductive NameArgument : Type :=
| NameString (name : string)
| AgentObject (agent : BaseAgent).

(** [agentRegistry.getAgent(agentName)], that is [this.agents.get(agentName)]
    on a map whose keys are strings: no key is equal to an object. *)
Definition getAgent (registry : Registry.AgentRegistry) (agentName : NameArgument)
    : option BaseAgent :=
  match agentName with
  | NameString name => Registry.getAgent registry name
  | AgentObject _ => None
  end.

(** Reading [r.result.success] in a callback: a [TypeError] when [r] is
    [null]. *)
Definition nullResultError : Thrown :=
  ErrorObject "Cannot read properties of null (reading 'result')".

Definition readSuccess (r : option AgentExecutionResult) : Js.result Thrown bool :=
  match r with
  | Some r => Js.Ok (success (result r))
  | None => Js.Throw nullResultError
  end.

(** [batchResults.some(r => !r.result.success)] *)
Fixpoint someFailed (batchResults : list (option AgentExecutionResult))
    : Js.result Thrown bool :=
  match batchResults with
  | [] => Js.Ok false
  | r :: rest =>
      match readSuccess r with
      | Js.Throw e => Js.Throw e
      | Js.Ok true => someFailed rest
      | Js.Ok false => Js.Ok true
      end
  end.

(** The entries of [results] as the callbacks of [executeForEvent] read
    them: the first [filter] throws at the first [null] entry. *)
Fixpoint readResults (results : list (option AgentExecutionResult))
    : Js.result Thrown (list AgentExecutionResult) :=
  match results with
  | [] => Js.Ok []
  | None :: _ => Js.Throw nullResultError
  | Some r :: rest =>
      match readResults rest with
      | Js.Ok rs => Js.Ok (r :: rs)
      | Js.Throw e => Js.Throw e
      end
  end.

(** [Promise.all(batch.map(call))]: rejected with the first rejection,
    fulfilled when every call is, and unsettled otherwise. *)
Fixpoint promiseAll {A B : Type} (call : A -> Awaited B) (batch : list A)
    : Awaited (list B) :=
  match batch with
  | [] => Fulfilled []
  | a :: rest =>
      match call a, promiseAll call rest with
      | Rejected e, _ => Rejected e
      | _, Rejected e => Rejected e
      | Fulfilled b, Fulfilled bs => Fulfilled (b :: bs)
      | _, _ => Unsettled
      end
  end.

(** The batch loop of [executeAgents]; [call] is [this.executeAgent] and
    [pending] is [agents.slice(i)].  Each iteration consumes one unit of
    [fuel]: with a positive concurrency the body runs at most
    [agents.length] times, with concurrency 0 the loop does not end. *)
Fixpoint executeBatches (cfg : AgentRunnerConfig)
    (call : BaseAgent -> Awaited (option AgentExecutionResult))
    (fuel : nat) (pending : list BaseAgent)
    (results : list (option AgentExecutionResult))
    : Awaited (list (option AgentExecutionResult)) :=
  match pending with
  | [] => Fulfilled results
  | _ :: _ =>
      match fuel with
      | O => Unsettled
      | S fuel' =>
          let batch := take (concurrency cfg) pending in
          match promiseAll call batch with
          | Rejected e => Rejected e
          | Unsettled => Unsettled
          | Fulfilled batchResults =>
              let results := results ++ batchResults in
              let next :=
                executeBatches cfg call fuel' (drop (concurrency cfg) pending) results in
              if continueOnError cfg then next
              else
                match someFailed batchResults with
                | Js.Throw e => Rejected e
                | Js.Ok true => Fulfilled results
                | Js.Ok false => next
                end
          end
      end
  end.

(** The method that [executeAgent] names at run time (lines 187-202).  It
    and [executeAgents] call each other through [this]; [depth] bounds the
    nesting of these calls, which is two for a registered name:
    [executeAgent(name)] calls [executeAgents([agent])], which calls
    [executeAgent(agent)] with the agent object, which finds no agent under
    that key and returns [null]. *)
Fixpoint executeAgent (registry : Registry.AgentRegistry) (cfg : AgentRunnerConfig)
    (depth : nat) (agentName : NameArgument)
    (event : EventEnvelope) (context : AgentContext)
    : Awaited (option AgentExecutionResult) :=
  match getAgent registry agentName with
  | None => Fulfilled None
  | Some agent =>
      match depth with
      | O => Unsettled
      | S depth' =>
          let call a := executeAgent registry cfg depth' (AgentObject a) event context in
          match executeBatches cfg call 1 [agent] [] with
          | Fulfilled results => Fulfilled (mjoin (head results))
          | Rejected e => Rejected e
          | Unsettled => Unsettled
          end
      end
  end.

(** [executeAgents]: the loop, started with every agent pending. *)
Definition executeAgents (registry : Registry.AgentRegistry) (cfg : AgentRunnerConfig)
    (agents : list BaseAgent) (event : EventEnvelope) (context : AgentContext)
    : Awaited (list (option AgentExecutionResult)) :=
  let call a := executeAgent registry cfg 1 (AgentObject a) event context in
  executeBatches cfg call (length agents) agents [].

Definition executeForEvent (registry : Registry.AgentRegistry) (cfg : AgentRunnerConfig)
    (event : EventEnvelope) (context : AgentContext) : Awaited BatchExecutionResult :=
  let agents := Registry.getAgentsForEvent registry (event_type event) in
  match agents with
  | [] =>
      Fulfilled
        {| eventId := event_id event; eventType := event_type event; results := [];
           successCount := 0; failureCount := 0; eventsToPublish := [] |}
  | _ :: _ =>
      match executeAgents registry cfg agents event context with
      | Rejected e => Rejected e
      | Unsettled => Unsettled
      | Fulfilled results =>
          match readResults results with
          | Js.Throw e => Rejected e
          | Js.Ok results =>
              Fulfilled
                {| eventId := event_id event;
                   eventType := event_type event;
                   results := results;
                   successCount :=
                     length (filter (fun r => success (result r) = true) results);
                   failureCount :=
                     length (filter (fun r => success (result r) = false) results);
                   eventsToPublish :=
                     flat_map (fun r => default [] (Agents.eventsToPublish (result r)))
                       results |}
          end
      end
  end.

End Runner.

(** ** Event consumer (apps/worker/src/consumers/event-consumer.ts) *)

Module Consumer.
Import Agents.

(** An inbound broker message: [parsed] is the outcome of
    [JSON.parse(msg.content.toString())], with [None] for the JSON value
    [null] and [Some event] for an object with the fields of an envelope;
    [retryCountHeader] is the value of
    [msg.properties.headers?.['x-retry-count']]. *)
Record Message : Type := {
  messageId : string;
  parsed : Js.result Thrown (option EventEnvelope);
  retryCountHeader : option Z
}.

(** One [channel.publish] call. *)
Record Published : Type := {
  exchange : string;
  routingKey : string;
  body : EventEnvelope;
  persistent : bool;
  contentType : string;
  pub_messageId : string;
  x_tenant_id : string;
  x_event_type : string;
  x_correlation_id : string;
  x_causation_id : string
}.

(** How the consumer settles the delivery; [NotSettled] when its handler
    never reaches an [ack] or [nack]. *)
Inductive Settlement : Type :=
| Ack
| NackRequeueAfter (delayMs : Z)
| NackNoRequeue
| NotSettled.

Definition lowerAscii (c : ascii) : ascii :=
  let n := nat_of_ascii c in
  if ((65 <=? n) && (n <=? 90))%nat then ascii_of_nat (n + 32) else c.

Fixpoint mapString (f : ascii -> ascii) (s : string) : string :=
  match s with
  | EmptyString => EmptyString
  | String c s' => String (f c) (mapString f s')
  end.

(** [event_type.toLowerCase().replace(/_/g, '.')] for an event type made of
    ASCII characters, as the declared event types are; on other characters
    [toLowerCase] follows the Unicode case mapping, which is not
    modelled. *)
Definition routingKeyOf (eventType : string) : string :=
  mapString (fun c => if Ascii.eqb c "_" then "."%char else c)
    (mapString lowerAscii eventType).

Definition publishDerived (event newEvent : EventEnvelope) : Published :=
  {| exchange := "stockos.events";
     routingKey := routingKeyOf (event_type newEvent);
     body := newEvent;
     persistent := true;
     contentType := "application/json";
     pub_messageId := event_id newEvent;
     x_tenant_id := tenant_id newEvent;
     x_event_type := event_type newEvent;
     x_correlation_id := correlation_id newEvent;
     x_causation_id := event_id event |}.

(** Reading [event.event_id] when the content is the JSON value [null]. *)
Definition nullEventError : Thrown :=
  ErrorObject "Cannot read properties of null (reading 'event_id')".

(** The [try] block of [handleMessage] up to the [ack]: the list of publish
    calls it makes, or the error thrown on the way. *)
Definition processMessage (registry : Registry.AgentRegistry)
    (cfg : Runner.AgentRunnerConfig) (msg : Message) : Runner.Awaited (list Published) :=
  match parsed msg with
  | Js.Throw e => Runner.Rejected e
  | Js.Ok None => Runner.Rejected nullEventError
  | Js.Ok (Some event) =>
      match
        Runner.executeForEvent registry cfg event
          {| tenantId := tenant_id event;
             warehouseId := warehouse_id event;
             correlationId := correlation_id event |}
      with
      | Runner.Fulfilled result =>
          Runner.Fulfilled (map (publishDerived event) (Runner.eventsToPublish result))
      | Runner.Rejected e => Runner.Rejected e
      | Runner.Unsettled => Runner.Unsettled
      end
  end.

(** The [catch] block. *)
Definition onError (msg : Message) : Settlement :=
  let retryCount := default 0 (retryCountHeader msg) in
  if retryCount <? 3 then NackRequeueAfter (2 ^ retryCount * 1000)
  else NackNoRequeue.

(** [handleMessage] for a delivered message on an open channel (the guard
    [if (!msg || !this.channel) return] has passed): the publish calls made
    and how the delivery is settled. *)
Definition handleMessage (registry : Registry.AgentRegistry)
    (cfg : Runner.AgentRunnerConfig) (msg : Message) : list Published * Settlement :=
  match processMessage registry cfg msg with
  | Runner.Fulfilled published => (published, Ack)
  | Runner.Rejected _ => ([], onError msg)
  | Runner.Unsettled => ([], NotSettled)
  end.

(** The broker's side of a delivery, as AMQP defines it: a message that is
    nack'ed with requeue goes back on the queue as it is, headers included,
    and is handed to the consumer again; an ack or a nack without requeue
    ends its life on the queue.  [deliveries n] lists the settlements of
    the first [n] deliveries of [msg]. *)
Fixpoint deliveries (registry : Registry.AgentRegistry) (cfg : Runner.AgentRunnerConfig)
    (n : nat) (msg : Message) : list Settlement :=
  match n with
  | O => []
  | S n' =>
      let s := snd (handleMessage registry cfg msg) in
      s :: match s with
           | NackRequeueAfter _ => deliveries registry cfg n' msg
           | _ => []
           end
  end.

End Consumer.

(** ** Vocabulary of the FEFO properties *)

Module FefoSpec.
Import Lot Fefo.

(** The order in which sources are to be considered, in the specification's
    words: [a] may come before [b] when [a] is in a preferred location and
    [b] is not, or when both are in the same group and: both lots expire
    and [a]'s no later than [b]'s; only [a]'s lot expires; neither lot
    expires and [a]'s was received no later; or [b] has no lot. *)
Definition consideredBefore (request : AllocationRequest) (a b : InventorySource) : Prop :=
  let pa := isPreferred request (locationId (stockLevel a)) in
  let pb := isPreferred request (locationId (stockLevel b)) in
  (pa = true /\ pb = false) \/
  (pa = pb /\
   match lotBatch a, lotBatch b with
   | Some la, Some lb =>
       match expirationDate la, expirationDate lb with
       | Some ea, Some eb => ea <= eb
       | Some _, None => True
       | None, Some _ => False
       | None, None => receivedAt la <= receivedAt lb
       end
   | Some _, None => True
   | None, Some _ => False
   | None, None => True
   end).

(** A source passes the filters: it is for the requested product, warehouse
    and variant, and none of the four checks of the loop skips it. *)
Definition passesFilters (self : FefoAllocator) (request : AllocationRequest)
    (s : InventorySource) : Prop :=
  matchesRequest request s = true /\ skipCheck self request s = None.

(** The expiration date of the lot of a source, if it has both. *)
Definition expiryOf (s : InventorySource) : option Z :=
  lotBatch s ≫= expirationDate.

(** FEFO monotonicity as the specification states it: whenever a line draws
    from a lot expiring at [e2], every source that passes the filters and
    whose lot expires earlier has been drawn in full. *)
Definition monotone (self : FefoAllocator) (request : AllocationRequest)
    (sources : list InventorySource) : Prop :=
  forall line s1 e1 e2,
    line ∈ allocations (allocate self request sources) ->
    al_expirationDate line = Some e2 ->
    s1 ∈ sources ->
    passesFilters self request s1 ->
    expiryOf s1 = Some e1 ->
    e1 < e2 ->
    lineOf self s1 (quantityAvailable (stockLevel s1))
      ∈ allocations (allocate self request sources).

(** The same, restricted to a line and a source of the same priority group
    (both in a preferred location, or both not). *)
Definition monotoneWithinGroup (self : FefoAllocator) (request : AllocationRequest)
    (sources : list InventorySource) : Prop :=
  forall line s1 e1 e2,
    line ∈ allocations (allocate self request sources) ->
    al_expirationDate line = Some e2 ->
    s1 ∈ sources ->
    passesFilters self request s1 ->
    expiryOf s1 = Some e1 ->
    e1 < e2 ->
    isPreferred request (locationId (stockLevel s1))
      = isPreferred request (al_locationId line) ->
    lineOf self s1 (quantityAvailable (stockLevel s1))
      ∈ allocations (allocate self request sources).

(** "The comparator of the second sort does not put [a] after [b]". *)
Definition leSources (request : AllocationRequest) (a b : InventorySource) : bool :=
  compareSources request a b <=? 0.

Definition sumQuantities (lines : list AllocationLine) : Z :=
  fold_right Z.add 0 (map quantity lines).

(** The request with its [minDaysToExpiration] field set to [m]. *)
Definition withMinDays (m : option Z) (request : AllocationRequest) : AllocationRequest :=
  {| req_productId := req_productId request;
     req_variantId := req_variantId request;
     requestedQuantity := requestedQuantity request;
     req_warehouseId := req_warehouseId request;
     preferredLocations := preferredLocations request;
     excludedLots := excludedLots request;
     req_minDaysToExpiration := m |}.

End FefoSpec.

(** ** Concrete inputs used by the examples below *)

Module FefoExamples.
Import Lot Fefo.

(** An allocator built with no options at time 0 of the examples' clock. *)
Definition allocator0 : FefoAllocator :=
  new_FefoAllocator 0 {| opt_minDaysToExpiration := None; opt_referenceDate := None |}.

Definition lotExpiringOn (lotId : string) (day : Z) : LotBatch :=
  {| Lot.id := lotId; lotNumber := lotId; expirationDate := Some (day * msPerDay);
     receivedAt := 0; status := AVAILABLE |}.

Definition sourceAt (stockId loc : string) (available : Z) (lot : option LotBatch)
    : InventorySource :=
  {| stockLevel :=
       {| sl_id := stockId; warehouseId := "W1"; productId := "P2"; variantId := None;
          locationId := loc; quantityAvailable := available |};
     lotBatch := lot |}.

Definition requestFor (qty : Z) (preferred : option (list string)) (minDays : option Z)
    : AllocationRequest :=
  {| req_productId := "P2"; req_variantId := None; requestedQuantity := qty;
     req_warehouseId := "W1"; preferredLocations := preferred; excludedLots := None;
     req_minDaysToExpiration := minDays |}.

(** Scenario S2 of the specification: lot L1 expires later than lot L2. *)
Definition srcL1 : InventorySource := sourceAt "SL-1" "A-01" 5 (Some (lotExpiringOn "L1" 200)).
Definition srcL2 : InventorySource := sourceAt "SL-2" "A-02" 5 (Some (lotExpiringOn "L2" 100)).

(** A lot three days from expiry. *)
Definition srcSoon : InventorySource := sourceAt "SL-3" "A-03" 5 (Some (lotExpiringOn "L3" 3)).

End FefoExamples.

Module StoreExamples.

(** A stock-level row with five units on hand, three of them reserved. *)
Definition row0 : StockRepo.StockLevel :=
  {| StockRepo.id := "SL-1";
     StockRepo.quantityOnHand := 5;
     StockRepo.quantityReserved := 3;
     StockRepo.quantityAvailable := 2;
     StockRepo.quantityInbound := 0;
     StockRepo.quantityOutbound := 0;
     StockRepo.lastMovementAt := None;
     StockRepo.rowVersion := 1 |}.

Definition stock0 : gmap string StockRepo.StockLevel := {[ "SL-1" := row0 ]}.

(** [row0] after reserving four more units at time 1000. *)
Definition row0_reserved : StockRepo.StockLevel :=
  {| StockRepo.id := "SL-1";
     StockRepo.quantityOnHand := 5;
     StockRepo.quantityReserved := 7;
     StockRepo.quantityAvailable := -2;
     StockRepo.quantityInbound := 0;
     StockRepo.quantityOutbound := 0;
     StockRepo.lastMovementAt := Some 1000;
     StockRepo.rowVersion := 2 |}.

(** [row0] after taking eight units off the five on hand at time 1000. *)
Definition row0_overdrawn : StockRepo.StockLevel :=
  {| StockRepo.id := "SL-1";
     StockRepo.quantityOnHand := -3;
     StockRepo.quantityReserved := 3;
     StockRepo.quantityAvailable := -6;
     StockRepo.quantityInbound := 0;
     StockRepo.quantityOutbound := 0;
     StockRepo.lastMovementAt := Some 1000;
     StockRepo.rowVersion := 2 |}.

(** A pending outbox row that has failed once, of at most [maxRetries]. *)
Definition outboxRow (maxRetries : Z) : Outbox.OutboxMessage :=
  {| Outbox.id := "OB-1";
     Outbox.status := Outbox.PENDING;
     Outbox.retryCount := 1;
     Outbox.maxRetries := maxRetries;
     Outbox.lastError := None;
     Outbox.scheduledAt := 0;
     Outbox.publishedAt := None |}.

Definition outbox0 (maxRetries : Z) : gmap string Outbox.OutboxMessage :=
  {[ "OB-1" := outboxRow maxRetries ]}.

End StoreExamples.

Module SlottingSpec.
Import Slotting.

(** "The comparator of the final sort does not put [a] after [b]". *)
Definition leScore (a b : ScoredLocation) : bool :=
  Double.leb (compareScore a b) Double.zero.

(** The scored valid candidates, in candidate order: the input of the sort. *)
Definition scoredCandidates (weights : SlottingWeights)
    (candidates : list SlottingCandidate) (context : SlottingContext)
    : list ScoredLocation :=
  map (scoreCandidate weights candidates context)
    (filter (fun c => isLocationValid (location c) context = true) candidates).

Definition hasScore (q : Double.number) (s : ScoredLocation) : bool :=
  Double.eqb (score s) q.

(** The ranking order in the specification's words: higher score first and,
    on equal scores, lower pick sequence first. *)
Definition rankedBefore (a b : ScoredLocation) : Prop :=
  Double.ltb (score b) (score a) = true
  \/ (score a = score b
      /\ match pickSequence (sc_location a), pickSequence (sc_location b) with
         | Some pa, Some pb => pa <= pb
         | _, _ => True
         end).

(** Two bays that differ only in name and pick sequence. *)
Definition bay (name : string) (pickSeq : Z) : Location :=
  {| id := name; zone := "A"; type := PICK; temperatureZone := AMBIENT;
     pickSequence := Some pickSeq; isActive := true; isHazmatCertified := false |}.

Definition candidateIn (l : Location) : SlottingCandidate :=
  {| location := l;
     currentUtilization := Double.ofInt 0;
     distanceFromDock := Double.ofInt 5;
     pickFrequency := Double.ofInt 50 |}.

Definition classA : SlottingContext :=
  {| productAbcClass := Some A; temperatureRequired := None; isHazmat := false;
     quantityToStore := Double.ofInt 10; preferredZones := None;
     excludedLocations := None |}.

(** Two candidates whose scores are both 0.39 in exact arithmetic; the
    rounded sums differ in the last bit. *)
Definition measured (name : string) (utilization distance frequency : Z)
    : SlottingCandidate :=
  {| location := bay name 1;
     currentUtilization := Double.ofInt utilization;
     distanceFromDock := Double.ofInt distance;
     pickFrequency := Double.ofInt frequency |}.

End SlottingSpec.

Module RegistrySpec.
Import Agents Registry.

(** The subscription index lists [agentName] under [eventType]. *)
Definition subscribed (self : AgentRegistry) (eventType agentName : string) : Prop :=
  agentName ∈ default [] (eventSubscriptions self !! eventType).

(** Every agent is stored under its own name, as [register] stores it. *)
Definition keyedByName (self : AgentRegistry) : Prop :=
  map_Forall (fun key agent => name agent = key) (agents self).

(** Two agents called "threshold": the first listens to stock updates, the
    second, registered later under the same name, to low-stock alerts. *)
Definition idle (agentName : string) (subs : list string) : BaseAgent :=
  {| name := agentName; description := ""; subscribesTo := subs;
     process := fun _ _ =>
       Resolves {| success := true; message := None; eventsToPublish := None;
                   errors := None |} |}.

Definition thresholdV1 : BaseAgent := idle "threshold" ["Inventory.StockUpdated"].
Definition thresholdV2 : BaseAgent := idle "threshold" ["Inventory.LowStockAlert"].

End RegistrySpec.

Module RuntimeSpec.
Import Agents.

(** The context the consumer builds for an inbound envelope. *)
Definition contextOf (event : EventEnvelope) : AgentContext :=
  {| tenantId := tenant_id event;
     warehouseId := warehouse_id event;
     correlationId := correlation_id event |}.


(** The contract of the specification on a derived envelope. *)
Definition carriesInbound (inbound derived : EventEnvelope) : Prop :=
  tenant_id derived = tenant_id inbound
  /\ correlation_id derived = correlation_id inbound
  /\ causation_id derived = Some (event_id inbound).

Definition systemActor : Actor := {| actor_type := SYSTEM; actor_id := "api" |}.

(** An inbound stock update of tenant A. *)
Definition inbound : EventEnvelope :=
  {| event_id := "evt-1"; event_type := "Inventory.StockUpdated";
     occurred_at := "2024-01-01T00:00:00.000Z"; schema_version := "1.0";
     correlation_id := "corr-1"; causation_id := None; actor := systemActor;
     tenant_id := "tenant-A"; warehouse_id := None; payload := "{}" |}.

(** An envelope of another tenant and correlation, with no causation. *)
Definition foreignEnvelope : EventEnvelope :=
  {| event_id := "evt-2"; event_type := "Inventory.LowStockAlert";
     occurred_at := "2024-01-01T00:00:01.000Z"; schema_version := "1.0";
     correlation_id := "corr-9"; causation_id := None; actor := systemActor;
     tenant_id := "tenant-B"; warehouse_id := None; payload := "{}" |}.

(** An agent whose body returns [foreignEnvelope] whatever it receives. *)
Definition carelessAgent : BaseAgent :=
  {| name := "careless"; description := "";
     subscribesTo := ["Inventory.StockUpdated"];
     process := fun _ _ =>
       Resolves {| success := true; message := None;
                   eventsToPublish := Some [foreignEnvelope]; errors := None |} |}.

Definition carelessRegistry : Registry.AgentRegistry :=
  Registry.register carelessAgent Registry.empty.


(** A message whose content is not JSON, published without retry header. *)
Definition poisonMessage : Consumer.Message :=
  {| Consumer.messageId := "m-1";
     Consumer.parsed := Js.Throw (ErrorObject "Unexpected token");
     Consumer.retryCountHeader := None |}.

End RuntimeSpec.

(** ** Further functions of the same files, and vocabulary for their
       properties *)

Module LotOps.
Import Lot.

Definition getDaysUntilExpiration (lot : LotBatch) (referenceDate : Z) : option Z :=
  match expirationDate lot with
  | None => None
  | Some e => Some (Js.ceil_div (e - referenceDate) (1000 * 60 * 60 * 24))
  end.

End LotOps.

Module FefoMore.
Import Lot Fefo.

(** What the sources of a list can give: the available quantity of those
    that no check of the loop skips. *)
Definition supplyOf (self : FefoAllocator) (request : AllocationRequest)
    (vs : list InventorySource) : Z :=
  fold_right
    (fun s acc =>
       match skipCheck self request s with
       | None => quantityAvailable (stockLevel s) + acc
       | Some _ => acc
       end) 0 vs.

(** The lines that take all of every source that is not skipped. *)
Definition fullLines (self : FefoAllocator) (request : AllocationRequest)
    (vs : list InventorySource) : list AllocationLine :=
  omap (fun s =>
          match skipCheck self request s with
          | None => Some (lineOf self s (quantityAvailable (stockLevel s)))
          | Some _ => None
          end) vs.

(** The skip records of every source that is skipped. *)
Definition skipsOf (self : FefoAllocator) (request : AllocationRequest)
    (vs : list InventorySource) : list SkippedSource :=
  omap (fun s => (fun r => skip r s) <$> skipCheck self request s) vs.

Definition isTooClose (r : SkipReason) : bool :=
  match r with
  | TooCloseToExpiration _ => true
  | _ => false
  end.

End FefoMore.

Module StockRepoOps.
Import StockRepo.



(** [canFulfillQuantity] of the domain entity. *)
Definition canFulfillQuantity (stockLevel : StockLevel) (requestedQty : Z)
    (allowNegative : bool) : bool :=
  if allowNegative then true else requestedQty <=? quantityAvailable stockLevel.


(** The two database calls of [updateQuantities], taken apart; between them
    the method awaits and other callers run.  [planUpdate] is what the method
    does with the row [findUnique] returned: the two checks and the [data]
    of the update, computed from that row. *)
Record UpdateData : Type := {
  newOnHand : Z;
  newReserved : Z;
  newAvailable : Z;
  newInbound : Z;
  newOutbound : Z
}.

Definition planUpdate (current : option StockLevel) (id : string) (delta : Delta)
    (expectedVersion : Z) : Js.result Error UpdateData :=
  match current with
  | None => Js.Throw (StockLevelNotFound id)
  | Some current =>
      if negb (rowVersion current =? expectedVersion)
      then Js.Throw (OptimisticLockConflict expectedVersion (rowVersion current))
      else
        let newOnHand := quantityOnHand current + default 0 (onHand delta) in
        let newReserved := quantityReserved current + default 0 (reserved delta) in
        Js.Ok {| newOnHand := newOnHand;
                 newReserved := newReserved;
                 newAvailable := newOnHand - newReserved;
                 newInbound := quantityInbound current + default 0 (inbound delta);
                 newOutbound := quantityOutbound current + default 0 (outbound delta) |}
  end.

(** [prisma.stockLevel.update({ where: { id }, data })]: the row stored
    under [id] at the time of the write gets the planned quantities and its
    version incremented; the call throws when there is no such row. *)
Inductive WriteError : Type :=
| RecordToUpdateNotFound (id : string).

Definition commitUpdate (db : gmap string StockLevel) (now : Z) (id : string)
    (data : UpdateData) : Js.result WriteError (gmap string StockLevel * StockLevel) :=
  match db !! id with
  | None => Js.Throw (RecordToUpdateNotFound id)
  | Some stored =>
      let updated :=
        {| id := StockRepo.id stored;
           quantityOnHand := newOnHand data;
           quantityReserved := newReserved data;
           quantityAvailable := newAvailable data;
           quantityInbound := newInbound data;
           quantityOutbound := newOutbound data;
           lastMovementAt := Some now;
           rowVersion := rowVersion stored + 1 |} in
      Js.Ok (<[id := updated]> db, updated)
  end.

Definition reserveDelta (quantity : Z) : Delta :=
  {| onHand := None; reserved := Some quantity; inbound := None; outbound := None |}.


End StockRepoOps.

Module OutboxOps.
Import Outbox.

(** What Prisma's [update] throws when no row has the given id. *)
Inductive UpdateError : Type :=
| RecordToUpdateNotFound (id : string).

Definition markAsPublished (db : gmap string OutboxMessage) (now : Z) (id : string)
    : Js.result UpdateError (gmap string OutboxMessage * OutboxMessage) :=
  match db !! id with
  | None => Js.Throw (RecordToUpdateNotFound id)
  | Some message =>
      let updated :=
        {| id := Outbox.id message;
           status := PUBLISHED;
           retryCount := retryCount message;
           maxRetries := maxRetries message;
           lastError := lastError message;
           scheduledAt := scheduledAt message;
           publishedAt := Some now |} in
      Js.Ok (<[id := updated]> db, updated)
  end.

Definition retryFailedMessage (db : gmap string OutboxMessage) (now : Z) (id : string)
    : Js.result UpdateError (gmap string OutboxMessage * OutboxMessage) :=
  match db !! id with
  | None => Js.Throw (RecordToUpdateNotFound id)
  | Some message =>
      let updated :=
        {| id := Outbox.id message;
           status := PENDING;
           retryCount := 0;
           maxRetries := maxRetries message;
           lastError := None;
           scheduledAt := now;
           publishedAt := publishedAt message |} in
      Js.Ok (<[id := updated]> db, updated)
  end.

Definition isPending (s : Status) : bool :=
  match s with PENDING => true | _ => false end.

Definition isPublished (s : Status) : bool :=
  match s with PUBLISHED => true | _ => false end.

(** The [where] clause of [findPendingMessages]. *)
Definition isDue (now maxRetries : Z) (m : OutboxMessage) : bool :=
  isPending (status m) && (retryCount m <? maxRetries) && (scheduledAt m <=? now).

(** [findPendingMessages(limit, maxRetries)] at time [now]: the due rows by
    ascending [scheduledAt], cut at [limit] (a count, not negative).  Rows
    with equal [scheduledAt] come in the order the table enumerates them. *)
Definition findPendingMessages (db : gmap string OutboxMessage) (now : Z)
    (limit : nat) (maxRetries : Z) : list OutboxMessage :=
  take limit
    (Js.sort (fun a b => scheduledAt a <=? scheduledAt b)
       (filter (fun m => isDue now maxRetries m = true) (snd <$> map_to_list db))).

(** The [where] clause of [deleteOldPublishedMessages]. *)
Definition isOldPublished (olderThan : Z) (m : OutboxMessage) : bool :=
  isPublished (status m)
  && match publishedAt m with
     | Some t => t <? olderThan
     | None => false
     end.

(** [deleteOldPublishedMessages(olderThan)]: the table without the deleted
    rows, and their number. *)
Definition deleteOldPublishedMessages (db : gmap string OutboxMessage) (olderThan : Z)
    : gmap string OutboxMessage * nat :=
  (filter (fun kv => isOldPublished olderThan (snd kv) = false) db,
   size (filter (fun kv => isOldPublished olderThan (snd kv) = true) db)).

(** The example row [StoreExamples.outboxRow 5] after its second failure,
    at time 1000. *)
Definition outboxRowRetried : OutboxMessage :=
  {| id := "OB-1"; status := PENDING; retryCount := 2; maxRetries := 5;
     lastError := Some "broker down"; scheduledAt := 5000; publishedAt := None |}.

(** A row that fails at each of the given times, as when the dispatcher
    cannot publish it poll after poll. *)
Fixpoint failAtEach (db : gmap string OutboxMessage) (times : list Z) (id error : string)
    : Js.result Outbox.Error (gmap string OutboxMessage) :=
  match times with
  | [] => Js.Ok db
  | now :: rest =>
      match markAsFailed db now id error with
      | Js.Ok (db', _) => failAtEach db' rest id error
      | Js.Throw e => Js.Throw e
      end
  end.

End OutboxOps.

(** ** Outbox dispatcher (apps/worker/src/outbox-dispatcher.ts) *)

Module Dispatcher.
Import Outbox OutboxOps.

(** What [channel.publish] does with one message: it returns [true], it
    returns [false] (the write buffer is full), or it throws. *)
Inductive PublishOutcome : Type :=
| Accepted
| Refused
| Raised (e : Agents.Thrown).

(** The dispatcher's view of the broker: whether [this.channel] is set, and
    what publishing each message does. *)
Record Broker : Type := {
  channelOpen : bool;
  publish : OutboxMessage -> PublishOutcome
}.

Definition attempt (broker : Broker) (message : OutboxMessage) : PublishOutcome :=
  if channelOpen broker then publish broker message
  else Raised (Agents.ErrorObject "Channel not available").

(** The body of the [for] loop for one claimed message, at time [now].  An
    error thrown inside the [try], also by [markAsPublished], is handled by
    the [catch], whose own [markAsFailed] may throw out of the loop. *)
Definition dispatchOne (broker : Broker) (now : Z) (db : gmap string OutboxMessage)
    (message : OutboxMessage) : Js.result Outbox.Error (gmap string OutboxMessage) :=
  let onCatch (errorMessage : string) :=
    match markAsFailed db now (id message) errorMessage with
    | Js.Ok (db', _) => Js.Ok db'
    | Js.Throw e => Js.Throw e
    end in
  match attempt broker message with
  | Accepted =>
      match markAsPublished db now (id message) with
      | Js.Ok (db', _) => Js.Ok db'
      | Js.Throw (RecordToUpdateNotFound _) => onCatch "Record to update not found."
      end
  | Refused => Js.Ok db
  | Raised e => onCatch (Agents.errorMessage e)
  end.

Fixpoint dispatchAll (broker : Broker) (now : Z) (db : gmap string OutboxMessage)
    (messages : list OutboxMessage) : Js.result Outbox.Error (gmap string OutboxMessage) :=
  match messages with
  | [] => Js.Ok db
  | message :: rest =>
      match dispatchOne broker now db message with
      | Js.Ok db' => dispatchAll broker now db' rest
      | Js.Throw e => Js.Throw e
      end
  end.

(** [processOutbox] for one poll at time [now]: the claim uses the default
    cap of [findPendingMessages]. *)
Definition processOutbox (broker : Broker) (now : Z) (batchSize : nat)
    (db : gmap string OutboxMessage) : Js.result Outbox.Error (gmap string OutboxMessage) :=
  dispatchAll broker now db (findPendingMessages db now batchSize 5).

(** The row a claimed message becomes, by what publishing it did. *)
Definition settled (broker : Broker) (now : Z) (m : OutboxMessage) : OutboxMessage :=
  match attempt broker m with
  | Accepted =>
      {| id := id m; status := PUBLISHED; retryCount := retryCount m;
         maxRetries := maxRetries m; lastError := lastError m;
         scheduledAt := scheduledAt m; publishedAt := Some now |}
  | Refused => m
  | Raised e =>
      {| id := id m;
         status := if maxRetries m <=? retryCount m + 1 then FAILED else PENDING;
         retryCount := retryCount m + 1;
         maxRetries := maxRetries m;
         lastError := Some (Agents.errorMessage e);
         scheduledAt := now + 2 ^ (retryCount m + 1) * 1000;
         publishedAt := publishedAt m |}
  end.

(** Every row is stored under its own id, as the table's primary key has it. *)
Definition keyedById (db : gmap string OutboxMessage) : Prop :=
  map_Forall (fun key m => id m = key) db.

(** A broker that accepts every message. *)
Definition healthyBroker : Broker :=
  {| channelOpen := true; publish := fun _ => Accepted |}.

End Dispatcher.

Module RegistryOps.
Import Agents Registry.

Definition clear (self : AgentRegistry) : AgentRegistry :=
  {| agents := ∅; eventSubscriptions := ∅ |}.

(** An agent that subscribes to everything, and to one type by name too. *)
Definition auditAgent : BaseAgent :=
  RegistrySpec.idle "audit" ["*"; "Inventory.StockUpdated"].

End RegistryOps.

Module RuntimeOps.
Import Agents.

(** A runner that stops at the first failure, one agent at a time. *)
Definition stopOnError : Runner.AgentRunnerConfig :=
  {| Runner.concurrency := 1; Runner.continueOnError := false; Runner.timeout := 30000 |}.

(** An upper-case ASCII letter or an underscore. *)
Definition upperOrUnderscore (c : ascii) : bool :=
  ((65 <=? nat_of_ascii c) && (nat_of_ascii c <=? 90))%nat || Ascii.eqb c "_".

(** A string of ASCII characters: every code is below 128. *)
Definition isAsciiChar (c : ascii) : bool := (nat_of_ascii c <? 128)%nat.

Fixpoint isAscii (s : string) : bool :=
  match s with
  | EmptyString => true
  | String c s' => isAsciiChar c && isAscii s'
  end.

End RuntimeOps.

Module ConsumerOps.
Import Agents Consumer.

(** The character-wise effect of [routingKeyOf]. *)
Definition routingChar (c : ascii) : ascii :=
  let l := lowerAscii c in if Ascii.eqb l "_" then "."%char else l.

(** The messages whose processing throws: content that is not JSON or is
    the JSON value [null], and envelopes for whose type an agent is
    registered. *)
Definition failsToProcess (registry : Registry.AgentRegistry) (msg : Message) : Prop :=
  match parsed msg with
  | Js.Ok (Some event) => Registry.getAgentsForEvent registry (event_type event) <> []
  | _ => True
  end.

(** A message that does not parse and arrives with a retry count of 3. *)
Definition exhaustedMessage : Message :=
  {| messageId := "m-2";
     parsed := Js.Throw (ErrorObject "Unexpected token");
     retryCountHeader := Some 3 |}.

End ConsumerOps.

Module SlottingOps.
Import Slotting.

(** [canStoreProduct] of the location entity (domain/entities/location.ts). *)
Record ProductNeeds : Type := {
  needsTemperature : option TemperatureZone;
  needsHazmat : option bool
}.

Definition canStoreProduct (location : Location) (product : ProductNeeds) : bool :=
  if match needsTemperature product with
     | Some t =>
         negb (eqTemperatureZone t (temperatureZone location))
         && negb (eqTemperatureZone t AMBIENT)
     | None => false
     end then false
  else if default false (needsHazmat product) && negb (isHazmatCertified location) then false
  else isActive location.

(** [Partial<SlottingWeights>] and the constructor of [SlottingScorer]. *)
Record PartialWeights : Type := {
  p_abcVelocity : option Double.number;
  p_proximity : option Double.number;
  p_capacity : option Double.number;
  p_temperature : option Double.number;
  p_fefo : option Double.number;
  p_hazard : option Double.number
}.

Definition noWeights : PartialWeights :=
  {| p_abcVelocity := None; p_proximity := None; p_capacity := None;
     p_temperature := None; p_fefo := None; p_hazard := None |}.

Definition new_SlottingScorer (weights : PartialWeights) : SlottingWeights :=
  {| abcVelocity := default (abcVelocity DEFAULT_SLOTTING_WEIGHTS) (p_abcVelocity weights);
     proximity := default (proximity DEFAULT_SLOTTING_WEIGHTS) (p_proximity weights);
     capacity := default (capacity DEFAULT_SLOTTING_WEIGHTS) (p_capacity weights);
     temperature := default (temperature DEFAULT_SLOTTING_WEIGHTS) (p_temperature weights);
     fefo := default (fefo DEFAULT_SLOTTING_WEIGHTS) (p_fefo weights);
     hazard := default (hazard DEFAULT_SLOTTING_WEIGHTS) (p_hazard weights) |}.

(** [Array.prototype.slice(0, n)] for an integer [n]: a negative [n] counts
    from the end. *)
Definition sliceFromStart {A : Type} (l : list A) (n : Z) : list A :=
  if n <? 0 then take (length l - Z.to_nat (- n)) l else take (Z.to_nat n) l.

(** [suggestSlotting(candidates, context, topN = 3, weights)] *)
Definition suggestSlotting (candidates : list SlottingCandidate) (context : SlottingContext)
    (topN : option Z) (weights : PartialWeights) : list ScoredLocation :=
  sliceFromStart (scoreLocations (new_SlottingScorer weights) candidates context)
    (default 3 topN).

(** What the context asks of a location, as [canStoreProduct] takes it. *)
Definition needsOf (context : SlottingContext) : ProductNeeds :=
  {| needsTemperature := temperatureRequired context;
     needsHazmat := Some (isHazmat context) |}.

Definition isExcludedLocation (context : SlottingContext) (location : Location) : bool :=
  match excludedLocations context with
  | Some ex => Js.includes ex (id location)
  | None => false
  end.

Definition inPreferredZone (context : SlottingContext) (location : Location) : bool :=
  match preferredZones context with
  | Some (z :: zs) => Js.includes (z :: zs) (zone location)
  | _ => true
  end.

End SlottingOps.

(* ===================================================================== *)
(** * Part II: properties *)
(* ===================================================================== *)

(** Replace a closed term by its value. *)
Ltac evaluate t :=
  let v := eval vm_compute in t in
  let H := fresh in
  assert (t = v) as H by (vm_compute; reflexivity); rewrite !H; clear H.

(** ** Facts about rounding *)

Section DoubleFacts.
Import Double.

Lemma nearestEven_multiple q d : 0 < d -> nearestEven (q * d) d = q.
Proof.
  intros Hd. unfold nearestEven.
  rewrite Z.div_mul by lia. rewrite Z.mod_mul by lia.
  change (2 * 0) with 0.
  destruct (Z.compare_spec 0 d); [lia|reflexivity|lia].
Qed.

Lemma nearestEven_lower n d : 0 < d -> n / d <= nearestEven n d.
Proof.
  intros Hd. unfold nearestEven.
  destruct (2 * (n mod d) ?= d); [destruct (Z.even (n / d))|..]; lia.
Qed.

(** A value with at most 53 significant bits is not changed by rounding. *)
Lemma round_on_grid c t :
  0 <= t -> Z.abs c < 2 ^ 53 -> round (c * 2 ^ t) 1 = c * 2 ^ t.
Proof.
  intros Ht Hc. unfold round.
  assert (0 < 2 ^ t) as Hpow by (apply Z.pow_pos_nonneg; lia).
  rewrite Z.div_1_r, Z.mul_1_l.
  destruct (Z.eq_dec c 0) as [->|Hc0]; [reflexivity|].
  rewrite Z.abs_mul, (Z.abs_eq (2 ^ t)) by lia.
  set (s := Z.max 0 (Z.log2 (Z.abs c * 2 ^ t) - 52)).
  assert (0 <= s <= t) as Hs.
  { unfold s. rewrite Z.log2_mul_pow2 by lia.
    assert (Z.log2 (Z.abs c) < 53) by (apply Z.log2_lt_pow2; lia). lia. }
  replace (Z.abs c * 2 ^ t) with ((Z.abs c * 2 ^ (t - s)) * 2 ^ s).
  2:{ rewrite <- Z.mul_assoc, <- Z.pow_add_r by lia. f_equal. f_equal. lia. }
  rewrite nearestEven_multiple by (apply Z.pow_pos_nonneg; lia).
  rewrite Z.sgn_mul, (Z.sgn_pos (2 ^ t)) by lia.
  rewrite <- (Z.mul_assoc (Z.abs c)), <- Z.pow_add_r by lia.
  replace (t - s + s) with t by lia.
  rewrite Z.mul_1_r, Z.mul_assoc, (Z.mul_comm (Z.sgn c)), Z.abs_sgn. reflexivity.
Qed.

(** Rounding keeps the sign: a difference is zero only if it is exactly
    zero. *)
Lemma round_sgn n : Z.sgn (round n 1) = Z.sgn n.
Proof.
  unfold round. rewrite Z.div_1_r, Z.mul_1_l.
  destruct (Z.eq_dec n 0) as [->|Hn]; [reflexivity|].
  set (s := Z.max 0 (Z.log2 (Z.abs n) - 52)).
  assert (0 <= s <= Z.log2 (Z.abs n)) as Hs.
  { unfold s. pose proof (Z.log2_nonneg (Z.abs n)). lia. }
  assert (0 < 2 ^ s) as Hpow by (apply Z.pow_pos_nonneg; lia).
  assert (1 <= Z.abs n / 2 ^ s) as Hq.
  { apply Z.div_le_lower_bound; [lia|].
    transitivity (2 ^ Z.log2 (Z.abs n)).
    - rewrite Z.mul_1_r. apply Z.pow_le_mono_r; lia.
    - apply Z.log2_spec. lia. }
  pose proof (nearestEven_lower (Z.abs n) (2 ^ s) Hpow).
  rewrite Z.sgn_mul, Z.sgn_sgn. rewrite (Z.sgn_pos (_ * _)) by nia. lia.
Qed.

Lemma sub_sign x y : leb (sub x y) zero = leb x y.
Proof.
  unfold leb, sub. cbn [units]. change (units zero) with 0.
  pose proof (round_sgn (units x - units y)) as H.
  destruct (Z.leb_spec (units x) (units y)), (Z.leb_spec (round (units x - units y) 1) 0);
    try reflexivity; exfalso.
  - rewrite (Z.sgn_pos (round _ _)) in H by lia. lia.
  - destruct (Z.eq_dec (round (units x - units y) 1) 0) as [E|E].
    + rewrite E in H. simpl in H. lia.
    + rewrite (Z.sgn_neg (round _ _)) in H by lia. lia.
Qed.

(** On the sample operands the four operations give what the machine's
    binary64 arithmetic gives. *)
Lemma double_is_binary64_on_samples :
  forallb (Machine.agree add PrimFloat.add) Machine.samples = true
  /\ forallb (Machine.agree sub PrimFloat.sub) Machine.samples = true
  /\ forallb (Machine.agree mul PrimFloat.mul) Machine.samples = true
  /\ forallb (Machine.agree div PrimFloat.div) Machine.samples = true.
Proof. split; [|split; [|split]]; vm_compute; reflexivity. Qed.

(** Safe integers are represented exactly, and so are their sums and
    differences as long as these are safe. *)
Lemma units_ofInt n : isSafeInteger n -> units (ofInt n) = n * unitsPerOne.
Proof. intros Hn. unfold ofInt, ofRatio. cbn [units]. by apply round_on_grid. Qed.

Lemma sub_ofInt a b :
  isSafeInteger a -> isSafeInteger b -> isSafeInteger (a - b) ->
  sub (ofInt a) (ofInt b) = ofInt (a - b).
Proof.
  intros Ha Hb Hab. unfold sub. f_equal.
  rewrite !units_ofInt by done. unfold ofInt, ofRatio.
  by rewrite <- Z.mul_sub_distr_r.
Qed.

Lemma leb_ofInt a b :
  isSafeInteger a -> isSafeInteger b -> leb (ofInt a) (ofInt b) = (a <=? b).
Proof.
  intros Ha Hb. unfold leb. rewrite !units_ofInt by done. unfold unitsPerOne.
  assert (0 < 2 ^ 1074) by (apply Z.pow_pos_nonneg; lia).
  destruct (Z.leb_spec a b), (Z.leb_spec (a * 2 ^ 1074) (b * 2 ^ 1074)); try done; nia.
Qed.

End DoubleFacts.

(** ** Facts about [Js.sort] *)

Section SortFacts.
Context {A : Type} (le : A -> A -> bool).

Lemma sort_insert_perm (x : A) (l : list A) : Js.sort_insert le x l ≡ₚ x :: l.
Proof.
  induction l as [|y l IH]; simpl; [done|].
  destruct (le x y); [done|].
  rewrite IH. apply perm_swap.
Qed.

Lemma sort_perm (l : list A) : Js.sort le l ≡ₚ l.
Proof.
  induction l as [|x l IH]; simpl; [done|].
  by rewrite sort_insert_perm, IH.
Qed.

(** Elements on which the comparator never says "greater" keep their input
    order: the sort is stable. *)
Lemma sort_insert_stable (P : A -> bool) (x : A) (l : list A) :
  (forall a b, P a = true -> P b = true -> le a b = true) ->
  filter (fun a => P a = true) (Js.sort_insert le x l)
  = if P x then x :: filter (fun a => P a = true) l
    else filter (fun a => P a = true) l.
Proof.
  intros HP. induction l as [|y l IH]; simpl.
  - rewrite filter_cons, filter_nil. destruct (P x) eqn:Hx.
    + rewrite decide_True; done.
    + rewrite decide_False; [done|congruence].
  - destruct (le x y) eqn:Hxy.
    + rewrite filter_cons. destruct (P x) eqn:Hx.
      * rewrite decide_True; done.
      * rewrite decide_False; [done|congruence].
    + rewrite !filter_cons, IH.
      destruct (P x) eqn:Hx; [|done].
      destruct (P y) eqn:Hy.
      * specialize (HP x y Hx Hy). congruence.
      * rewrite decide_False; [done|congruence].
Qed.

Lemma sort_stable (P : A -> bool) (l : list A) :
  (forall a b, P a = true -> P b = true -> le a b = true) ->
  filter (fun a => P a = true) (Js.sort le l) = filter (fun a => P a = true) l.
Proof.
  intros HP. induction l as [|x l IH]; simpl; [done|].
  rewrite sort_insert_stable by done.
  rewrite filter_cons, IH.
  destruct (P x) eqn:Hx.
  - rewrite decide_True; done.
  - rewrite decide_False; [done|congruence].
Qed.

(** With a consistent comparator (total and transitive) the result is in
    non-decreasing comparator order. *)
Hypothesis le_total : forall a b, le a b = false -> le b a = true.
Hypothesis le_trans : forall a b c, le a b = true -> le b c = true -> le a c = true.

Lemma sort_insert_sorted (x : A) (l : list A) :
  StronglySorted (fun a b => le a b = true) l ->
  StronglySorted (fun a b => le a b = true) (Js.sort_insert le x l).
Proof.
  induction 1 as [|y l Hs IH Hall]; simpl.
  - repeat constructor.
  - destruct (le x y) eqn:Hxy.
    + constructor; [by constructor|].
      constructor; [done|].
      eapply Forall_impl; [exact Hall|]. intros z Hz. by eapply le_trans.
    + constructor; [done|].
      rewrite sort_insert_perm. constructor; [by apply le_total | done].
Qed.

Lemma sort_sorted (l : list A) :
  StronglySorted (fun a b => le a b = true) (Js.sort le l).
Proof.
  induction l as [|x l IH]; simpl; [constructor|].
  by apply sort_insert_sorted.
Qed.

End SortFacts.

(** In a strongly sorted list every element relates to each later one. *)
Lemma StronglySorted_app_cons {A : Type} (R : A -> A -> Prop) (l1 l2 : list A) (x y : A) :
  StronglySorted R (l1 ++ x :: l2) -> y ∈ l2 -> R x y.
Proof.
  induction l1 as [|z l1 IH]; simpl; intros Hs Hy.
  - apply StronglySorted_inv in Hs as [_ Hall].
    rewrite Forall_forall in Hall. by apply Hall.
  - apply StronglySorted_inv in Hs as [Hs _]. by apply IH.
Qed.

Lemma StronglySorted_weaken {A : Type} (R1 R2 : A -> A -> Prop) (l : list A) :
  (forall a b, R1 a b -> R2 a b) -> StronglySorted R1 l -> StronglySorted R2 l.
Proof.
  intros Himp. induction 1 as [|x l Hs IH Hall]; constructor; [done|].
  eapply Forall_impl; [exact Hall|]. intros y. apply Himp.
Qed.

(** ** FEFO allocator: ordering *)

Section FefoOrder.
Import Lot Fefo FefoSpec.
Variable request : AllocationRequest.

Ltac comparator_cases :=
  unfold leSources, compareSources, compareLotsByFEFO;
  repeat match goal with
         | |- context [isPreferred request ?l] => destruct (isPreferred request l)
         | |- context [lotBatch ?s] => destruct (lotBatch s)
         | |- context [expirationDate ?l] => destruct (expirationDate l)
         end;
  simpl; rewrite ?Z.leb_le, ?Z.leb_gt; try lia; try done.

Lemma leSources_total a b :
  leSources request a b = false -> leSources request b a = true.
Proof. comparator_cases. Qed.

Lemma leSources_trans a b c :
  leSources request a b = true -> leSources request b c = true ->
  leSources request a c = true.
Proof. comparator_cases. Qed.

Lemma leSources_spec a b :
  leSources request a b = true <-> consideredBefore request a b.
Proof.
  unfold consideredBefore. comparator_cases; intuition (try done; try lia).
Qed.

Lemma filterAndSortSources_perm sources :
  filterAndSortSources sources request
  ≡ₚ filter (fun s => matchesRequest request s = true) sources.
Proof.
  unfold filterAndSortSources. rewrite sort_perm.
  destruct (preferredLocations request) as [[|p ps]|]; try done.
  apply sort_perm.
Qed.

Lemma filterAndSortSources_sorted sources :
  StronglySorted (consideredBefore request) (filterAndSortSources sources request).
Proof.
  unfold filterAndSortSources.
  eapply StronglySorted_weaken; [|apply (sort_sorted (leSources request))].
  - intros a b Hab. by apply leSources_spec.
  - apply leSources_total.
  - apply leSources_trans.
Qed.

End FefoOrder.

(** ** FEFO allocator: the allocation loop *)

Section FefoLoop.
Import Lot Fefo FefoSpec.
Variable self : FefoAllocator.
Variable request : AllocationRequest.

(** The accumulators only ever grow at the end, so a run can be read from
    empty accumulators. *)
Lemma allocateLoop_acc vs r al sk :
  allocateLoop self request vs r al sk
  = (fst (fst (allocateLoop self request vs r [] [])),
     al ++ snd (fst (allocateLoop self request vs r [] [])),
     sk ++ snd (allocateLoop self request vs r [] [])).
Proof.
  revert r al sk. induction vs as [|s vs IH]; intros r al sk; simpl.
  - by rewrite !app_nil_r.
  - destruct (r <=? 0); [by rewrite !app_nil_r|].
    destruct (skipCheck self request s) as [k|].
    + rewrite (IH r al (sk ++ [skip k s])), (IH r [] [skip k s]). simpl.
      by rewrite <- app_assoc.
    + rewrite (IH _ (al ++ _) sk), (IH _ [_] []). simpl.
      by rewrite <- app_assoc.
Qed.

Lemma allocateLoop_stop vs r al sk :
  r <= 0 -> allocateLoop self request vs r al sk = (r, al, sk).
Proof.
  intros Hr. destruct vs as [|s vs]; simpl; [done|].
  by rewrite (proj2 (Z.leb_le r 0) Hr).
Qed.

(** The remaining demand is the initial demand minus what the lines took,
    and a non-negative demand never becomes negative. *)
Lemma allocateLoop_remaining vs r :
  let out := allocateLoop self request vs r [] [] in
  fst (fst out) = r - sumQuantities (snd (fst out))
  /\ (0 <= r -> 0 <= fst (fst out)).
Proof.
  revert r. induction vs as [|s vs IH]; intros r; simpl.
  - unfold sumQuantities. simpl. lia.
  - destruct (r <=? 0) eqn:Hr; simpl.
    { unfold sumQuantities. simpl. lia. }
    apply Z.leb_gt in Hr.
    destruct (skipCheck self request s) as [k|] eqn:Hk.
    + rewrite allocateLoop_acc. simpl. apply IH.
    + rewrite allocateLoop_acc. simpl.
      destruct (IH (r - Z.min r (quantityAvailable (stockLevel s)))) as [IH1 IH2].
      rewrite IH1. unfold sumQuantities in *. simpl. split; [lia|].
      intros _. rewrite <- IH1. apply IH2. lia.
Qed.

(** Where a line comes from: a source that no check skips; and every source
    considered before it that no check skips has been drawn in full. *)
Lemma allocateLoop_line vs r line :
  line ∈ snd (fst (allocateLoop self request vs r [] [])) ->
  exists vs1 s vs2 q,
    vs = vs1 ++ s :: vs2
    /\ skipCheck self request s = None
    /\ line = lineOf self s q
    /\ forall s1, s1 ∈ vs1 -> skipCheck self request s1 = None ->
         lineOf self s1 (quantityAvailable (stockLevel s1))
           ∈ snd (fst (allocateLoop self request vs r [] [])).
Proof.
  revert r. induction vs as [|s vs IH]; intros r; simpl.
  - by intros ?%elem_of_nil.
  - destruct (r <=? 0) eqn:Hr; simpl; [by intros ?%elem_of_nil|].
    apply Z.leb_gt in Hr.
    destruct (skipCheck self request s) as [k|] eqn:Hk.
    + rewrite allocateLoop_acc. simpl. intros Hin.
      destruct (IH r Hin) as (vs1 & s' & vs2 & q & -> & Hs' & -> & Hbefore).
      exists (s :: vs1), s', vs2, q. repeat split; try done.
      intros s1 [->|Hs1]%elem_of_cons Hs1k; [congruence|]. by apply Hbefore.
    + rewrite allocateLoop_acc. simpl. intros [->|Hin]%elem_of_cons.
      * exists [], s, vs, (Z.min r (quantityAvailable (stockLevel s))).
        repeat split; try done. by intros s1 ?%elem_of_nil.
      * destruct (IH _ Hin) as (vs1 & s' & vs2 & q & -> & Hs' & -> & Hbefore).
        exists (s :: vs1), s', vs2, q. repeat split; try done.
        intros s1 [->|Hs1]%elem_of_cons Hs1k.
        -- (* demand was left after [s], so [s] gave all it had *)
           assert (0 < r - Z.min r (quantityAvailable (stockLevel s))) as Hleft.
           { destruct (Z.le_gt_cases (r - Z.min r (quantityAvailable (stockLevel s))) 0)
               as [Hle|]; [|done].
             rewrite (allocateLoop_stop _ _ _ _ Hle) in Hin. simpl in Hin.
             by apply elem_of_nil in Hin. }
           replace (quantityAvailable (stockLevel s))
             with (Z.min r (quantityAvailable (stockLevel s))) at 1 by lia.
           apply elem_of_cons. by left.
        -- apply elem_of_cons. right. by apply Hbefore.
Qed.

End FefoLoop.

(** ** FEFO allocator: the claims *)

Section FefoClaims.
Import Lot Fefo FefoSpec FefoExamples.

Lemma allocate_allocations self request sources :
  allocations (allocate self request sources)
  = snd (fst (allocateLoop self request (filterAndSortSources sources request)
                (requestedQuantity request) [] [])).
Proof.
  unfold allocate.
  by destruct (allocateLoop _ _ _ _ _ _) as [[r al] sk].
Qed.

Lemma expiryOf_Some s e :
  expiryOf s = Some e ->
  exists lot, lotBatch s = Some lot /\ expirationDate lot = Some e.
Proof.
  unfold expiryOf. destruct (lotBatch s) as [lot|]; simpl; [|done].
  intros He. by exists lot.
Qed.

(** What "no check skips the source" means, check by check. *)
Lemma skipCheck_None self request s :
  skipCheck self request s = None <->
  0 < quantityAvailable (stockLevel s)
  /\ forall lot, lotBatch s = Some lot ->
       isLotAvailable lot (referenceDate self) = true
       /\ (forall e, expirationDate lot = Some e ->
             minDaysToExpiration self <= calculateDaysToExpiration self e)
       /\ isExcluded request lot = false.
Proof.
  unfold skipCheck.
  destruct (quantityAvailable (stockLevel s) <=? 0) eqn:Hq;
    [apply Z.leb_le in Hq | apply Z.leb_gt in Hq].
  { split; [done | lia]. }
  destruct (lotBatch s) as [lot|]; [|by split; [split|]].
  destruct (isLotAvailable lot (referenceDate self)) eqn:Hav; simpl.
  2:{ split; [done|]. intros [_ H]. destruct (H lot eq_refl) as [? _]. congruence. }
  destruct (expirationDate lot) as [e|] eqn:He.
  - destruct (calculateDaysToExpiration self e <? minDaysToExpiration self) eqn:Hd;
      [apply Z.ltb_lt in Hd | apply Z.ltb_ge in Hd].
    { split; [done|]. intros [_ H]. destruct (H lot eq_refl) as (_ & Hmin & _).
      specialize (Hmin e He). lia. }
    destruct (isExcluded request lot) eqn:Hex.
    { split; [done|]. intros [_ H]. destruct (H lot eq_refl) as (_ & _ & ?). congruence. }
    split; [|done]. intros _. split; [done|]. intros ? [= <-].
    split; [done|]. split; [|done]. intros e0 He0.
    rewrite He in He0. by injection He0 as <-.
  - destruct (isExcluded request lot) eqn:Hex.
    { split; [done|]. intros [_ H]. destruct (H lot eq_refl) as (_ & _ & ?). congruence. }
    split; [|done]. intros _. split; [done|]. intros ? [= <-].
    split; [done|]. split; [|done]. intros ? ?. congruence.
Qed.

Lemma monotoneWithinGroup_holds self request sources :
  monotoneWithinGroup self request sources.
Proof.
  intros line s1 e1 e2 Hline He2 Hs1 [Hmatch Hskip] He1 Hlt Hgroup.
  rewrite allocate_allocations in *.
  destruct (allocateLoop_line _ _ _ _ _ Hline)
    as (vs1 & s & vs2 & q & Hvs & Hs & -> & Hbefore).
  simpl in He2, Hgroup. fold (expiryOf s) in He2.
  assert (s1 ∈ filterAndSortSources sources request) as Hin.
  { rewrite filterAndSortSources_perm. by apply list_elem_of_filter. }
  rewrite Hvs in Hin.
  apply elem_of_app in Hin as [Hin|[->|Hin]%elem_of_cons].
  - by apply Hbefore.
  - rewrite He1 in He2. injection He2 as ->. lia.
  - exfalso.
    pose proof (filterAndSortSources_sorted request sources) as Hsorted.
    rewrite Hvs in Hsorted.
    pose proof (StronglySorted_app_cons _ _ _ _ _ Hsorted Hin) as Hord.
    apply expiryOf_Some in He1 as (l1 & Hl1 & Hx1).
    apply expiryOf_Some in He2 as (l2 & Hl2 & Hx2).
    unfold consideredBefore in Hord. rewrite Hl1, Hl2, Hx1, Hx2, Hgroup in Hord.
    destruct Hord as [[Ht Hf]|[_ Hle]]; [congruence | lia].
Qed.

(** C1 (amended).  The allocator runs its loop over the matching sources
    rearranged in the order of consideration: preferred locations first, then
    within each group lots with an expiration date by earlier date, lots
    without one by received date, sources without a lot last.  Consequently,
    within one priority group, whenever a line draws from a lot, every source
    of that group that passes the filters and whose lot expires earlier has
    a line taking all of its available quantity.  Across groups this does not
    hold: a preferred location is drawn first whatever its lot's date. *)
Theorem C1_fefo_order_and_group_monotonicity
    (self : FefoAllocator) (request : AllocationRequest) (sources : list InventorySource) :
  filterAndSortSources sources request
    ≡ₚ filter (fun s => matchesRequest request s = true) sources
  /\ StronglySorted (consideredBefore request) (filterAndSortSources sources request)
  /\ allocations (allocate self request sources)
     = snd (fst (allocateLoop self request (filterAndSortSources sources request)
                   (requestedQuantity request) [] []))
  /\ monotoneWithinGroup self request sources.
Proof.
  split; [apply filterAndSortSources_perm|].
  split; [apply filterAndSortSources_sorted|].
  split; [apply allocate_allocations|].
  apply monotoneWithinGroup_holds.
Qed.

(** Scenario S2: seven units are asked for; the two units taken from the
    later lot L1 come with all five units of the earlier lot L2. *)
Lemma C1_witness_scenario_S2 :
  lineOf allocator0 srcL2 5
    ∈ allocations (allocate allocator0 (requestFor 7 None None) [srcL1; srcL2]).
Proof.
  apply (proj2 (proj2 (proj2
           (C1_fefo_order_and_group_monotonicity allocator0 (requestFor 7 None None)
              [srcL1; srcL2])))
         (lineOf allocator0 srcL1 2) srcL2 (100 * msPerDay) (200 * msPerDay)).
  - vm_compute. apply list_elem_of_further, list_elem_of_here.
  - reflexivity.
  - apply list_elem_of_further, list_elem_of_here.
  - split; reflexivity.
  - reflexivity.
  - reflexivity.
  - reflexivity.
Defined.

(** With location A-01 preferred, three units are drawn from lot L1 there
    although lot L2, which expires earlier and passes every filter, still has
    all of its stock: monotonicity as stated fails across priority groups. *)
Lemma C1_counterexample_preferred_location :
  allocations (allocate allocator0 (requestFor 3 (Some ["A-01"]) None) [srcL1; srcL2])
    = [lineOf allocator0 srcL1 3]
  /\ passesFilters allocator0 (requestFor 3 (Some ["A-01"]) None) srcL2
  /\ expiryOf srcL2 = Some (100 * msPerDay)
  /\ expiryOf srcL1 = Some (200 * msPerDay)
  /\ ~ monotone allocator0 (requestFor 3 (Some ["A-01"]) None) [srcL1; srcL2].
Proof.
  assert (allocations (allocate allocator0 (requestFor 3 (Some ["A-01"]) None) [srcL1; srcL2])
          = [lineOf allocator0 srcL1 3]) as Hrun by reflexivity.
  split; [exact Hrun|]. split; [by split|]. split; [done|]. split; [done|].
  intros Hmono.
  specialize (Hmono (lineOf allocator0 srcL1 3) srcL2 (100 * msPerDay) (200 * msPerDay)).
  rewrite Hrun in Hmono.
  assert (lineOf allocator0 srcL2 5 ∈ [lineOf allocator0 srcL1 3]) as Hbad.
  { apply Hmono; try done.
    - apply list_elem_of_here.
    - apply list_elem_of_further, list_elem_of_here. }
  apply list_elem_of_singleton in Hbad. discriminate Hbad.
Qed.

(** The shape of the result on integer quantities: the lines sum to the
    allocated quantity; allocated plus shortfall is the requested quantity;
    [fullyAllocated] holds exactly when the shortfall is zero.  For a
    request whose quantity is not negative, the lines sum to at most the
    requested quantity and the shortfall is not negative. *)
Lemma allocate_shape
    (self : FefoAllocator) (request : AllocationRequest) (sources : list InventorySource) :
  let res := allocate self request sources in
  sumQuantities (allocations res) = allocatedQuantity res
  /\ allocatedQuantity res + shortfallQuantity res = requestedQuantity request
  /\ res_requestedQuantity res = requestedQuantity request
  /\ (fullyAllocated res = true <-> shortfallQuantity res = 0)
  /\ (fullyAllocated res = false -> shortfallQuantity res <> 0)
  /\ (0 <= requestedQuantity request ->
      sumQuantities (allocations res) <= requestedQuantity request
      /\ 0 <= shortfallQuantity res).
Proof.
  pose proof (allocateLoop_remaining self request
                (filterAndSortSources sources request) (requestedQuantity request))
    as [Hrem Hpos].
  unfold allocate. simpl in *.
  destruct (allocateLoop _ _ _ _ _ _) as [[r al] sk]. simpl in *.
  repeat split; lia.
Qed.

(** A request for a negative quantity gets no line, so its lines sum to
    zero, which exceeds the requested quantity. *)
Lemma negative_request_gets_no_line :
  allocations (allocate allocator0 (requestFor (-1) None None) [srcL1; srcL2]) = []
  /\ sumQuantities
       (allocations (allocate allocator0 (requestFor (-1) None None) [srcL1; srcL2])) = 0
  /\ requestedQuantity (requestFor (-1) None None) = -1
  /\ ~ (sumQuantities
          (allocations (allocate allocator0 (requestFor (-1) None None) [srcL1; srcL2]))
        <= requestedQuantity (requestFor (-1) None None)).
Proof.
  repeat split. vm_compute. intros H. by apply H.
Qed.

Lemma filterAndSortSources_withMinDays m request sources :
  filterAndSortSources sources (withMinDays m request)
  = filterAndSortSources sources request.
Proof. unfold filterAndSortSources. reflexivity. Qed.

Lemma allocateLoop_withMinDays self m request vs r al sk :
  allocateLoop self (withMinDays m request) vs r al sk
  = allocateLoop self request vs r al sk.
Proof.
  revert r al sk. induction vs as [|s vs IH]; intros r al sk; simpl; [done|].
  change (skipCheck self (withMinDays m request) s) with (skipCheck self request s).
  destruct (r <=? 0); [done|].
  destruct (skipCheck self request s); apply IH.
Qed.

(** C9 (what the code does).  The allocator compares days-to-expiration with
    the bound given to its constructor and never reads the request's
    [minDaysToExpiration]: the result is the same whatever that field holds.
    A request asking for at least seven days, served by an allocator built
    without options as the reservation agent builds it, is allocated from a
    lot three days from expiry, and nothing is skipped. *)
Theorem C9_request_min_days_not_read :
  (forall self request sources m,
     allocate self (withMinDays m request) sources = allocate self request sources)
  /\ allocations
       (allocateWithFefo 0 (requestFor 5 None (Some 7)) [srcSoon]
          {| opt_minDaysToExpiration := None; opt_referenceDate := None |})
     = [ {| al_stockLevelId := "SL-3"; al_locationId := "A-03";
            al_lotBatchId := Some "L3"; al_lotNumber := Some "L3";
            al_expirationDate := Some (3 * msPerDay); quantity := 5;
            daysToExpiration := Some 3 |} ]
  /\ skippedSources
       (allocateWithFefo 0 (requestFor 5 None (Some 7)) [srcSoon]
          {| opt_minDaysToExpiration := None; opt_referenceDate := None |})
     = [].
Proof.
  split; [|split; reflexivity].
  intros self request sources m. unfold allocate.
  by rewrite filterAndSortSources_withMinDays, allocateLoop_withMinDays.
Qed.

End FefoClaims.

(** ** Further facts about the allocation loop *)

Section FefoMoreFacts.
Import Lot Fefo FefoSpec FefoMore FefoExamples.
Variable self : FefoAllocator.
Variable request : AllocationRequest.

Lemma supplyOf_nonneg vs : 0 <= supplyOf self request vs.
Proof.
  induction vs as [|s vs IH]; simpl; [done|].
  destruct (skipCheck self request s) eqn:Hs; [done|].
  apply skipCheck_None in Hs as [Hpos _]. lia.
Qed.

Lemma supplyOf_perm vs vs' :
  vs ≡ₚ vs' -> supplyOf self request vs = supplyOf self request vs'.
Proof.
  induction 1 as [|s vs vs' _ IH|s1 s2 vs|vs1 vs2 vs3 _ IH1 _ IH2]; simpl.
  - done.
  - by rewrite IH.
  - destruct (skipCheck self request s1), (skipCheck self request s2); lia.
  - by rewrite IH1.
Qed.

Lemma allocateLoop_remaining_exact vs r :
  0 <= r ->
  fst (fst (allocateLoop self request vs r [] [])) = Z.max 0 (r - supplyOf self request vs).
Proof.
  revert r. induction vs as [|s vs IH]; intros r Hr; simpl; [lia|].
  pose proof (supplyOf_nonneg vs) as Hsup.
  destruct (r <=? 0) eqn:Hr0; [apply Z.leb_le in Hr0 | apply Z.leb_gt in Hr0].
  { simpl. destruct (skipCheck self request s) eqn:Hs; [lia|].
    apply skipCheck_None in Hs as [Hpos _]. lia. }
  destruct (skipCheck self request s) eqn:Hs.
  - rewrite allocateLoop_acc. simpl. by apply IH.
  - rewrite allocateLoop_acc. simpl. rewrite IH by lia.
    apply skipCheck_None in Hs as [Hpos _]. lia.
Qed.

Lemma allocateLoop_partial vs r :
  0 < fst (fst (allocateLoop self request vs r [] [])) ->
  snd (fst (allocateLoop self request vs r [] [])) = fullLines self request vs
  /\ snd (allocateLoop self request vs r [] []) = skipsOf self request vs.
Proof.
  revert r. induction vs as [|s vs IH]; intros r; simpl; [done|].
  destruct (r <=? 0) eqn:Hr0; [apply Z.leb_le in Hr0 | apply Z.leb_gt in Hr0].
  { simpl. lia. }
  destruct (skipCheck self request s) eqn:Hs.
  - rewrite allocateLoop_acc. simpl. intros Hleft.
    destruct (IH r Hleft) as [-> ->]. done.
  - rewrite allocateLoop_acc. simpl. intros Hleft.
    destruct (IH _ Hleft) as [-> ->]. split; [|done].
    f_equal. f_equal.
    destruct (Z.le_gt_cases (r - Z.min r (quantityAvailable (stockLevel s))) 0) as [Hle|?];
      [|lia].
    rewrite (allocateLoop_stop _ _ _ _ _ _ Hle) in Hleft. simpl in Hleft. lia.
Qed.

Lemma allocateLoop_line_bounds vs r line :
  line ∈ snd (fst (allocateLoop self request vs r [] [])) ->
  exists s q, s ∈ vs /\ skipCheck self request s = None
              /\ line = lineOf self s q
              /\ 0 < q <= quantityAvailable (stockLevel s).
Proof.
  revert r. induction vs as [|s vs IH]; intros r; simpl.
  - by intros ?%elem_of_nil.
  - destruct (r <=? 0) eqn:Hr0; simpl; [by intros ?%elem_of_nil|].
    apply Z.leb_gt in Hr0.
    destruct (skipCheck self request s) eqn:Hs; rewrite allocateLoop_acc; simpl.
    + intros (s' & q & ? & ?)%IH. exists s', q. split; [by apply list_elem_of_further|done].
    + intros [->|(s' & q & ? & ?)%IH]%elem_of_cons.
      * exists s, (Z.min r (quantityAvailable (stockLevel s))).
        split; [apply list_elem_of_here|]. split; [done|]. split; [done|].
        apply skipCheck_None in Hs as [Hpos _]. lia.
      * exists s', q. split; [by apply list_elem_of_further|done].
Qed.

Lemma allocateLoop_skipped vs r sk :
  sk ∈ snd (allocateLoop self request vs r [] []) ->
  exists s reason, s ∈ vs /\ skipCheck self request s = Some reason /\ sk = skip reason s.
Proof.
  revert r. induction vs as [|s vs IH]; intros r; simpl.
  - by intros ?%elem_of_nil.
  - destruct (r <=? 0); simpl; [by intros ?%elem_of_nil|].
    destruct (skipCheck self request s) as [k|] eqn:Hs; rewrite allocateLoop_acc; simpl.
    + intros [->|(s' & k' & ? & ?)%IH]%elem_of_cons.
      * exists s, k. split; [apply list_elem_of_here|done].
      * exists s', k'. split; [by apply list_elem_of_further|done].
    + intros (s' & k' & ? & ?)%IH. exists s', k'.
      split; [by apply list_elem_of_further|done].
Qed.

Lemma fullLines_skipsOf_length vs :
  (length (fullLines self request vs) + length (skipsOf self request vs))%nat = length vs.
Proof.
  induction vs as [|s vs IH]; simpl; [done|].
  unfold fullLines, skipsOf in *. simpl.
  destruct (skipCheck self request s); simpl; lia.
Qed.

Lemma allocate_skippedSources sources :
  skippedSources (allocate self request sources)
  = snd (allocateLoop self request (filterAndSortSources sources request)
           (requestedQuantity request) [] []).
Proof.
  unfold allocate.
  by destruct (allocateLoop _ _ _ _ _ _) as [[r al] sk].
Qed.

Lemma allocate_shortfallQuantity sources :
  shortfallQuantity (allocate self request sources)
  = fst (fst (allocateLoop self request (filterAndSortSources sources request)
                (requestedQuantity request) [] [])).
Proof.
  unfold allocate.
  by destruct (allocateLoop _ _ _ _ _ _) as [[r al] sk].
Qed.

End FefoMoreFacts.

(** ** The allocator on doubles *)

Section FefoDoubleFacts.
Import Lot.

Lemma isSafeInteger_between a b c :
  Double.isSafeInteger a -> Double.isSafeInteger c -> a <= b <= c ->
  Double.isSafeInteger b.
Proof. unfold Double.isSafeInteger. lia. Qed.

Lemma ltb_ofInt a b :
  Double.isSafeInteger a -> Double.isSafeInteger b ->
  Double.ltb (Double.ofInt a) (Double.ofInt b) = (a <? b).
Proof.
  intros Ha Hb. unfold Double.ltb. rewrite !units_ofInt by done.
  unfold Double.unitsPerOne.
  assert (0 < 2 ^ 1074) by (apply Z.pow_pos_nonneg; lia).
  destruct (Z.ltb_spec a b), (Z.ltb_spec (a * 2 ^ 1074) (b * 2 ^ 1074)); try done; nia.
Qed.

Lemma eqb_ofInt a b :
  Double.isSafeInteger a -> Double.isSafeInteger b ->
  Double.eqb (Double.ofInt a) (Double.ofInt b) = (a =? b).
Proof.
  intros Ha Hb. unfold Double.eqb. rewrite !units_ofInt by done.
  unfold Double.unitsPerOne.
  assert (0 < 2 ^ 1074) by (apply Z.pow_pos_nonneg; lia).
  destruct (Z.eqb_spec a b), (Z.eqb_spec (a * 2 ^ 1074) (b * 2 ^ 1074)); try done; nia.
Qed.

Lemma min_ofInt a b :
  Double.isSafeInteger a -> Double.isSafeInteger b ->
  Double.min (Double.ofInt a) (Double.ofInt b) = Double.ofInt (Z.min a b).
Proof.
  intros Ha Hb. unfold Double.min. rewrite ltb_ofInt by done.
  destruct (Z.ltb_spec b a); f_equal; lia.
Qed.

Lemma isSafeInteger_0 : Double.isSafeInteger 0.
Proof. by vm_compute. Qed.

Lemma sort_insert_map {A B : Type} (f : A -> B) (le : A -> A -> bool)
    (le' : B -> B -> bool) (x : A) (l : list A) :
  (forall a b, le' (f a) (f b) = le a b) ->
  Js.sort_insert le' (f x) (map f l) = map f (Js.sort_insert le x l).
Proof.
  intros Hle. induction l as [|y l IH]; simpl; [done|].
  rewrite Hle. destruct (le x y); simpl; [done|]. by rewrite IH.
Qed.

Lemma sort_map {A B : Type} (f : A -> B) (le : A -> A -> bool)
    (le' : B -> B -> bool) (l : list A) :
  (forall a b, le' (f a) (f b) = le a b) ->
  Js.sort le' (map f l) = map f (Js.sort le l).
Proof.
  intros Hle. induction l as [|x l IH]; simpl; [done|].
  by rewrite IH, (sort_insert_map f le le').
Qed.

Lemma filter_map_bool {A B : Type} (f : A -> B) (p : A -> bool) (p' : B -> bool)
    (l : list A) :
  (forall a, p' (f a) = p a) ->
  filter (fun b => p' b = true) (map f l) = map f (filter (fun a => p a = true) l).
Proof.
  intros Hp. induction l as [|x l IH]; simpl; [done|].
  rewrite !filter_cons, Hp, IH. by destruct (decide (p x = true)).
Qed.

Lemma filterAndSortSources_on_integers request sources :
  FefoDouble.filterAndSortSources (map FefoDouble.ofSource sources)
    (FefoDouble.ofRequest request)
  = map FefoDouble.ofSource (Fefo.filterAndSortSources sources request).
Proof.
  unfold FefoDouble.filterAndSortSources, Fefo.filterAndSortSources.
  rewrite (filter_map_bool FefoDouble.ofSource (Fefo.matchesRequest request)) by done.
  cbn [FefoDouble.preferredLocations FefoDouble.ofRequest].
  destruct (Fefo.preferredLocations request) as [[|p ps]|];
    rewrite ?(sort_map FefoDouble.ofSource
                (fun a b => Fefo.comparePreferred request a b <=? 0)) by done;
    by rewrite (sort_map FefoDouble.ofSource
                  (fun a b => Fefo.compareSources request a b <=? 0)) by done.
Qed.

Lemma skipCheck_on_integers self request s :
  Double.isSafeInteger (Fefo.quantityAvailable (Fefo.stockLevel s)) ->
  FefoDouble.skipCheck self (FefoDouble.ofRequest request) (FefoDouble.ofSource s)
  = Fefo.skipCheck self request s.
Proof.
  intros Hs. unfold FefoDouble.skipCheck, Fefo.skipCheck.
  cbn [FefoDouble.quantityAvailable FefoDouble.stockLevel FefoDouble.ofSource].
  unfold Double.zero. by rewrite leb_ofInt by (done || apply isSafeInteger_0).
Qed.

(** On safe integers the loop on doubles takes the steps of the loop on
    integers. *)
Lemma allocateLoop_on_integers self request vs r al sk :
  Double.isSafeInteger r ->
  Forall (fun s => Double.isSafeInteger (Fefo.quantityAvailable (Fefo.stockLevel s))) vs ->
  FefoDouble.allocateLoop self (FefoDouble.ofRequest request) (map FefoDouble.ofSource vs)
    (Double.ofInt r) (map FefoDouble.ofLine al) sk
  = let '(r', al', sk') := Fefo.allocateLoop self request vs r al sk in
    (Double.ofInt r', map FefoDouble.ofLine al', sk').
Proof.
  intros Hr Hvs. revert r al sk Hr.
  induction Hvs as [|s vs Hs Hvs IH]; intros r al sk Hr; [done|].
  cbn [map FefoDouble.allocateLoop Fefo.allocateLoop].
  unfold Double.zero at 1. rewrite leb_ofInt by (done || apply isSafeInteger_0).
  destruct (Z.leb_spec r 0) as [Hle|Hpos]; [done|].
  rewrite skipCheck_on_integers by done.
  destruct (Fefo.skipCheck self request s) as [reason|] eqn:Hskip.
  - by rewrite IH.
  - apply skipCheck_None in Hskip as [Havail _].
    cbn [FefoDouble.quantityAvailable FefoDouble.stockLevel FefoDouble.ofSource].
    rewrite min_ofInt by done.
    set (q := Z.min r (Fefo.quantityAvailable (Fefo.stockLevel s))).
    assert (Double.isSafeInteger q) as Hq
      by (apply (isSafeInteger_between 0 q r); [apply isSafeInteger_0|done|lia]).
    assert (Double.isSafeInteger (r - q)) as Hrq
      by (apply (isSafeInteger_between 0 (r - q) r); [apply isSafeInteger_0|done|lia]).
    rewrite sub_ofInt by done.
    change (map FefoDouble.ofLine al
            ++ [FefoDouble.lineOf self (FefoDouble.ofSource s) (Double.ofInt q)])
      with (map FefoDouble.ofLine al ++ map FefoDouble.ofLine [Fefo.lineOf self s q]).
    rewrite <- map_app. by rewrite IH.
Qed.

(** [allocate] on doubles holding safe integers is [allocate] on these
    integers. *)
Lemma allocate_on_integers self request sources :
  FefoDouble.integerInputs request sources ->
  FefoDouble.allocate self (FefoDouble.ofRequest request) (map FefoDouble.ofSource sources)
  = FefoDouble.ofResult (Fefo.allocate self request sources).
Proof.
  intros [Hreq Hsources].
  unfold FefoDouble.allocate, Fefo.allocate.
  rewrite filterAndSortSources_on_integers.
  cbn [FefoDouble.requestedQuantity FefoDouble.ofRequest].
  assert (Forall (fun s => Double.isSafeInteger (Fefo.quantityAvailable (Fefo.stockLevel s)))
            (Fefo.filterAndSortSources sources request)) as Hvalid.
  { rewrite Forall_forall in Hsources. apply Forall_forall. intros s Hs.
    rewrite (filterAndSortSources_perm request sources) in Hs.
    apply list_elem_of_filter in Hs as [_ Hs]. by apply Hsources. }
  pose proof (allocateLoop_on_integers self request _ _ [] [] Hreq Hvalid) as Hloop.
  cbn [map] in Hloop. rewrite Hloop.
  set (vs := Fefo.filterAndSortSources sources request).
  assert (0 <= Fefo.requestedQuantity request ->
          fst (fst (Fefo.allocateLoop self request vs (Fefo.requestedQuantity request) [] []))
          = Z.max 0 (Fefo.requestedQuantity request - FefoMore.supplyOf self request vs))
    as Hexact by apply allocateLoop_remaining_exact.
  pose proof (supplyOf_nonneg self request vs) as Hsupply.
  pose proof (allocateLoop_stop self request vs (Fefo.requestedQuantity request) [] [])
    as Hstop.
  destruct (Fefo.allocateLoop self request vs (Fefo.requestedQuantity request) [] [])
    as [[r al] sk].
  cbn [fst] in Hexact.
  assert (Double.isSafeInteger r
          /\ Double.isSafeInteger (Fefo.requestedQuantity request - r)) as [Hr Hdiff].
  { destruct (Z.le_gt_cases (Fefo.requestedQuantity request) 0) as [Hle|Hgt].
    - specialize (Hstop Hle). injection Hstop as -> _ _.
      split; [done|]. rewrite Z.sub_diag. apply isSafeInteger_0.
    - rewrite Hexact by lia.
      split; apply (isSafeInteger_between 0 _ (Fefo.requestedQuantity request));
        try apply isSafeInteger_0; try done; lia. }
  unfold FefoDouble.ofResult. cbn [Fefo.success Fefo.fullyAllocated
    Fefo.res_requestedQuantity Fefo.allocatedQuantity Fefo.shortfallQuantity
    Fefo.allocations Fefo.skippedSources].
  rewrite sub_ofInt by done. unfold Double.zero.
  rewrite ltb_ofInt, eqb_ofInt by (done || apply isSafeInteger_0).
  reflexivity.
Qed.

(** The exact sum of integer lines. *)
Lemma sumUnits_ofLine (lines : list Fefo.AllocationLine) :
  Forall (fun l => Double.isSafeInteger (Fefo.quantity l)) lines ->
  FefoDouble.sumUnits (map FefoDouble.ofLine lines)
  = FefoSpec.sumQuantities lines * Double.unitsPerOne.
Proof.
  unfold FefoDouble.sumUnits, FefoSpec.sumQuantities.
  induction 1 as [|l lines Hl _ IH]; [done|].
  cbn [map fold_right FefoDouble.quantity FefoDouble.ofLine] in *.
  rewrite IH, units_ofInt by done. lia.
Qed.

End FefoDoubleFacts.

Section FefoDoubleTheorems.
Import Lot FefoExamples.

(** On safe integers the allocated and the remaining quantity are safe
    integers, and so is every line. *)
Lemma allocate_safe self request sources :
  FefoDouble.integerInputs request sources ->
  Double.isSafeInteger (Fefo.allocatedQuantity (Fefo.allocate self request sources))
  /\ Double.isSafeInteger (Fefo.shortfallQuantity (Fefo.allocate self request sources))
  /\ Forall (fun l => Double.isSafeInteger (Fefo.quantity l))
       (Fefo.allocations (Fefo.allocate self request sources)).
Proof.
  intros [Hreq Hsources].
  pose proof (allocate_allocations self request sources) as Hal.
  unfold Fefo.allocate in *.
  set (vs := Fefo.filterAndSortSources sources request) in *.
  pose proof (allocateLoop_remaining_exact self request vs (Fefo.requestedQuantity request))
    as Hexact.
  pose proof (supplyOf_nonneg self request vs) as Hsupply.
  pose proof (allocateLoop_stop self request vs (Fefo.requestedQuantity request) [] [])
    as Hstop.
  pose proof (fun line => allocateLoop_line_bounds self request vs
                            (Fefo.requestedQuantity request) line) as Hlines.
  destruct (Fefo.allocateLoop self request vs (Fefo.requestedQuantity request) [] [])
    as [[r al] sk].
  cbn [fst snd] in *.
  cbn [Fefo.allocatedQuantity Fefo.shortfallQuantity Fefo.allocations].
  assert (Double.isSafeInteger r
          /\ Double.isSafeInteger (Fefo.requestedQuantity request - r)) as [Hr Hdiff].
  { destruct (Z.le_gt_cases (Fefo.requestedQuantity request) 0) as [Hle|Hgt].
    - specialize (Hstop Hle). injection Hstop as -> _ _.
      split; [done|]. rewrite Z.sub_diag. apply isSafeInteger_0.
    - rewrite Hexact by lia.
      split; apply (isSafeInteger_between 0 _ (Fefo.requestedQuantity request));
        try apply isSafeInteger_0; try done; lia. }
  split; [done|]. split; [done|].
  apply Forall_forall. intros line (s & q & Hs & _ & -> & Hq)%Hlines.
  cbn [Fefo.quantity Fefo.lineOf].
  apply (isSafeInteger_between 0 q (Fefo.quantityAvailable (Fefo.stockLevel s)));
    [apply isSafeInteger_0| |lia].
  rewrite Forall_forall in Hsources. apply Hsources.
  unfold vs in Hs. rewrite (filterAndSortSources_perm request sources) in Hs.
  by apply list_elem_of_filter in Hs as [_ Hs].
Qed.

(** C8 (amended).  [allocate] is a total function (the source has no
    [throw] and no partial operation on its path) and, for every request
    and every list of sources, [fullyAllocated] holds exactly when the
    shortfall is zero, so a partial allocation carries a non-zero
    shortfall.  When the requested quantity and the available quantities are
    integers (safe integers, on which the subtractions are exact): the lines
    sum to the allocated quantity and allocated plus shortfall is the
    requested quantity; if moreover the requested quantity is not negative,
    the lines sum to at most the requested quantity and the shortfall is not
    negative. *)
Theorem C8_fefo_result_shape
    (self : Fefo.FefoAllocator) (request : Fefo.AllocationRequest)
    (sources : list Fefo.InventorySource) :
  FefoDouble.integerInputs request sources ->
  (forall anyRequest anySources,
     FefoDouble.fullyAllocated (FefoDouble.allocate self anyRequest anySources) = true
     <-> FefoDouble.shortfallQuantity (FefoDouble.allocate self anyRequest anySources)
         = Double.zero)
  /\ FefoDouble.sumUnits
       (FefoDouble.allocations
          (FefoDouble.allocate self (FefoDouble.ofRequest request)
             (map FefoDouble.ofSource sources)))
     = Double.units
         (FefoDouble.allocatedQuantity
            (FefoDouble.allocate self (FefoDouble.ofRequest request)
               (map FefoDouble.ofSource sources)))
  /\ Double.units
       (FefoDouble.allocatedQuantity
          (FefoDouble.allocate self (FefoDouble.ofRequest request)
             (map FefoDouble.ofSource sources)))
     + Double.units
         (FefoDouble.shortfallQuantity
            (FefoDouble.allocate self (FefoDouble.ofRequest request)
               (map FefoDouble.ofSource sources)))
     = Double.units (FefoDouble.requestedQuantity (FefoDouble.ofRequest request))
  /\ (0 <= Fefo.requestedQuantity request ->
      FefoDouble.claimedShape (FefoDouble.ofRequest request)
        (FefoDouble.allocate self (FefoDouble.ofRequest request)
           (map FefoDouble.ofSource sources))
      /\ 0 <= Double.units
                (FefoDouble.shortfallQuantity
                   (FefoDouble.allocate self (FefoDouble.ofRequest request)
                      (map FefoDouble.ofSource sources)))).
Proof.
  intros Hint.
  assert (forall anyRequest anySources,
            FefoDouble.fullyAllocated (FefoDouble.allocate self anyRequest anySources) = true
            <-> FefoDouble.shortfallQuantity (FefoDouble.allocate self anyRequest anySources)
                = Double.zero) as Hfully.
  { intros anyRequest anySources. unfold FefoDouble.allocate.
    destruct (FefoDouble.allocateLoop _ _ _ _ _ _) as [[r al] sk].
    cbn [FefoDouble.fullyAllocated FefoDouble.shortfallQuantity].
    unfold Double.eqb. rewrite Z.eqb_eq. destruct r as [u]. cbn [Double.units].
    change (Double.units Double.zero) with 0. split; [by intros ->|by intros [= ->]]. }
  split; [exact Hfully|].
  pose proof (Hfully (FefoDouble.ofRequest request) (map FefoDouble.ofSource sources))
    as Hfull.
  rewrite (allocate_on_integers self request sources Hint) in *.
  destruct (allocate_safe self request sources Hint) as (Hal & Hsh & Hlines).
  destruct Hint as [Hreq _].
  destruct (allocate_shape self request sources) as (Hsum & Htotal & _ & _ & _ & Hpos).
  cbn [FefoDouble.allocations FefoDouble.allocatedQuantity FefoDouble.shortfallQuantity
       FefoDouble.ofResult FefoDouble.requestedQuantity FefoDouble.ofRequest] in *.
  rewrite (sumUnits_ofLine _ Hlines), !units_ofInt by done.
  assert (0 < Double.unitsPerOne) as Hunit by (apply Z.pow_pos_nonneg; lia).
  split; [by rewrite Hsum|]. split; [by rewrite <- Htotal, Z.mul_add_distr_r|].
  intros Hnonneg. destruct (Hpos Hnonneg) as [Hle Hshort].
  unfold FefoDouble.claimedShape.
  cbn [FefoDouble.allocations FefoDouble.allocatedQuantity FefoDouble.shortfallQuantity
       FefoDouble.fullyAllocated FefoDouble.ofResult FefoDouble.requestedQuantity
       FefoDouble.ofRequest] in *.
  rewrite (sumUnits_ofLine _ Hlines), !units_ofInt by done.
  repeat split; try (apply Hfull); try nia.
Qed.

(** Twelve units asked of ten available: a partial allocation of ten with a
    shortfall of two. *)
Lemma C8_witness_partial_allocation :
  FefoDouble.claimedShape (FefoDouble.ofRequest (requestFor 12 None None))
    (FefoDouble.allocate allocator0 (FefoDouble.ofRequest (requestFor 12 None None))
       (map FefoDouble.ofSource [srcL1; srcL2]))
  /\ FefoDouble.shortfallQuantity
       (FefoDouble.allocate allocator0 (FefoDouble.ofRequest (requestFor 12 None None))
          (map FefoDouble.ofSource [srcL1; srcL2]))
     = Double.ofInt 2.
Proof.
  split; [|by vm_compute].
  apply (C8_fefo_result_shape allocator0 (requestFor 12 None None) [srcL1; srcL2]).
  - split; [by vm_compute|]. repeat constructor; by vm_compute.
  - simpl. lia.
Defined.

(** With fractional quantities the sums do not hold: 3.6 units asked of
    sources holding 1.2 and 2.6 are allocated as 1.2 and
    2.4000000000000004, the rounded difference 3.6 - 1.2.  The request is
    reported fully allocated with allocated quantity 3.6, and its lines sum
    to more than was requested. *)
Lemma C8_counterexample_fractional_quantities :
  map FefoDouble.quantity
    (FefoDouble.allocations
       (FefoDouble.allocate allocator0 (FefoDouble.requestOf (FefoDouble.tenths 36))
          [FefoDouble.sourceOf "SL-1" (FefoDouble.tenths 12);
           FefoDouble.sourceOf "SL-2" (FefoDouble.tenths 26)]))
  = [FefoDouble.tenths 12; Double.ofRatio 24000000000000004 10000000000000000]
  /\ FefoDouble.allocatedQuantity
       (FefoDouble.allocate allocator0 (FefoDouble.requestOf (FefoDouble.tenths 36))
          [FefoDouble.sourceOf "SL-1" (FefoDouble.tenths 12);
           FefoDouble.sourceOf "SL-2" (FefoDouble.tenths 26)])
     = FefoDouble.tenths 36
  /\ FefoDouble.fullyAllocated
       (FefoDouble.allocate allocator0 (FefoDouble.requestOf (FefoDouble.tenths 36))
          [FefoDouble.sourceOf "SL-1" (FefoDouble.tenths 12);
           FefoDouble.sourceOf "SL-2" (FefoDouble.tenths 26)])
     = true
  /\ Double.units (FefoDouble.tenths 36)
     < FefoDouble.sumUnits
         (FefoDouble.allocations
            (FefoDouble.allocate allocator0 (FefoDouble.requestOf (FefoDouble.tenths 36))
               [FefoDouble.sourceOf "SL-1" (FefoDouble.tenths 12);
                FefoDouble.sourceOf "SL-2" (FefoDouble.tenths 26)]))
  /\ ~ FefoDouble.claimedShape (FefoDouble.requestOf (FefoDouble.tenths 36))
         (FefoDouble.allocate allocator0 (FefoDouble.requestOf (FefoDouble.tenths 36))
            [FefoDouble.sourceOf "SL-1" (FefoDouble.tenths 12);
             FefoDouble.sourceOf "SL-2" (FefoDouble.tenths 26)]).
Proof.
  assert (Double.units (FefoDouble.tenths 36)
          < FefoDouble.sumUnits
              (FefoDouble.allocations
                 (FefoDouble.allocate allocator0 (FefoDouble.requestOf (FefoDouble.tenths 36))
                    [FefoDouble.sourceOf "SL-1" (FefoDouble.tenths 12);
                     FefoDouble.sourceOf "SL-2" (FefoDouble.tenths 26)]))) as Hsum
    by (by vm_compute).
  split; [by vm_compute|]. split; [by vm_compute|]. split; [by vm_compute|].
  split; [exact Hsum|].
  intros [Hle _]. cbn [FefoDouble.requestedQuantity FefoDouble.requestOf] in Hle. lia.
Qed.

End FefoDoubleTheorems.

(** ** Optimistic stock mutation *)

Section StockClaims.
Import StockRepo StoreExamples.

(** C2 (amended).  For a stored row, [updateQuantities] fails with the
    optimistic-lock conflict error when the stored row version differs from
    the expected one.  Otherwise it succeeds: it adds the deltas, sets
    available to the signed difference [on_hand - reserved] (it is not
    clamped at zero), increments the row version by one and stamps the
    last-movement time. *)
Theorem C2_optimistic_update_signed_available
    (db : gmap string StockLevel) (now : Z) (key : string) (delta : Delta)
    (expectedVersion : Z) (current : StockLevel) :
  db !! key = Some current ->
  (rowVersion current <> expectedVersion ->
     updateQuantities db now key delta expectedVersion
     = Js.Throw (OptimisticLockConflict expectedVersion (rowVersion current)))
  /\ (rowVersion current = expectedVersion ->
      exists updated,
        updateQuantities db now key delta expectedVersion
          = Js.Ok (<[key := updated]> db, updated)
        /\ quantityOnHand updated = quantityOnHand current + default 0 (onHand delta)
        /\ quantityReserved updated = quantityReserved current + default 0 (reserved delta)
        /\ quantityInbound updated = quantityInbound current + default 0 (inbound delta)
        /\ quantityOutbound updated = quantityOutbound current + default 0 (outbound delta)
        /\ quantityAvailable updated = quantityOnHand updated - quantityReserved updated
        /\ rowVersion updated = rowVersion current + 1
        /\ lastMovementAt updated = Some now).
Proof.
  intros Hrow. unfold updateQuantities. rewrite Hrow. split.
  - intros Hne. by rewrite (proj2 (Z.eqb_neq _ _) Hne).
  - intros Heq. rewrite (proj2 (Z.eqb_eq _ _) Heq). simpl.
    eexists. split; [reflexivity|]. by repeat split.
Qed.

Lemma C2_witness_reserve :
  exists updated,
    updateQuantities stock0 1000 "SL-1"
      {| onHand := None; reserved := Some 4; inbound := None; outbound := None |} 1
      = Js.Ok (<["SL-1" := updated]> stock0, updated)
    /\ quantityAvailable updated = quantityOnHand updated - quantityReserved updated
    /\ rowVersion updated = 2.
Proof.
  destruct (proj2 (C2_optimistic_update_signed_available stock0 1000 "SL-1"
                     {| onHand := None; reserved := Some 4; inbound := None; outbound := None |}
                     1 row0 eq_refl) eq_refl)
    as (updated & Hrun & _ & _ & _ & _ & Hav & Hver & _).
  exists updated. split; [exact Hrun|]. split; [exact Hav|exact Hver].
Defined.

(** Reserving four units against a row with five on hand and three reserved
    stores available = -2, where [max(0, on_hand - reserved)] is 0. *)
Lemma C2_counterexample_available_not_clamped :
  reserve stock0 1000 "SL-1" 4 1 = Js.Ok (<["SL-1" := row0_reserved]> stock0, row0_reserved)
  /\ quantityAvailable row0_reserved = -2
  /\ calculateAvailableQuantity (quantityOnHand row0_reserved) (quantityReserved row0_reserved) = 0.
Proof. by repeat split. Qed.

(** C6 (what the code does).  Taking eight units off a row that has five on
    hand, with the right version and no override of any kind, succeeds and
    stores on-hand = -3: no negative-stock error exists on this path. *)
Theorem C6_negative_on_hand_is_stored :
  decrementOnHand stock0 1000 "SL-1" 8 1
  = Js.Ok (<["SL-1" := row0_overdrawn]> stock0, row0_overdrawn)
  /\ quantityOnHand row0_overdrawn = -3.
Proof. by split. Qed.

End StockClaims.

(** ** Outbox failure transition *)

Section OutboxClaims.
Import Outbox StoreExamples.

(** C5.  For a stored outbox row (in particular a [PENDING] one),
    [markAsFailed] increments the retry count by one and records the error;
    while the new count is below the row's maximum the status is [PENDING]
    and the row is rescheduled [2 ^ retryCount] seconds after now; otherwise
    the status is [FAILED]. *)
Theorem C5_mark_failed_transition
    (db : gmap string OutboxMessage) (now : Z) (key error : string)
    (message : OutboxMessage) :
  db !! key = Some message ->
  status message = PENDING ->
  0 <= retryCount message ->
  exists updated,
    markAsFailed db now key error = Js.Ok (<[key := updated]> db, updated)
    /\ retryCount updated = retryCount message + 1
    /\ lastError updated = Some error
    /\ maxRetries updated = maxRetries message
    /\ (retryCount updated < maxRetries message ->
        status updated = PENDING
        /\ scheduledAt updated = now + 2 ^ retryCount updated * 1000)
    /\ (maxRetries message <= retryCount updated -> status updated = FAILED).
Proof.
  intros Hrow _ _. unfold markAsFailed. rewrite Hrow.
  eexists. split; [reflexivity|]. simpl.
  split; [done|]. split; [done|]. split; [done|]. split.
  - intros Hlt. by rewrite (proj2 (Z.leb_gt _ _) Hlt).
  - intros Hle. by rewrite (proj2 (Z.leb_le _ _) Hle).
Qed.

(** Second failure of a row allowed five attempts: pending again, due four
    seconds later. *)
Lemma C5_witness_retry :
  exists updated,
    markAsFailed (outbox0 5) 1000 "OB-1" "broker down"
      = Js.Ok (<["OB-1" := updated]> (outbox0 5), updated)
    /\ retryCount updated = 2
    /\ status updated = PENDING
    /\ scheduledAt updated = 1000 + 4000.
Proof.
  destruct (C5_mark_failed_transition (outbox0 5) 1000 "OB-1" "broker down"
              (outboxRow 5) eq_refl eq_refl)
    as (updated & Hrun & Hcount & _ & _ & Hretry & _); [simpl; lia|].
  exists updated. split; [exact Hrun|]. split; [exact Hcount|].
  destruct Hretry as [Hst Hsched]; [rewrite Hcount; simpl; lia|].
  split; [exact Hst|]. rewrite Hsched, Hcount. reflexivity.
Defined.

End OutboxClaims.

(** ** Slotting ranking *)

Section SlottingClaims.
Import Slotting SlottingSpec.

(** The sign of the rounded difference is the sign of the exact one, so the
    comparator orders by score. *)
Lemma leScore_leb a b : leScore a b = Double.leb (score b) (score a).
Proof. unfold leScore, compareScore. apply sub_sign. Qed.

Lemma leScore_iff a b :
  leScore a b = true <-> Double.units (score b) <= Double.units (score a).
Proof. rewrite leScore_leb. unfold Double.leb. apply Z.leb_le. Qed.

Lemma leScore_total a b : leScore a b = false -> leScore b a = true.
Proof.
  intros Hab. apply leScore_iff.
  destruct (Z.le_gt_cases (Double.units (score b)) (Double.units (score a))) as [Hle|Hlt];
    [|lia].
  apply leScore_iff in Hle. congruence.
Qed.

Lemma leScore_trans a b c :
  leScore a b = true -> leScore b c = true -> leScore a c = true.
Proof. rewrite !leScore_iff. lia. Qed.

Lemma hasScore_tied q a b :
  hasScore q a = true -> hasScore q b = true -> leScore a b = true.
Proof.
  unfold hasScore, Double.eqb. intros Ha%Z.eqb_eq Hb%Z.eqb_eq.
  apply leScore_iff. lia.
Qed.

(** C7 (amended).  The scorer returns the scored valid candidates sorted by
    descending total score, the score being the double the source computes;
    candidates with equal scores keep the order they have in the input list
    (the sort is stable and its comparator looks at the score only; the
    location pick sequence plays no part).  The ranking is a function of the
    candidates, the context and the weights. *)
Theorem C7_slotting_order_stable
    (weights : SlottingWeights) (candidates : list SlottingCandidate)
    (context : SlottingContext) :
  scoreLocations weights candidates context
    ≡ₚ scoredCandidates weights candidates context
  /\ StronglySorted (fun a b => Double.leb (score b) (score a) = true)
       (scoreLocations weights candidates context)
  /\ forall q,
       filter (fun s => hasScore q s = true) (scoreLocations weights candidates context)
       = filter (fun s => hasScore q s = true) (scoredCandidates weights candidates context).
Proof.
  unfold scoreLocations. fold (scoredCandidates weights candidates context).
  fold leScore. split; [apply sort_perm|]. split.
  - eapply StronglySorted_weaken; [|apply (sort_sorted leScore)].
    + intros a b Hab. by rewrite <- leScore_leb.
    + apply leScore_total.
    + apply leScore_trans.
  - intros q. apply sort_stable, hasScore_tied.
Qed.

(** Two bays with the same score, 0.55: the one listed first stays first
    although its pick sequence (20) is the higher one. *)
Lemma C7_counterexample_tie_keeps_input_order :
  map (fun s => (id (sc_location s), pickSequence (sc_location s)))
    (scoreLocations DEFAULT_SLOTTING_WEIGHTS
       [candidateIn (bay "A-20" 20); candidateIn (bay "B-10" 10)] classA)
  = [ ("A-20", Some 20); ("B-10", Some 10) ]
  /\ Forall (fun s => score s = Double.ofRatio 55 100)
       (scoreLocations DEFAULT_SLOTTING_WEIGHTS
          [candidateIn (bay "A-20" 20); candidateIn (bay "B-10" 10)] classA)
  /\ ~ StronglySorted rankedBefore
        (scoreLocations DEFAULT_SLOTTING_WEIGHTS
           [candidateIn (bay "A-20" 20); candidateIn (bay "B-10" 10)] classA).
Proof.
  evaluate (scoreLocations DEFAULT_SLOTTING_WEIGHTS
              [candidateIn (bay "A-20" 20); candidateIn (bay "B-10" 10)] classA).
  split; [reflexivity|]. split.
  - repeat constructor; by vm_compute.
  - intros Hs. apply StronglySorted_inv in Hs as [_ Hall].
    apply Forall_inv in Hall. destruct Hall as [Hlt|[_ Hseq]].
    + discriminate Hlt.
    + simpl in Hseq. lia.
Qed.

(** Scores are the rounded sums.  With utilization 5, distance 5 and pick
    frequency 0 against utilization 20, distance 5 and pick frequency 10,
    both totals are 0.39 in exact arithmetic; the doubles are
    0.38999999999999996 and 0.39000000000000007, so the second candidate is
    ranked first. *)
Lemma rounding_separates_an_exact_tie :
  map (fun s => (id (sc_location s), score s))
    (scoreLocations DEFAULT_SLOTTING_WEIGHTS
       [measured "X" 5 5 0; measured "Y" 20 5 10] classA)
  = [ ("Y", Double.ofRatio 39000000000000007 100000000000000000);
      ("X", Double.ofRatio 38999999999999996 100000000000000000) ].
Proof. by vm_compute. Qed.

End SlottingClaims.

(** ** Agent registry *)

Section RegistryClaims.
Import Agents Registry RegistrySpec.

Lemma elem_of_setAdd (x y : string) (s : list string) :
  x ∈ setAdd y s <-> x = y \/ x ∈ s.
Proof.
  unfold setAdd. case_bool_decide as Hy.
  - split; [by right|]. by intros [->|?].
  - rewrite elem_of_app, list_elem_of_singleton. tauto.
Qed.

Lemma elem_of_addAll (x : string) (names : option (list string)) (acc : list string) :
  x ∈ addAll names acc <-> x ∈ acc \/ x ∈ default [] names.
Proof.
  destruct names as [subs|]; simpl.
  - revert acc. induction subs as [|n subs IH]; intros acc; simpl.
    + rewrite elem_of_nil. tauto.
    + rewrite IH, elem_of_setAdd, elem_of_cons. tauto.
  - rewrite elem_of_nil. tauto.
Qed.

(** An agent is returned for an event type exactly when the index lists a
    name for that type or for the wildcard and the name maps to the agent. *)
Lemma elem_of_getAgentsForEvent (self : AgentRegistry) (eventType : string) (agent : BaseAgent) :
  agent ∈ getAgentsForEvent self eventType <->
  exists n, (subscribed self eventType n \/ subscribed self "*" n)
            /\ agents self !! n = Some agent.
Proof.
  unfold getAgentsForEvent, subscribed. rewrite list_elem_of_omap.
  split; intros (n & H1 & H2); exists n.
  - rewrite !elem_of_addAll, elem_of_nil in H1. tauto.
  - rewrite !elem_of_addAll, elem_of_nil. tauto.
Qed.

Lemma subscribe_keeps (subs : gmap string (list string)) (n m t t' : string) :
  n ∈ default [] (subs !! t) -> n ∈ default [] (subscribe m subs t' !! t).
Proof.
  unfold subscribe. intros Hn. destruct (decide (t' = t)) as [->|Hne].
  - rewrite lookup_insert_eq. simpl. apply elem_of_setAdd. by right.
  - by rewrite lookup_insert_ne.
Qed.

Lemma fold_subscribe_keeps (ts : list string) (subs : gmap string (list string)) (n m t : string) :
  n ∈ default [] (subs !! t) ->
  n ∈ default [] (fold_left (subscribe m) ts subs !! t).
Proof.
  revert subs. induction ts as [|t' ts IH]; intros subs Hn; simpl; [done|].
  by apply IH, subscribe_keeps.
Qed.

Lemma fold_subscribe_adds (ts : list string) (subs : gmap string (list string)) (m t : string) :
  t ∈ ts -> m ∈ default [] (fold_left (subscribe m) ts subs !! t).
Proof.
  revert subs. induction ts as [|t' ts IH]; intros subs Ht; simpl.
  - by apply elem_of_nil in Ht.
  - apply elem_of_cons in Ht as [->|Ht]; [|by apply IH].
    apply fold_subscribe_keeps. unfold subscribe.
    rewrite lookup_insert_eq. simpl. apply elem_of_setAdd. by left.
Qed.

Lemma register_keeps_subscribed (self : AgentRegistry) (agent : BaseAgent) (t n : string) :
  subscribed self t n -> subscribed (register agent self) t n.
Proof. apply fold_subscribe_keeps. Qed.

Lemma register_subscribes (self : AgentRegistry) (agent : BaseAgent) (t : string) :
  t ∈ subscribesTo agent -> subscribed (register agent self) t (name agent).
Proof. apply fold_subscribe_adds. Qed.

Lemma register_keyed (self : AgentRegistry) (agent : BaseAgent) :
  keyedByName self -> keyedByName (register agent self).
Proof.
  unfold keyedByName. simpl. intros Hk. by apply map_Forall_insert_2.
Qed.

(** C10.  Registering [b] under the name of a registered agent [a] replaces
    the agent record but leaves the index entries of [a] in place: the name
    is still listed under every event type [a] subscribed to, so [b] is
    returned for every event type in the union of the two subscription
    lists.  Once the name is unregistered, no lookup by event type returns
    an agent of that name. *)
Theorem C10_reregistration_keeps_stale_subscriptions
    (self : AgentRegistry) (a b : BaseAgent) :
  keyedByName self ->
  getAgent self (name b) = Some a ->
  (forall t, t ∈ subscribesTo a -> subscribed self t (name b)) ->
  getAgent (register b self) (name b) = Some b
  /\ (forall t, t ∈ subscribesTo a -> subscribed (register b self) t (name b))
  /\ (forall t, t ∈ subscribesTo a \/ t ∈ subscribesTo b ->
        b ∈ getAgentsForEvent (register b self) t)
  /\ getAgent (unregister (name b) (register b self)) (name b) = None
  /\ (forall t agent,
        agent ∈ getAgentsForEvent (unregister (name b) (register b self)) t ->
        name agent <> name b).
Proof.
  intros Hkeyed Ha Hsubs.
  assert (getAgent (register b self) (name b) = Some b) as Hb.
  { unfold getAgent. simpl. apply lookup_insert_eq. }
  split; [exact Hb|]. split.
  { intros t Ht. by apply register_keeps_subscribed, Hsubs. }
  split.
  { intros t Ht. apply elem_of_getAgentsForEvent. exists (name b).
    split; [left|exact Hb].
    destruct Ht as [Ht|Ht].
    - by apply register_keeps_subscribed, Hsubs.
    - by apply register_subscribes. }
  unfold unregister. unfold getAgent in Hb. rewrite Hb. split.
  { unfold getAgent. simpl. apply lookup_delete_eq. }
  intros t agent (n & _ & Hn)%elem_of_getAgentsForEvent. simpl in Hn.
  apply lookup_delete_Some in Hn as [Hne Hn].
  rewrite lookup_insert_ne in Hn by done.
  rewrite (Hkeyed n agent Hn). congruence.
Qed.

(** "threshold" re-registered for low-stock alerts still receives the stock
    updates its first registration subscribed to. *)
Lemma C10_witness_threshold_agent :
  thresholdV2
    ∈ getAgentsForEvent (register thresholdV2 (register thresholdV1 Registry.empty))
        "Inventory.StockUpdated".
Proof.
  apply (C10_reregistration_keeps_stale_subscriptions
           (register thresholdV1 Registry.empty) thresholdV1 thresholdV2).
  - apply register_keyed. apply map_Forall_empty.
  - reflexivity.
  - intros t Ht. by apply (register_subscribes Registry.empty thresholdV1).
  - left. apply list_elem_of_here.
Defined.

End RegistryClaims.

(** ** Agent runtime and consumer *)

Section RuntimeClaims.
Import Agents Runner Consumer RuntimeSpec.


(** Called with an agent object, [executeAgent] finds no agent and resolves
    to [null], whatever the nesting depth. *)
Lemma executeAgent_object registry cfg depth agent event context :
  executeAgent registry cfg depth (AgentObject agent) event context = Fulfilled None.
Proof. by destruct depth. Qed.

Lemma promiseAll_null {A B : Type} (call : A -> Awaited (option B)) (batch : list A) :
  (forall a, call a = Fulfilled None) ->
  promiseAll call batch = Fulfilled (replicate (length batch) None).
Proof.
  intros Hcall. induction batch as [|a batch IH]; simpl; [done|].
  by rewrite Hcall, IH.
Qed.

(** With a positive concurrency and calls that resolve to [null], the loop
    ends within one iteration per agent: with [continueOnError] it collects
    one [null] per agent, without it the check of the first batch throws. *)
Lemma executeBatches_null cfg call fuel pending results :
  (forall a, call a = Fulfilled None) ->
  (0 < concurrency cfg)%nat -> (length pending <= fuel)%nat ->
  executeBatches cfg call fuel pending results
  = match pending with
    | [] => Fulfilled results
    | _ :: _ =>
        if continueOnError cfg
        then Fulfilled (results ++ replicate (length pending) None)
        else Rejected nullResultError
    end.
Proof.
  intros Hcall Hconc. revert pending results.
  induction fuel as [|fuel IH]; intros [|a pending] results Hfuel;
    try done; simpl in Hfuel; [lia|].
  cbn [executeBatches]. rewrite (promiseAll_null call _ Hcall).
  destruct (concurrency cfg) as [|c] eqn:Hc; [lia|].
  cbn [take length replicate drop].
  destruct (continueOnError cfg); [|done].
  rewrite IH by (rewrite length_drop; lia).
  assert (length pending = (length (take c pending) + length (drop c pending))%nat) as Hlen
    by (by rewrite <- length_app, take_drop).
  destruct (drop c pending) as [|b rest] eqn:Hdrop.
  - f_equal. simpl in Hlen. rewrite Hlen, Nat.add_0_r. done.
  - f_equal. rewrite <- app_assoc. f_equal.
    rewrite <- app_comm_cons. f_equal.
    rewrite <- replicate_add. by rewrite <- Hlen.
Qed.

(** With concurrency 0 the loop makes no progress. *)
Lemma executeBatches_stuck cfg call fuel a pending results :
  concurrency cfg = 0%nat ->
  executeBatches cfg call fuel (a :: pending) results = Unsettled.
Proof.
  intros Hc. revert results. induction fuel as [|fuel IH]; intros results; [done|].
  cbn [executeBatches]. rewrite Hc. cbn [take drop promiseAll someFailed].
  rewrite IH. by destruct (continueOnError cfg).
Qed.

Lemma executeAgents_outcome registry cfg agents event context :
  executeAgents registry cfg agents event context
  = match agents with
    | [] => Fulfilled []
    | _ :: _ =>
        if (concurrency cfg =? 0)%nat then Unsettled
        else if continueOnError cfg
             then Fulfilled (replicate (length agents) None)
             else Rejected nullResultError
    end.
Proof.
  unfold executeAgents. destruct agents as [|a agents]; [done|].
  destruct (Nat.eqb_spec (concurrency cfg) 0) as [Hc|Hc].
  - by apply executeBatches_stuck.
  - rewrite executeBatches_null; [done| |lia|done].
    intros b. apply executeAgent_object.
Qed.

Lemma executeForEvent_outcome registry cfg event context :
  executeForEvent registry cfg event context
  = match Registry.getAgentsForEvent registry (event_type event) with
    | [] =>
        Fulfilled
          {| eventId := event_id event; eventType := event_type event; results := [];
             successCount := 0; failureCount := 0; eventsToPublish := [] |}
    | _ :: _ =>
        if (concurrency cfg =? 0)%nat then Unsettled else Rejected nullResultError
    end.
Proof.
  unfold executeForEvent. rewrite executeAgents_outcome.
  destruct (Registry.getAgentsForEvent registry (event_type event)) as [|a agents]; [done|].
  destruct (concurrency cfg =? 0)%nat; [done|].
  by destruct (continueOnError cfg).
Qed.

(** What [handleMessage] does, by the content of the message. *)
Lemma handleMessage_outcome registry cfg msg :
  handleMessage registry cfg msg
  = match parsed msg with
    | Js.Ok (Some event) =>
        match Registry.getAgentsForEvent registry (event_type event) with
        | [] => ([], Ack)
        | _ :: _ => if (concurrency cfg =? 0)%nat then ([], NotSettled) else ([], onError msg)
        end
    | _ => ([], onError msg)
    end.
Proof.
  unfold handleMessage, processMessage.
  destruct (parsed msg) as [[event|]|e]; [|done..].
  rewrite executeForEvent_outcome.
  destruct (Registry.getAgentsForEvent registry (event_type event)); [done|].
  by destruct (concurrency cfg =? 0)%nat.
Qed.

End RuntimeClaims.

Section ConsumerClaims.
Import Agents Runner Consumer RuntimeSpec.


(** C3 (what the code does).  On an error the consumer requeues after
    [2 ^ retry] seconds while the [x-retry-count] header is below 3 and
    nacks without requeue from 3 on; a missing header counts as 0.  Nothing
    ever writes that header: a requeued message comes back as it was, so a
    message that fails to parse and carries no header is requeued after one
    second on every delivery, however many there are, and is never nack'ed
    without requeue. *)
Theorem C3_poison_message_requeued_without_bound :
  (forall msg,
     (default 0 (retryCountHeader msg) < 3 ->
      onError msg = NackRequeueAfter (2 ^ default 0 (retryCountHeader msg) * 1000))
     /\ (3 <= default 0 (retryCountHeader msg) -> onError msg = NackNoRequeue))
  /\ (forall registry cfg n,
        deliveries registry cfg n poisonMessage = replicate n (NackRequeueAfter 1000))
  /\ (forall registry cfg n, NackNoRequeue ∉ deliveries registry cfg n poisonMessage).
Proof.
  assert (forall registry cfg n,
            deliveries registry cfg n poisonMessage = replicate n (NackRequeueAfter 1000))
    as Hforever.
  { intros registry cfg n. induction n as [|n IH]; simpl; [done|]. by rewrite IH. }
  split; [|split; [exact Hforever|]].
  - intros msg. unfold onError. split.
    + intros Hlt. by rewrite (proj2 (Z.ltb_lt _ _) Hlt).
    + intros Hge. by rewrite (proj2 (Z.ltb_ge _ _) Hge).
  - intros registry cfg n. rewrite Hforever.
    intros [Heq _]%elem_of_replicate. discriminate Heq.
Qed.

End ConsumerClaims.

(* ===================================================================== *)
(** * Part III: further properties of the same code *)
(* ===================================================================== *)

(** ** Lot batches *)

Section LotFacts.
Import Lot LotOps.

Lemma ceil_div_pos (a b : Z) : 0 < b -> (0 < Js.ceil_div a b <-> 0 < a).
Proof.
  intros Hb. unfold Js.ceil_div. split; intros H.
  - destruct (Z.le_gt_cases a 0) as [Hle|]; [|done].
    assert (0 <= - a / b) by (apply Z.div_pos; lia). lia.
  - assert (- a / b < 0) by (apply Z.div_lt_upper_bound; lia). lia.
Qed.

Lemma ceil_div_nonneg (a b : Z) : 0 < b -> 0 <= a -> 0 <= Js.ceil_div a b.
Proof.
  intros Hb Ha. unfold Js.ceil_div.
  assert (- a / b <= 0) by (apply Z.div_le_upper_bound; lia). lia.
Qed.

(** X1.  [compareLotsByFEFO] is a consistent comparator: swapping its
    arguments negates the result, and chains of "not after" compose. *)
Theorem X1_compareLotsByFEFO_consistent (a b c : LotBatch) :
  compareLotsByFEFO b a = - compareLotsByFEFO a b
  /\ (compareLotsByFEFO a b <= 0 -> compareLotsByFEFO b c <= 0 ->
      compareLotsByFEFO a c <= 0).
Proof.
  unfold compareLotsByFEFO.
  destruct (expirationDate a), (expirationDate b), (expirationDate c); simpl; lia.
Qed.

Lemma X1_witness_chain :
  compareLotsByFEFO
    {| id := "L1"; lotNumber := "L1"; expirationDate := Some 10; receivedAt := 0;
       status := AVAILABLE |}
    {| id := "L3"; lotNumber := "L3"; expirationDate := None; receivedAt := 0;
       status := AVAILABLE |} <= 0.
Proof.
  apply (proj2 (X1_compareLotsByFEFO_consistent
                  {| id := "L1"; lotNumber := "L1"; expirationDate := Some 10;
                     receivedAt := 0; status := AVAILABLE |}
                  {| id := "L2"; lotNumber := "L2"; expirationDate := Some 20;
                     receivedAt := 0; status := AVAILABLE |}
                  {| id := "L3"; lotNumber := "L3"; expirationDate := None;
                     receivedAt := 0; status := AVAILABLE |}));
    unfold compareLotsByFEFO; simpl; lia.
Defined.

(** X2.  Days until expiration against the expiry test: a lot without an
    expiration date has no day count and never expires; a lot with one is
    expired exactly when the date is before the reference date, in which
    case the day count is zero or negative; the count is positive exactly
    when the date is after the reference date. *)
Theorem X2_days_until_expiration (lot : LotBatch) (referenceDate : Z) :
  (expirationDate lot = None ->
     getDaysUntilExpiration lot referenceDate = None
     /\ isLotExpired lot referenceDate = false)
  /\ (forall e, expirationDate lot = Some e ->
        exists d, getDaysUntilExpiration lot referenceDate = Some d
                  /\ (isLotExpired lot referenceDate = true <-> e < referenceDate)
                  /\ (isLotExpired lot referenceDate = true -> d <= 0)
                  /\ (0 < d <-> referenceDate < e)).
Proof.
  unfold getDaysUntilExpiration, isLotExpired. split.
  - by intros ->.
  - intros e ->. eexists. split; [reflexivity|].
    pose proof (ceil_div_pos (e - referenceDate) (1000 * 60 * 60 * 24) eq_refl) as Hpos.
    split; [apply Z.ltb_lt|]. split.
    + intros He%Z.ltb_lt. lia.
    + rewrite Hpos. lia.
Qed.

Lemma X2_witness_expired_yesterday :
  exists d,
    getDaysUntilExpiration
      {| id := "L3"; lotNumber := "L3"; expirationDate := Some (-86400000);
         receivedAt := 0; status := AVAILABLE |} 0 = Some d
    /\ d <= 0.
Proof.
  destruct (proj2 (X2_days_until_expiration
                     {| id := "L3"; lotNumber := "L3"; expirationDate := Some (-86400000);
                        receivedAt := 0; status := AVAILABLE |} 0) (-86400000) eq_refl)
    as (d & Hd & _ & Hexp & _).
  exists d. split; [exact Hd|]. apply Hexp. reflexivity.
Defined.

End LotFacts.

(** ** FEFO allocator: what the lines and the skip records are *)


Section FefoMoreTheorems.
Import Lot Fefo FefoSpec FefoMore FefoExamples.



(** On integers, for a request that is not negative, the allocated quantity
    is the smaller of the requested quantity and what the matching sources
    that pass the checks can give together. *)
Lemma allocate_min_supply
    (self : FefoAllocator) (request : AllocationRequest) (sources : list InventorySource) :
  0 <= requestedQuantity request ->
  let supply :=
    supplyOf self request (filter (fun s => matchesRequest request s = true) sources) in
  allocatedQuantity (allocate self request sources)
    = Z.min (requestedQuantity request) supply
  /\ (fullyAllocated (allocate self request sources) = true
      <-> requestedQuantity request <= supply).
Proof.
  intros Hreq supply.
  pose proof (allocateLoop_remaining_exact self request
                (filterAndSortSources sources request) _ Hreq) as Hrem.
  rewrite (supplyOf_perm self request _ _ (filterAndSortSources_perm request sources)) in Hrem.
  fold supply in Hrem.
  unfold allocate. destruct (allocateLoop _ _ _ _ _ _) as [[r al] sk].
  simpl in *. subst r. rewrite Z.eqb_eq. lia.
Qed.

(** X4.  For integer quantities and a request that is not negative, the
    allocated quantity is the smaller of the requested quantity and what the
    matching sources that pass the checks can give together; so the request
    is fully allocated exactly when that supply covers it. *)
Theorem X4_allocated_is_min_of_demand_and_supply
    (self : Fefo.FefoAllocator) (request : Fefo.AllocationRequest)
    (sources : list Fefo.InventorySource) :
  FefoDouble.integerInputs request sources ->
  0 <= Fefo.requestedQuantity request ->
  FefoDouble.allocatedQuantity
    (FefoDouble.allocate self (FefoDouble.ofRequest request)
       (map FefoDouble.ofSource sources))
  = Double.ofInt
      (Z.min (Fefo.requestedQuantity request)
         (FefoMore.supplyOf self request
            (filter (fun s => Fefo.matchesRequest request s = true) sources)))
  /\ (FefoDouble.fullyAllocated
        (FefoDouble.allocate self (FefoDouble.ofRequest request)
           (map FefoDouble.ofSource sources)) = true
      <-> Fefo.requestedQuantity request
          <= FefoMore.supplyOf self request
               (filter (fun s => Fefo.matchesRequest request s = true) sources)).
Proof.
  intros Hint Hreq. rewrite (allocate_on_integers self request sources Hint).
  destruct (allocate_min_supply self request sources Hreq) as [Hmin Hfull].
  cbn [FefoDouble.allocatedQuantity FefoDouble.fullyAllocated FefoDouble.ofResult].
  by rewrite Hmin.
Qed.

Lemma X4_witness_supply_ten :
  FefoDouble.allocatedQuantity
    (FefoDouble.allocate allocator0 (FefoDouble.ofRequest (requestFor 12 None None))
       (map FefoDouble.ofSource [srcL1; srcL2]))
  = Double.ofInt
      (Z.min 12
         (FefoMore.supplyOf allocator0 (requestFor 12 None None)
            (filter (fun s => Fefo.matchesRequest (requestFor 12 None None) s = true)
               [srcL1; srcL2]))).
Proof.
  apply (X4_allocated_is_min_of_demand_and_supply allocator0 (requestFor 12 None None)
           [srcL1; srcL2]).
  - split; [by vm_compute|]. repeat constructor; by vm_compute.
  - simpl. lia.
Defined.

(** X5.  When demand is left over, every matching source has been looked at:
    the lines are exactly the full available quantity of every source that
    passes the checks, the skip records are exactly the sources that do
    not, both in order of consideration, and together they account for every
    matching source. *)
Theorem X5_partial_allocation_accounts_for_every_source
    (self : FefoAllocator) (request : AllocationRequest) (sources : list InventorySource) :
  0 < shortfallQuantity (allocate self request sources) ->
  allocations (allocate self request sources)
    = fullLines self request (filterAndSortSources sources request)
  /\ skippedSources (allocate self request sources)
     = skipsOf self request (filterAndSortSources sources request)
  /\ (length (allocations (allocate self request sources))
      + length (skippedSources (allocate self request sources)))%nat
     = length (filter (fun s => matchesRequest request s = true) sources).
Proof.
  rewrite allocate_shortfallQuantity, allocate_allocations, allocate_skippedSources.
  intros [-> ->]%allocateLoop_partial.
  split; [done|]. split; [done|].
  rewrite fullLines_skipsOf_length.
  by rewrite (filterAndSortSources_perm request sources).
Qed.

Lemma X5_witness_partial :
  allocations (allocate allocator0 (requestFor 12 None None) [srcL1; srcL2])
  = fullLines allocator0 (requestFor 12 None None)
      (filterAndSortSources [srcL1; srcL2] (requestFor 12 None None)).
Proof.
  apply (X5_partial_allocation_accounts_for_every_source allocator0
           (requestFor 12 None None) [srcL1; srcL2]).
  vm_compute. reflexivity.
Defined.

(** X6.  With a bound of zero days or less (the default of the
    constructor), no source is ever skipped for being too close to
    expiration: a lot that passes the availability check has not expired,
    so its day count is not negative. *)
Theorem X6_default_bound_never_skips_for_expiry
    (self : FefoAllocator) (request : AllocationRequest)
    (sources : list InventorySource) (sk : SkippedSource) :
  minDaysToExpiration self <= 0 ->
  sk ∈ skippedSources (allocate self request sources) ->
  isTooClose (reason sk) = false.
Proof.
  intros Hmin. rewrite allocate_skippedSources.
  intros (s & k & _ & Hk & ->)%allocateLoop_skipped. simpl.
  unfold skipCheck in Hk.
  destruct (quantityAvailable (stockLevel s) <=? 0); [injection Hk as <-; done |].
  destruct (lotBatch s) as [lot|]; [|done].
  destruct (isLotAvailable lot (referenceDate self)) eqn:Hav; simpl in Hk;
    [|injection Hk as <-; done].
  destruct (expirationDate lot) as [e|] eqn:He.
  - destruct (calculateDaysToExpiration self e <? minDaysToExpiration self) eqn:Hd.
    + exfalso. apply Z.ltb_lt in Hd.
      unfold isLotAvailable, isLotExpired in Hav. rewrite He in Hav.
      assert ((e <? referenceDate self) = false) as Hne
        by (destruct (status lot), (e <? referenceDate self); done).
      apply Z.ltb_ge in Hne.
      pose proof (ceil_div_nonneg (e - referenceDate self) msPerDay eq_refl) as Hnn.
      unfold calculateDaysToExpiration in Hd. lia.
    + destruct (isExcluded request lot); [injection Hk as <-; done | done].
  - destruct (isExcluded request lot); [injection Hk as <-; done | done].
Qed.

Lemma X6_witness_no_stock_reason :
  isTooClose
    (reason (skip NoAvailableQuantity (sourceAt "SL-0" "A-00" 0 None))) = false.
Proof.
  apply (X6_default_bound_never_skips_for_expiry allocator0 (requestFor 10 None None)
           [sourceAt "SL-0" "A-00" 0 None; srcL1]).
  - simpl. lia.
  - vm_compute. apply list_elem_of_here.
Defined.

End FefoMoreTheorems.



(** ** Stock-level repository: versions, frames and round trips *)

Section StockMoreTheorems.
Import StockRepo StockRepoOps StoreExamples.

Lemma updateQuantities_Ok db now key delta v db' row' :
  updateQuantities db now key delta v = Js.Ok (db', row') ->
  exists current,
    db !! key = Some current /\ rowVersion current = v
    /\ db' = <[key := row']> db
    /\ rowVersion row' = v + 1
    /\ quantityOnHand row' = quantityOnHand current + default 0 (onHand delta)
    /\ quantityReserved row' = quantityReserved current + default 0 (reserved delta)
    /\ quantityAvailable row' = quantityOnHand row' - quantityReserved row'
    /\ quantityInbound row' = quantityInbound current + default 0 (inbound delta)
    /\ quantityOutbound row' = quantityOutbound current + default 0 (outbound delta).
Proof.
  unfold updateQuantities. destruct (db !! key) as [current|]; [|done].
  destruct (rowVersion current =? v) eqn:Hv; simpl; [|done].
  apply Z.eqb_eq in Hv. intros [= <- <-]. exists current. simpl.
  repeat split; try done. lia.
Qed.

(** A call that nothing interleaves with is its plan followed by its
    write. *)
Lemma updateQuantities_steps db now key delta v :
  updateQuantities db now key delta v
  = match planUpdate (db !! key) key delta v with
    | Js.Throw e => Js.Throw e
    | Js.Ok data =>
        match commitUpdate db now key data with
        | Js.Ok out => Js.Ok out
        | Js.Throw _ => Js.Throw (StockLevelNotFound key)
        end
    end.
Proof.
  unfold updateQuantities, planUpdate, commitUpdate.
  destruct (db !! key) as [current|]; [|done].
  by destruct (negb (rowVersion current =? v)).
Qed.

(** X7.  The version check protects callers that run one after the other,
    and only those.  Once an update with expected version [v] has finished,
    every later update of that row that still expects [v] fails with the
    optimistic-lock conflict, whatever its deltas, and reports the version
    [v + 1] it found.  But when two callers have both read the row before
    either writes, both pass the check and both writes succeed: the write
    is addressed by id alone.  The second write stores the quantities it
    computed from the row as read, so the first caller's deltas are lost,
    and the version ends at [v + 2]. *)
Theorem X7_version_check_is_not_atomic
    (db : gmap string StockLevel) (key : string) (current : StockLevel)
    (deltaA deltaB : Delta) (tA tB : Z) :
  db !! key = Some current ->
  (forall dbA rowA,
     updateQuantities db tA key deltaA (rowVersion current) = Js.Ok (dbA, rowA) ->
     updateQuantities dbA tB key deltaB (rowVersion current)
     = Js.Throw (OptimisticLockConflict (rowVersion current) (rowVersion current + 1)))
  /\ exists dataA dataB dbA rowA dbB rowB,
       planUpdate (db !! key) key deltaA (rowVersion current) = Js.Ok dataA
       /\ planUpdate (db !! key) key deltaB (rowVersion current) = Js.Ok dataB
       /\ commitUpdate db tA key dataA = Js.Ok (dbA, rowA)
       /\ commitUpdate dbA tB key dataB = Js.Ok (dbB, rowB)
       /\ dbB !! key = Some rowB
       /\ rowVersion rowB = rowVersion current + 2
       /\ quantityOnHand rowB = quantityOnHand current + default 0 (onHand deltaB)
       /\ quantityReserved rowB = quantityReserved current + default 0 (reserved deltaB)
       /\ quantityAvailable rowB = quantityOnHand rowB - quantityReserved rowB.
Proof.
  intros Hcur. split.
  - intros dbA rowA (c & _ & _ & -> & Hv & _)%updateQuantities_Ok.
    unfold updateQuantities. rewrite lookup_insert_eq, Hv.
    by rewrite (proj2 (Z.eqb_neq (rowVersion current + 1) (rowVersion current))) by lia.
  - unfold planUpdate. rewrite Hcur, Z.eqb_refl. cbn [negb].
    do 6 eexists. split; [reflexivity|]. split; [reflexivity|].
    split; [unfold commitUpdate; rewrite Hcur; reflexivity|].
    split; [unfold commitUpdate; rewrite lookup_insert_eq; reflexivity|].
    rewrite lookup_insert_eq. cbn. repeat split; lia.
Qed.

Lemma X7_witness_second_reserve_conflicts :
  reserve (<["SL-1" := row0_reserved]> stock0) 2000 "SL-1" 1 1
  = Js.Throw (OptimisticLockConflict 1 (1 + 1)).
Proof.
  apply (proj1 (X7_version_check_is_not_atomic stock0 "SL-1" row0
                  (reserveDelta 4) (reserveDelta 1) 1000 2000 eq_refl)
           (<["SL-1" := row0_reserved]> stock0) row0_reserved).
  reflexivity.
Defined.

(** X8.  An update touches the addressed row only: after a success the row
    is stored under its key and every other key holds what it held; an
    unknown key is reported as not found. *)
Theorem X8_update_touches_one_row
    (db : gmap string StockLevel) (now : Z) (key : string) (delta : Delta) (v : Z) :
  (db !! key = None ->
     updateQuantities db now key delta v = Js.Throw (StockLevelNotFound key))
  /\ (forall db' row',
        updateQuantities db now key delta v = Js.Ok (db', row') ->
        db' !! key = Some row'
        /\ forall other, other <> key -> db' !! other = db !! other).
Proof.
  split.
  - intros Hnone. unfold updateQuantities. by rewrite Hnone.
  - intros db' row' (current & _ & _ & -> & _)%updateQuantities_Ok. split.
    + apply lookup_insert_eq.
    + intros other Hne. by apply lookup_insert_ne.
Qed.

Lemma X8_witness_missing_row :
  updateQuantities stock0 1000 "SL-9" noDelta 1 = Js.Throw (StockLevelNotFound "SL-9").
Proof.
  apply (proj1 (X8_update_touches_one_row stock0 1000 "SL-9" noDelta 1)).
  reflexivity.
Defined.



(** X10.  The availability the repository stores and the domain helper
    [calculateAvailableQuantity] agree exactly when the reserved quantity
    does not exceed the on-hand quantity; the helper is never negative, and
    without the override flag [canFulfillQuantity] is a plain comparison
    with the stored availability. *)
Theorem X10_stored_available_against_helper
    (db db' : gmap string StockLevel) (now : Z) (key : string) (delta : Delta) (v : Z)
    (row' : StockLevel) :
  updateQuantities db now key delta v = Js.Ok (db', row') ->
  0 <= calculateAvailableQuantity (quantityOnHand row') (quantityReserved row')
  /\ (quantityAvailable row'
        = calculateAvailableQuantity (quantityOnHand row') (quantityReserved row')
      <-> quantityReserved row' <= quantityOnHand row')
  /\ (forall q, canFulfillQuantity row' q false = true
                <-> q <= quantityOnHand row' - quantityReserved row').
Proof.
  intros (current & _ & _ & _ & _ & _ & _ & Hav & _)%updateQuantities_Ok.
  unfold calculateAvailableQuantity, canFulfillQuantity. rewrite Hav.
  split; [lia|]. split; [lia|]. intros q. rewrite Z.leb_le. lia.
Qed.

Lemma X10_witness_overreserved_row :
  0 <= calculateAvailableQuantity (quantityOnHand row0_reserved) (quantityReserved row0_reserved).
Proof.
  apply (X10_stored_available_against_helper stock0
           (<["SL-1" := row0_reserved]> stock0) 1000 "SL-1"
           {| onHand := None; reserved := Some 4; inbound := None; outbound := None |}
           1 row0_reserved).
  reflexivity.
Defined.

End StockMoreTheorems.

(** ** Outbox repository: claiming, backoff, exhaustion and clean-up *)

Section OutboxMoreFacts.
Import Outbox OutboxOps.

Lemma StronglySorted_take {A : Type} (R : A -> A -> Prop) (n : nat) (l : list A) :
  StronglySorted R l -> StronglySorted R (take n l).
Proof.
  intros Hs. revert n. induction Hs as [|x l Hs IH Hall]; intros [|n]; simpl;
    try constructor; [apply IH|].
  eapply Forall_forall. intros y Hy. rewrite Forall_forall in Hall.
  apply Hall. by apply (subseteq_take n l).
Qed.

Lemma markAsFailed_Ok db now key error db' u :
  markAsFailed db now key error = Js.Ok (db', u) ->
  exists m,
    db !! key = Some m /\ db' = <[key := u]> db
    /\ retryCount u = retryCount m + 1
    /\ maxRetries u = maxRetries m
    /\ lastError u = Some error
    /\ scheduledAt u = now + 2 ^ retryCount u * 1000
    /\ status u = (if maxRetries m <=? retryCount u then FAILED else PENDING).
Proof.
  unfold markAsFailed. destruct (db !! key) as [m|]; [|done].
  intros [= <- <-]. by exists m.
Qed.

Lemma findPendingMessages_elem db now limit cap m :
  m ∈ findPendingMessages db now limit cap ->
  (exists k, db !! k = Some m) /\ isDue now cap m = true.
Proof.
  unfold findPendingMessages. intros Hm%(subseteq_take limit).
  rewrite sort_perm in Hm. apply list_elem_of_filter in Hm as [Hdue Hm].
  apply list_elem_of_fmap in Hm as ([k m'] & -> & Hkm%elem_of_map_to_list).
  split; [by exists k|done].
Qed.

Lemma findPendingMessages_complete db now limit cap k m :
  (size db <= limit)%nat -> db !! k = Some m -> isDue now cap m = true ->
  m ∈ findPendingMessages db now limit cap.
Proof.
  intros Hfits Hk Hdue. unfold findPendingMessages.
  rewrite take_ge.
  - rewrite sort_perm. apply list_elem_of_filter. split; [done|].
    apply list_elem_of_fmap. exists (k, m). split; [done|].
    by apply elem_of_map_to_list.
  - rewrite (Permutation_length (sort_perm _ _)).
    etrans; [apply length_filter|].
    by rewrite length_fmap, length_map_to_list.
Qed.

Lemma isDue_spec now cap m :
  isDue now cap m = true <->
  status m = PENDING /\ retryCount m < cap /\ scheduledAt m <= now.
Proof.
  unfold isDue. rewrite !andb_true_iff, Z.ltb_lt, Z.leb_le.
  destruct (status m); simpl; intuition congruence.
Qed.

End OutboxMoreFacts.

Section OutboxMoreTheorems.
Import Outbox OutboxOps StoreExamples.

(** X11.  What [findPendingMessages] hands to the dispatcher: only rows of
    the table that are [PENDING], have failed fewer times than the cap and
    are scheduled no later than now; earliest schedule first; never more
    than [limit] rows; and when the whole table fits in the limit, every due
    row. *)
Theorem X11_pending_rows_claimed
    (db : gmap string OutboxMessage) (now : Z) (limit : nat) (cap : Z) :
  (forall m, m ∈ findPendingMessages db now limit cap ->
     (exists k, db !! k = Some m)
     /\ status m = PENDING /\ retryCount m < cap /\ scheduledAt m <= now)
  /\ StronglySorted (fun a b => scheduledAt a <= scheduledAt b)
       (findPendingMessages db now limit cap)
  /\ (length (findPendingMessages db now limit cap) <= limit)%nat
  /\ ((size db <= limit)%nat ->
      forall k m, db !! k = Some m -> isDue now cap m = true ->
                  m ∈ findPendingMessages db now limit cap).
Proof.
  split; [|split; [|split]].
  - intros m [Hk Hdue%isDue_spec]%findPendingMessages_elem. by split.
  - unfold findPendingMessages. apply StronglySorted_take.
    eapply StronglySorted_weaken;
      [|apply (sort_sorted (fun a b => scheduledAt a <=? scheduledAt b))].
    + intros a b. apply Z.leb_le.
    + intros a b. rewrite Z.leb_gt, Z.leb_le. lia.
    + intros a b c. rewrite !Z.leb_le. lia.
  - unfold findPendingMessages. rewrite length_take. lia.
  - intros Hfits k m Hk Hdue. by eapply findPendingMessages_complete.
Qed.

(** X12.  Backoff is respected: a row that [markAsFailed] has just updated
    is not claimed again before at least two seconds have passed, and is
    claimed again only if it is still below its own maximum. *)
Theorem X12_failed_row_waits_for_backoff
    (db db' : gmap string OutboxMessage) (now : Z) (key error : string)
    (u : OutboxMessage) (t : Z) (limit : nat) (cap : Z) :
  markAsFailed db now key error = Js.Ok (db', u) ->
  1 <= retryCount u ->
  u ∈ findPendingMessages db' t limit cap ->
  now + 2000 <= t /\ scheduledAt u <= t /\ retryCount u < maxRetries u.
Proof.
  intros (m & _ & _ & _ & Hmax & _ & Hsched & Hstatus)%markAsFailed_Ok Hcount
         [_ (Hpending & _ & Hdue)%isDue_spec]%findPendingMessages_elem.
  assert (2 ^ 1 <= 2 ^ retryCount u) by (apply Z.pow_le_mono_r; lia).
  split; [lia|]. split; [done|].
  rewrite Hstatus in Hpending.
  destruct (maxRetries m <=? retryCount u) eqn:Hle; [done|].
  apply Z.leb_gt in Hle. lia.
Qed.

Lemma X12_witness_second_failure :
  1000 + 2000 <= 6000 /\ scheduledAt outboxRowRetried <= 6000
  /\ retryCount outboxRowRetried < maxRetries outboxRowRetried.
Proof.
  apply (X12_failed_row_waits_for_backoff (outbox0 5)
           (<["OB-1" := outboxRowRetried]> (outbox0 5)) 1000 "OB-1" "broker down"
           outboxRowRetried 6000 10 5).
  - reflexivity.
  - simpl. lia.
  - vm_compute. apply list_elem_of_here.
Defined.

(** X13.  Retry exhaustion: after a row has failed [n >= 1] more times it has
    [n] more retries on its count, and it is [FAILED] exactly when the count
    has reached the row's maximum; until then it stays [PENDING]. *)
Theorem X13_failures_exhaust_retries
    (times : list Z) (db : gmap string OutboxMessage) (key error : string)
    (m : OutboxMessage) :
  db !! key = Some m ->
  times <> [] ->
  exists db' u,
    failAtEach db times key error = Js.Ok db'
    /\ db' !! key = Some u
    /\ retryCount u = retryCount m + Z.of_nat (length times)
    /\ maxRetries u = maxRetries m
    /\ (status u = FAILED <-> maxRetries m <= retryCount u)
    /\ (status u = PENDING <-> retryCount u < maxRetries m).
Proof.
  revert db m. induction times as [|now times IH]; intros db m Hm Hne; [done|].
  simpl. unfold markAsFailed at 1. rewrite Hm.
  set (u := {| id := id m; status := _ |}).
  destruct times as [|now' times].
  - exists (<[key := u]> db), u. simpl.
    split; [done|]. split; [apply lookup_insert_eq|].
    split; [simpl; lia|]. split; [done|]. subst u. simpl.
    destruct (maxRetries m <=? retryCount m + 1) eqn:Hle;
      [apply Z.leb_le in Hle | apply Z.leb_gt in Hle]; split; split; (done || lia).
  - destruct (IH (<[key := u]> db) u) as (db' & u' & Hrun & Hu' & Hcount & Hmax & Hst);
      [apply lookup_insert_eq | done |].
    exists db', u'. split; [exact Hrun|]. split; [exact Hu'|].
    rewrite Hcount, Hmax in *. subst u. simpl in *.
    split; [lia|]. split; [done|].
    replace (retryCount m + Z.of_nat (S (S (length times))))
      with (retryCount m + 1 + Z.of_nat (S (length times))) by lia.
    exact Hst.
Qed.

Lemma X13_witness_four_more_failures :
  exists db' u,
    failAtEach (outbox0 5) [1000; 3000; 8000; 20000] "OB-1" "broker down" = Js.Ok db'
    /\ db' !! "OB-1" = Some u
    /\ retryCount u = 5
    /\ status u = FAILED.
Proof.
  destruct (X13_failures_exhaust_retries [1000; 3000; 8000; 20000] (outbox0 5) "OB-1"
              "broker down" (outboxRow 5) eq_refl)
    as (db' & u & Hrun & Hu & Hcount & _ & Hfailed & _); [done|].
  exists db', u. split; [exact Hrun|]. split; [exact Hu|].
  split; [exact Hcount|]. apply Hfailed. rewrite Hcount. simpl. lia.
Defined.

(** X14.  The cap of [findPendingMessages] (5 unless the caller passes
    another, and the dispatcher passes none) is independent of the row's own
    maximum: a row allowed more retries than the cap is still [PENDING]
    after the failure that brings its count to the cap, and from then on no
    call with that cap ever returns it. *)
Theorem X14_row_above_cap_is_never_claimed
    (db : gmap string OutboxMessage) (now : Z) (key error : string)
    (m : OutboxMessage) (cap : Z) :
  db !! key = Some m ->
  cap <= retryCount m + 1 ->
  retryCount m + 1 < maxRetries m ->
  exists db' u,
    markAsFailed db now key error = Js.Ok (db', u)
    /\ db' !! key = Some u
    /\ status u = PENDING
    /\ forall t limit, u ∉ findPendingMessages db' t limit cap.
Proof.
  intros Hm Hcap Hmax. unfold markAsFailed. rewrite Hm.
  eexists _, _. split; [reflexivity|]. split; [apply lookup_insert_eq|]. simpl.
  rewrite (proj2 (Z.leb_gt _ _) Hmax). split; [done|].
  intros t limit [_ (_ & Hlt & _)%isDue_spec]%findPendingMessages_elem.
  simpl in Hlt. lia.
Qed.

Lemma X14_witness_ten_retries_allowed :
  exists db' u,
    markAsFailed
      (<["OB-2" := {| id := "OB-2"; status := PENDING; retryCount := 4; maxRetries := 10;
                      lastError := None; scheduledAt := 0; publishedAt := None |}]> ∅)
      1000 "OB-2" "broker down" = Js.Ok (db', u)
    /\ db' !! "OB-2" = Some u
    /\ status u = PENDING
    /\ forall t limit, u ∉ findPendingMessages db' t limit 5.
Proof.
  apply (X14_row_above_cap_is_never_claimed _ 1000 "OB-2" "broker down"
           {| id := "OB-2"; status := PENDING; retryCount := 4; maxRetries := 10;
              lastError := None; scheduledAt := 0; publishedAt := None |} 5).
  - reflexivity.
  - simpl. lia.
  - simpl. lia.
Defined.

(** X15.  Clean-up deletes exactly the [PUBLISHED] rows whose publication
    time is before the cut-off and reports their number: every other row,
    in particular every [PENDING] or [FAILED] one, keeps its key and value. *)
Theorem X15_cleanup_deletes_old_published_only
    (db : gmap string OutboxMessage) (olderThan : Z) :
  let db' := fst (deleteOldPublishedMessages db olderThan) in
  let count := snd (deleteOldPublishedMessages db olderThan) in
  (forall k m, db' !! k = Some m <-> db !! k = Some m /\ isOldPublished olderThan m = false)
  /\ (forall k m, db !! k = Some m -> status m <> PUBLISHED -> db' !! k = Some m)
  /\ (forall k m, db !! k = Some m -> status m = PUBLISHED ->
                  (exists t, publishedAt m = Some t /\ t < olderThan) -> db' !! k = None)
  /\ (count + size db')%nat = size db.
Proof.
  simpl. split; [|split; [|split]].
  - intros k m. by rewrite map_lookup_filter_Some.
  - intros k m Hk Hst. apply map_lookup_filter_Some. split; [done|]. simpl.
    unfold isOldPublished. by destruct (status m).
  - intros k m Hk Hst (t & Ht & Hlt). apply map_lookup_filter_None. right.
    intros m' Hk'. rewrite Hk in Hk'. injection Hk' as <-. simpl.
    unfold isOldPublished. rewrite Hst, Ht. simpl.
    by rewrite (proj2 (Z.ltb_lt _ _) Hlt).
  - rewrite <- (map_filter_union_complement
                  (fun kv => isOldPublished olderThan (snd kv) = true) db) at 3.
    rewrite map_size_disj_union by apply map_disjoint_filter_complement.
    f_equal. f_equal. apply map_filter_ext. intros k m _. simpl.
    by destruct (isOldPublished olderThan m).
Qed.

(** X16.  The two ways out of the retry cycle.  A row marked published is
    [PUBLISHED], stamped with the time, and never claimed again.  A row an
    operator requeues is [PENDING] with a count of zero, no error and due
    at once: every later poll whose limit covers the table and whose cap is
    positive returns it.  Either operation on an unknown id throws. *)
Theorem X16_publish_and_requeue
    (db : gmap string OutboxMessage) (now : Z) (key : string) :
  (db !! key = None ->
     markAsPublished db now key = Js.Throw (RecordToUpdateNotFound key)
     /\ retryFailedMessage db now key = Js.Throw (RecordToUpdateNotFound key))
  /\ (forall db' u,
        markAsPublished db now key = Js.Ok (db', u) ->
        db' !! key = Some u /\ status u = PUBLISHED /\ publishedAt u = Some now
        /\ forall t limit cap, u ∉ findPendingMessages db' t limit cap)
  /\ (forall db' u,
        retryFailedMessage db now key = Js.Ok (db', u) ->
        db' !! key = Some u /\ status u = PENDING /\ retryCount u = 0
        /\ lastError u = None /\ scheduledAt u = now
        /\ forall t limit cap,
             now <= t -> 0 < cap -> (size db' <= limit)%nat ->
             u ∈ findPendingMessages db' t limit cap).
Proof.
  unfold markAsPublished, retryFailedMessage.
  split; [by intros ->|]. destruct (db !! key) as [m|]; [|done]. split.
  - intros db' u [= <- <-]. split; [apply lookup_insert_eq|]. simpl.
    split; [done|]. split; [done|].
    by intros t limit cap [_ (Hp & _)%isDue_spec]%findPendingMessages_elem.
  - intros db' u [= <- <-]. split; [apply lookup_insert_eq|]. simpl.
    repeat (split; [done|]).
    intros t limit cap Ht Hcap Hfits.
    eapply findPendingMessages_complete.
    + exact Hfits.
    + apply lookup_insert_eq.
    + apply isDue_spec. simpl. by repeat split.
Qed.

Lemma X16_witness_unknown_id :
  markAsPublished (outbox0 5) 1000 "OB-9" = Js.Throw (RecordToUpdateNotFound "OB-9")
  /\ retryFailedMessage (outbox0 5) 1000 "OB-9" = Js.Throw (RecordToUpdateNotFound "OB-9").
Proof.
  apply (proj1 (X16_publish_and_requeue (outbox0 5) 1000 "OB-9")). reflexivity.
Defined.

End OutboxMoreTheorems.

(** ** Outbox dispatcher: one poll *)

Section DispatcherTheorems.
Import Outbox OutboxOps Dispatcher StoreExamples.

Lemma dispatchOne_stored broker now db m :
  db !! id m = Some m ->
  dispatchOne broker now db m = Js.Ok (<[id m := settled broker now m]> db).
Proof.
  intros Hm. unfold dispatchOne, settled, markAsPublished, markAsFailed. rewrite Hm.
  destruct (attempt broker m); try done.
  by rewrite insert_id.
Qed.

Lemma id_settled broker now m : id (settled broker now m) = id m.
Proof. unfold settled. by destruct (attempt broker m). Qed.

Lemma dispatchAll_stored broker now ms db :
  NoDup (id <$> ms) ->
  (forall m, m ∈ ms -> db !! id m = Some m) ->
  exists db',
    dispatchAll broker now db ms = Js.Ok db'
    /\ (forall m, m ∈ ms -> db' !! id m = Some (settled broker now m))
    /\ (forall k, k ∉ id <$> ms -> db' !! k = db !! k).
Proof.
  revert db. induction ms as [|m ms IH]; intros db Hnd Hstored; simpl.
  { exists db. split; [done|]. split; [by intros ? ?%elem_of_nil|done]. }
  change (NoDup (id m :: (id <$> ms))) in Hnd. apply NoDup_cons in Hnd as [Hm Hnd].
  rewrite dispatchOne_stored by (apply Hstored, list_elem_of_here).
  destruct (IH (<[id m := settled broker now m]> db) Hnd) as (db' & Hrun & Hin & Hout).
  { intros m' Hm'. rewrite lookup_insert_ne.
    - by apply Hstored, list_elem_of_further.
    - intros Heq. apply Hm. rewrite Heq. by apply list_elem_of_fmap_2. }
  exists db'. split; [exact Hrun|]. split.
  - intros m' [->|Hm']%elem_of_cons; [|by apply Hin].
    rewrite Hout by done. apply lookup_insert_eq.
  - intros k Hk. change (k ∉ id m :: (id <$> ms)) in Hk.
    apply not_elem_of_cons in Hk as [Hne Hk].
    rewrite Hout by done. by apply lookup_insert_ne.
Qed.

Lemma findPendingMessages_ids db now limit cap :
  keyedById db ->
  NoDup (id <$> findPendingMessages db now limit cap)
  /\ forall m, m ∈ findPendingMessages db now limit cap -> db !! id m = Some m.
Proof.
  intros Hkeyed. split.
  - unfold findPendingMessages.
    eapply sublist_NoDup; [|apply fmap_sublist, sublist_take].
    rewrite sort_perm.
    eapply sublist_NoDup; [|apply fmap_sublist, sublist_filter].
    assert (id <$> (snd <$> map_to_list db) = fst <$> map_to_list db) as ->.
    { rewrite <- list_fmap_compose. apply list_fmap_ext.
      intros i [k m] Hkm%list_elem_of_lookup_2%elem_of_map_to_list. simpl.
      by apply Hkeyed in Hkm. }
    apply NoDup_fst_map_to_list.
  - intros m [[k Hk] _]%findPendingMessages_elem.
    by rewrite (Hkeyed k m Hk).
Qed.

(** X17.  One poll of the dispatcher over a table keyed by id never throws.
    Each claimed row becomes what publishing it did: [PUBLISHED] and stamped
    when the broker took it, one retry further (rescheduled, or [FAILED] at
    the row's maximum) when publishing threw or the channel was gone, and
    left exactly as it was, still due, when [publish] returned [false].  No
    other row changes. *)
Theorem X17_poll_settles_each_claimed_row
    (broker : Broker) (now : Z) (batchSize : nat) (db : gmap string OutboxMessage) :
  keyedById db ->
  exists db',
    processOutbox broker now batchSize db = Js.Ok db'
    /\ (forall m, m ∈ findPendingMessages db now batchSize 5 ->
          db' !! id m = Some (settled broker now m))
    /\ (forall k, k ∉ id <$> findPendingMessages db now batchSize 5 ->
          db' !! k = db !! k).
Proof.
  intros [Hnd Hstored]%(findPendingMessages_ids db now batchSize 5).
  by apply dispatchAll_stored.
Qed.

Lemma X17_witness_one_row_published :
  exists db',
    processOutbox healthyBroker 1000 100 (outbox0 5) = Js.Ok db'
    /\ (forall m, m ∈ findPendingMessages (outbox0 5) 1000 100 5 ->
          db' !! id m = Some (settled healthyBroker 1000 m))
    /\ (forall k, k ∉ id <$> findPendingMessages (outbox0 5) 1000 100 5 ->
          db' !! k = outbox0 5 !! k).
Proof.
  apply (X17_poll_settles_each_claimed_row healthyBroker 1000 100 (outbox0 5)).
  apply map_Forall_singleton. reflexivity.
Defined.

End DispatcherTheorems.

(** ** Agent registry: wildcard, duplicates, and registering for a while *)

Section RegistryMoreFacts.
Import Agents Registry RegistrySpec RegistryOps.

Lemma setAdd_NoDup (x : string) (s : list string) : NoDup s -> NoDup (setAdd x s).
Proof.
  unfold setAdd. case_bool_decide as Hx; [done|].
  intros Hs. apply NoDup_app. split; [done|]. split; [|apply NoDup_singleton].
  intros y Hy ->%list_elem_of_singleton. done.
Qed.

Lemma addAll_NoDup (names : option (list string)) (acc : list string) :
  NoDup acc -> NoDup (addAll names acc).
Proof.
  destruct names as [subs|]; simpl; [|done].
  revert acc. induction subs as [|n subs IH]; intros acc Hacc; simpl; [done|].
  by apply IH, setAdd_NoDup.
Qed.

Lemma names_of_found (self : AgentRegistry) (names : list string) :
  keyedByName self ->
  name <$> omap (fun n => agents self !! n) names `sublist_of` names.
Proof.
  intros Hkeyed. induction names as [|n names IH]; simpl; [constructor|].
  destruct (agents self !! n) as [agent|] eqn:Hn; simpl.
  - rewrite (Hkeyed n agent Hn). by constructor.
  - by constructor.
Qed.

Lemma setAdd_filter (n x : string) (acc : list string) :
  filter (fun y => y <> n) (setAdd x acc)
  = if decide (x = n) then filter (fun y => y <> n) acc
    else setAdd x (filter (fun y => y <> n) acc).
Proof.
  unfold setAdd. destruct (decide (x = n)) as [->|Hne].
  - case_bool_decide as Hx; [done|].
    rewrite filter_app, filter_cons, filter_nil.
    rewrite decide_False by (intros ?; done). by rewrite app_nil_r.
  - case_bool_decide as Hx.
    + rewrite bool_decide_eq_true_2; [done|]. by apply list_elem_of_filter.
    + rewrite filter_app, filter_cons, filter_nil.
      rewrite decide_True by done.
      rewrite bool_decide_eq_false_2; [done|].
      intros [_ ?]%list_elem_of_filter. done.
Qed.

Lemma addAll_filter (n : string) (names : option (list string)) (acc : list string) :
  filter (fun y => y <> n) (addAll names acc)
  = addAll (Some (filter (fun y => y <> n) (default [] names)))
      (filter (fun y => y <> n) acc).
Proof.
  destruct names as [subs|]; simpl; [|done].
  revert acc. induction subs as [|x subs IH]; intros acc; simpl; [done|].
  rewrite IH, setAdd_filter, filter_cons.
  destruct (decide (x = n)) as [->|Hne].
  - by rewrite decide_False by (intros ?; done).
  - by rewrite decide_True by done.
Qed.

Lemma omap_filter_absent {B : Type} (g : string -> option B) (n : string) (l : list string) :
  g n = None -> omap g (filter (fun y => y <> n) l) = omap g l.
Proof.
  intros Hn. induction l as [|x l IH]; simpl; [done|].
  rewrite filter_cons. destruct (decide (x = n)) as [->|Hne].
  - rewrite decide_False by (intros ?; done). by rewrite Hn.
  - rewrite decide_True by done. simpl. unfold omap in IH. by rewrite IH.
Qed.

(** Names that map to no agent do not matter to a lookup by event type. *)
Lemma lookup_up_to_absent {B : Type} (g : string -> option B) (n : string)
    (o1 o2 o1' o2' : option (list string)) :
  g n = None ->
  filter (fun y => y <> n) (default [] o1') = filter (fun y => y <> n) (default [] o1) ->
  filter (fun y => y <> n) (default [] o2') = filter (fun y => y <> n) (default [] o2) ->
  omap g (addAll o2' (addAll o1' [])) = omap g (addAll o2 (addAll o1 [])).
Proof.
  intros Hn H1 H2.
  rewrite <- (omap_filter_absent g n (addAll o2' _)) by done.
  rewrite <- (omap_filter_absent g n (addAll o2 _)) by done.
  rewrite !addAll_filter. by rewrite H1, H2.
Qed.

Lemma setAdd_idemp (n : string) (l : list string) : setAdd n (setAdd n l) = setAdd n l.
Proof.
  unfold setAdd at 1. rewrite bool_decide_eq_true_2; [done|].
  apply elem_of_setAdd. by left.
Qed.

Lemma fold_subscribe_lookup (ts : list string) (subs : gmap string (list string)) (n t : string) :
  fold_left (subscribe n) ts subs !! t
  = if decide (t ∈ ts) then Some (setAdd n (default [] (subs !! t))) else subs !! t.
Proof.
  revert subs. induction ts as [|t0 ts IH]; intros subs; cbn [fold_left].
  - rewrite decide_False; [done|]. apply not_elem_of_nil.
  - rewrite IH. unfold subscribe.
    destruct (decide (t0 = t)) as [->|Hne].
    + rewrite lookup_insert_eq.
      rewrite (decide_True (P := t ∈ t :: ts)) by apply list_elem_of_here.
      destruct (decide (t ∈ ts)); [|done].
      change (default [] (Some ?l)) with l. by rewrite setAdd_idemp.
    + rewrite lookup_insert_ne by done.
      destruct (decide (t ∈ ts)) as [Hin|Hnin].
      * rewrite decide_True; [done|]. by apply list_elem_of_further.
      * rewrite decide_False; [done|].
        intros [?|?]%elem_of_cons; [congruence|done].
Qed.

Lemma setDelete_idemp (n : string) (l : list string) :
  setDelete n (setDelete n l) = setDelete n l.
Proof. unfold setDelete. by apply list_filter_filter_l. Qed.

Lemma fold_unsubscribe_lookup (ts : list string) (subs : gmap string (list string)) (n t : string) :
  fold_left (unsubscribe n) ts subs !! t
  = if decide (t ∈ ts) then setDelete n <$> subs !! t else subs !! t.
Proof.
  revert subs. induction ts as [|t0 ts IH]; intros subs; cbn [fold_left].
  - rewrite decide_False; [done|]. apply not_elem_of_nil.
  - rewrite IH. unfold unsubscribe.
    destruct (decide (t0 = t)) as [->|Hne].
    + rewrite lookup_alter_eq.
      rewrite (decide_True (P := t ∈ t :: ts)) by apply list_elem_of_here.
      destruct (decide (t ∈ ts)); [|done].
      destruct (subs !! t); cbn [fmap option_fmap option_map]; [|done]. by rewrite setDelete_idemp.
    + rewrite lookup_alter_ne by done.
      destruct (decide (t ∈ ts)) as [Hin|Hnin].
      * rewrite decide_True; [done|]. by apply list_elem_of_further.
      * rewrite decide_False; [done|].
        intros [?|?]%elem_of_cons; [congruence|done].
Qed.

End RegistryMoreFacts.

Section RegistryMoreTheorems.
Import Agents Registry RegistrySpec RegistryOps.

(** X18.  An agent that lists ["*"] among its subscriptions is returned for
    every event type, from the moment it is registered. *)
Theorem X18_wildcard_agent_gets_every_event
    (self : AgentRegistry) (b : BaseAgent) (eventType : string) :
  "*" ∈ subscribesTo b ->
  b ∈ getAgentsForEvent (register b self) eventType.
Proof.
  intros Hstar. apply elem_of_getAgentsForEvent. exists (name b). split.
  - right. by apply register_subscribes.
  - simpl. apply lookup_insert_eq.
Qed.

Lemma X18_witness_audit_agent :
  auditAgent ∈ getAgentsForEvent (register auditAgent Registry.empty) "SalesOrder.OrderPlaced".
Proof.
  apply (X18_wildcard_agent_gets_every_event Registry.empty auditAgent
           "SalesOrder.OrderPlaced").
  apply list_elem_of_here.
Defined.

(** X19.  A lookup by event type returns no agent twice, even when the agent
    is subscribed both to the type and to ["*"]: the names of the returned
    agents are pairwise different. *)
Theorem X19_no_agent_returned_twice (self : AgentRegistry) (eventType : string) :
  keyedByName self ->
  NoDup (name <$> getAgentsForEvent self eventType).
Proof.
  intros Hkeyed. unfold getAgentsForEvent.
  eapply sublist_NoDup; [|by apply names_of_found].
  apply addAll_NoDup, addAll_NoDup, NoDup_nil_2.
Qed.

Lemma X19_witness_audit_once :
  NoDup (name <$> getAgentsForEvent (register auditAgent Registry.empty)
                    "Inventory.StockUpdated").
Proof.
  apply (X19_no_agent_returned_twice (register auditAgent Registry.empty)
           "Inventory.StockUpdated").
  apply register_keyed. apply map_Forall_empty.
Defined.

(** X20.  Registering an agent under a name that is not in use and then
    unregistering that name leaves every lookup as it was: by name, and by
    event type for every event type. *)
Theorem X20_register_then_unregister_is_invisible
    (self : AgentRegistry) (b : BaseAgent) :
  getAgent self (name b) = None ->
  (forall n, getAgent (unregister (name b) (register b self)) n = getAgent self n)
  /\ (forall t, getAgentsForEvent (unregister (name b) (register b self)) t
                = getAgentsForEvent self t).
Proof.
  unfold getAgent. intros Hfresh.
  assert (agents (register b self) !! name b = Some b) as Hb
    by (simpl; apply lookup_insert_eq).
  unfold unregister. rewrite Hb.
  assert (delete (name b) (agents (register b self)) = agents self) as Hagents
    by (simpl; by apply delete_insert_id).
  split; [intros n; simpl; by rewrite delete_insert_id|].
  intros t. unfold getAgentsForEvent.
  cbn [agents eventSubscriptions]. rewrite Hagents.
  apply lookup_up_to_absent with (n := name b); [done| |].
  all: rewrite fold_unsubscribe_lookup; simpl; rewrite fold_subscribe_lookup.
  all: match goal with |- context [decide (?x ∈ _)] => destruct (decide (x ∈ subscribesTo b)) end;
    [|done].
  all: simpl; unfold setDelete; rewrite list_filter_filter_l by done.
  all: rewrite setAdd_filter; by rewrite decide_True.
Qed.

Lemma X20_witness_audit_comes_and_goes :
  getAgentsForEvent
    (unregister (name auditAgent)
       (register auditAgent (register thresholdV1 Registry.empty)))
    "Inventory.StockUpdated"
  = getAgentsForEvent (register thresholdV1 Registry.empty) "Inventory.StockUpdated".
Proof.
  apply (proj2 (X20_register_then_unregister_is_invisible
                  (register thresholdV1 Registry.empty) auditAgent eq_refl)).
Defined.

End RegistryMoreTheorems.

(** ** Agent runner: what the calls resolve to *)

Section RunnerMoreTheorems.
Import Agents Runner RuntimeSpec RuntimeOps.

(** X21.  The batch loop never obtains an execution result.  Each
    [this.executeAgent(agent, ...)] resolves to [null], so for a list of
    agents that is not empty: with a positive concurrency and
    [continueOnError] the loop resolves to one [null] per agent; with a
    positive concurrency and without [continueOnError] the error check of
    the first batch reads [null.result] and the method rejects; with
    concurrency 0 the loop makes no progress and the method never
    settles. *)
Theorem X21_batch_loop_collects_nulls
    (registry : Registry.AgentRegistry) (cfg : AgentRunnerConfig)
    (agents : list BaseAgent) (event : EventEnvelope) (context : AgentContext) :
  agents <> [] ->
  ((0 < concurrency cfg)%nat -> continueOnError cfg = true ->
   executeAgents registry cfg agents event context
   = Fulfilled (replicate (length agents) None))
  /\ ((0 < concurrency cfg)%nat -> continueOnError cfg = false ->
      executeAgents registry cfg agents event context = Rejected nullResultError)
  /\ (concurrency cfg = 0%nat ->
      executeAgents registry cfg agents event context = Unsettled).
Proof.
  intros Hagents. rewrite executeAgents_outcome.
  destruct agents as [|a agents]; [done|].
  split; [|split].
  - intros Hc ->. by destruct (Nat.eqb_spec (concurrency cfg) 0); [lia|].
  - intros Hc ->. by destruct (Nat.eqb_spec (concurrency cfg) 0); [lia|].
  - by intros ->.
Qed.

Lemma X21_witness_one_null_for_the_careless_agent :
  executeAgents carelessRegistry DEFAULT_CONFIG [carelessAgent] inbound (contextOf inbound)
  = Fulfilled [None].
Proof.
  apply (proj1 (X21_batch_loop_collects_nulls carelessRegistry DEFAULT_CONFIG
                  [carelessAgent] inbound (contextOf inbound) ltac:(discriminate))).
  - simpl. lia.
  - reflexivity.
Defined.

(** X22.  The public [executeAgent(agentName, ...)] never returns an
    execution result either.  For a name that is not registered it resolves
    to [null].  For a registered name it runs the batch loop on that one
    agent, which calls [executeAgent] again with the agent object: with
    [continueOnError] the result is the [null] of that inner call, without
    it the loop's error check rejects.  One level of nesting is all it
    needs. *)
Theorem X22_execute_agent_by_name_returns_no_result
    (registry : Registry.AgentRegistry) (cfg : AgentRunnerConfig) (depth : nat)
    (agentName : string) (event : EventEnvelope) (context : AgentContext) :
  (0 < concurrency cfg)%nat ->
  executeAgent registry cfg (S depth) (NameString agentName) event context
  = match Registry.getAgent registry agentName with
    | None => Fulfilled None
    | Some _ => if continueOnError cfg then Fulfilled None else Rejected nullResultError
    end.
Proof.
  intros Hc. cbn [executeAgent getAgent].
  destruct (Registry.getAgent registry agentName) as [agent|]; [|done].
  rewrite executeBatches_null; [|intros a; apply executeAgent_object|done|done].
  by destruct (continueOnError cfg).
Qed.

Lemma X22_witness_registered_name_rejected :
  executeAgent carelessRegistry stopOnError 1 (NameString "careless") inbound
    (contextOf inbound)
  = Rejected nullResultError.
Proof.
  apply (X22_execute_agent_by_name_returns_no_result carelessRegistry stopOnError 0
           "careless" inbound (contextOf inbound)).
  simpl. lia.
Defined.

End RunnerMoreTheorems.

(** ** Event consumer: routing keys and settlement *)

Section ConsumerMoreTheorems.
Import Agents Runner Consumer RuntimeSpec RuntimeOps ConsumerOps.

Lemma routingChar_facts (c : ascii) :
  upperOrUnderscore (routingChar c) = false
  /\ routingChar (routingChar c) = routingChar c
  /\ (isAsciiChar c = true -> isAsciiChar (routingChar c) = true).
Proof.
  destruct c as [[] [] [] [] [] [] [] []]; vm_compute; by repeat split.
Qed.

Lemma routingKeyOf_chars (s : string) : routingKeyOf s = mapString routingChar s.
Proof.
  unfold routingKeyOf. induction s as [|c s IH]; simpl; [done|].
  by rewrite IH.
Qed.

(** X23.  For an event type made of ASCII characters, the routing key is
    made of ASCII characters too, has as many characters as the event type,
    contains no upper-case letter and no underscore, and is left unchanged
    when the conversion is applied to it again. *)
Theorem X23_routing_key_shape (eventType : string) :
  isAscii eventType = true ->
  isAscii (routingKeyOf eventType) = true
  /\ String.length (routingKeyOf eventType) = String.length eventType
  /\ Forall (fun c => upperOrUnderscore c = false)
       (list_ascii_of_string (routingKeyOf eventType))
  /\ routingKeyOf (routingKeyOf eventType) = routingKeyOf eventType.
Proof.
  rewrite !routingKeyOf_chars. unfold isAscii.
  induction eventType as [|c s IH]; simpl.
  - by repeat split.
  - intros [Hc Hs]%andb_true_iff.
    destruct (IH Hs) as (IHascii & IHlen & IHall & IHidem).
    destruct (routingChar_facts c) as (Hupper & Hidem & Hascii).
    split; [by rewrite Hascii, IHascii|]. split; [by rewrite IHlen|].
    split; [by constructor|]. by rewrite Hidem, IHidem.
Qed.

Lemma X23_witness_low_stock_alert :
  routingKeyOf "Inventory.LOW_STOCK_Alert" = "inventory.low.stock.alert"
  /\ routingKeyOf (routingKeyOf "Inventory.LOW_STOCK_Alert")
     = routingKeyOf "Inventory.LOW_STOCK_Alert".
Proof.
  split; [reflexivity|].
  apply (X23_routing_key_shape "Inventory.LOW_STOCK_Alert" eq_refl).
Defined.

(** X24.  How a delivery is settled depends on the message and on the
    registered agents, not on the delivery, so it is the same every time
    (the runner has a positive concurrency).  An envelope for whose type no
    agent is registered is acked at its first delivery.  Every other
    message fails: content that is not JSON or is [null], and every
    envelope with a subscribed agent.  A failing message publishes nothing;
    with a retry count of 3 or more it is nack'ed without requeue at its
    first delivery; with a count of 0, 1 or 2 it is requeued on every
    delivery, always after the same delay of one, two or four seconds. *)
Theorem X24_settlement_is_the_same_on_every_delivery
    (registry : Registry.AgentRegistry) (cfg : AgentRunnerConfig) (msg : Message) (n : nat) :
  (0 < concurrency cfg)%nat ->
  (forall event,
     parsed msg = Js.Ok (Some event) ->
     Registry.getAgentsForEvent registry (event_type event) = [] ->
     deliveries registry cfg (S n) msg = [Ack])
  /\ (failsToProcess registry msg ->
        fst (handleMessage registry cfg msg) = []
        /\ (3 <= default 0 (retryCountHeader msg) ->
            deliveries registry cfg (S n) msg = [NackNoRequeue])
        /\ (0 <= default 0 (retryCountHeader msg) < 3 ->
            deliveries registry cfg n msg
            = replicate n (NackRequeueAfter (2 ^ default 0 (retryCountHeader msg) * 1000))
            /\ 1000 <= 2 ^ default 0 (retryCountHeader msg) * 1000 <= 4000)).
Proof.
  intros Hconc. split.
  - intros event Hev Hnone. simpl. by rewrite handleMessage_outcome, Hev, Hnone.
  - intros Hfails.
    assert (handleMessage registry cfg msg = ([], onError msg)) as Hrun.
    { rewrite handleMessage_outcome. unfold failsToProcess in Hfails.
      destruct (parsed msg) as [[event|]|e]; [|done..].
      destruct (Registry.getAgentsForEvent registry (event_type event)); [done|].
      by destruct (Nat.eqb_spec (concurrency cfg) 0); [lia|]. }
    split; [by rewrite Hrun|]. split.
    + intros Hge. simpl. rewrite Hrun. simpl. unfold onError.
      by rewrite (proj2 (Z.ltb_ge _ _) Hge).
    + intros Hrange. split.
      * induction n as [|k IH]; simpl; [done|].
        rewrite Hrun. simpl. unfold onError at 1 2.
        rewrite (proj2 (Z.ltb_lt _ _) (proj2 Hrange)). by rewrite IH.
      * assert (default 0 (retryCountHeader msg) = 0
                \/ default 0 (retryCountHeader msg) = 1
                \/ default 0 (retryCountHeader msg) = 2) as [H|[H|H]] by lia;
          rewrite H; simpl; lia.
Qed.

Lemma X24_witness_dead_lettered_at_once :
  deliveries carelessRegistry DEFAULT_CONFIG 5 exhaustedMessage = [NackNoRequeue].
Proof.
  apply (proj2 (X24_settlement_is_the_same_on_every_delivery carelessRegistry
                  DEFAULT_CONFIG exhaustedMessage 4 ltac:(simpl; lia)) I).
  simpl. lia.
Defined.

End ConsumerMoreTheorems.

(** ** Slotting scorer: who is ranked, and best first *)

Section SlottingMoreFacts.
Import Slotting SlottingSpec SlottingOps.

Lemma isLocationValid_spec (location : Location) (context : SlottingContext) :
  isLocationValid location context
  = canStoreProduct location (needsOf context)
    && negb (isExcludedLocation context location)
    && inPreferredZone context location.
Proof.
  unfold isLocationValid, canStoreProduct, isExcludedLocation, inPreferredZone, needsOf.
  simpl.
  destruct (isActive location), (excludedLocations context) as [ex|],
    (preferredZones context) as [[|z zs]|], (temperatureRequired context) as [t|],
    (isHazmat context), (isHazmatCertified location); simpl;
    repeat match goal with
           | |- context [Js.includes ?l ?x] => destruct (Js.includes l x); simpl
           end;
    try done;
    destruct t, (temperatureZone location); done.
Qed.

End SlottingMoreFacts.

Section SlottingMoreTheorems.
Import Slotting SlottingSpec SlottingOps.

(** X25.  Who is ranked: exactly the candidates whose location the location
    entity's [canStoreProduct] accepts for the context's temperature and
    hazmat needs, that is not excluded and, when zones are preferred, lies
    in one of them.  Every result is the score of such a candidate, and
    there are as many results as such candidates. *)
Theorem X25_ranked_locations_are_the_storable_ones
    (weights : SlottingWeights) (candidates : list SlottingCandidate)
    (context : SlottingContext) :
  (forall s, s ∈ scoreLocations weights candidates context <->
     exists c, c ∈ candidates
               /\ s = scoreCandidate weights candidates context c
               /\ canStoreProduct (location c) (needsOf context) = true
               /\ isExcludedLocation context (location c) = false
               /\ inPreferredZone context (location c) = true)
  /\ length (scoreLocations weights candidates context)
     = length (filter (fun c => isLocationValid (location c) context = true) candidates).
Proof.
  unfold scoreLocations. split.
  - intros s. rewrite sort_perm. rewrite list_elem_of_In, in_map_iff. split.
    + intros (c & <- & Hc). apply list_elem_of_In, list_elem_of_filter in Hc as [Hv Hc].
      rewrite isLocationValid_spec in Hv.
      apply andb_true_iff in Hv as [[Hstore Hex]%andb_true_iff Hzone].
      exists c. repeat split; try done. by destruct (isExcludedLocation context (location c)).
    + intros (c & Hc & -> & Hstore & Hex & Hzone). exists c. split; [done|].
      apply list_elem_of_In, list_elem_of_filter. split; [|done].
      rewrite isLocationValid_spec. by rewrite Hstore, Hex, Hzone.
  - by rewrite (Permutation_length (sort_perm _ _)), length_map.
Qed.

(** X27.  A suggestion list is the start of the ranking: for a count that is
    not negative it holds that many results, or all of them if there are
    fewer, and when it is not empty its first entry has a score no other
    scored candidate exceeds. *)
Theorem X27_suggestions_best_first
    (candidates : list SlottingCandidate) (context : SlottingContext)
    (topN : option Z) (weights : PartialWeights) :
  0 <= default 3 topN ->
  let ranking := scoreLocations (new_SlottingScorer weights) candidates context in
  suggestSlotting candidates context topN weights
    = take (Z.to_nat (default 3 topN)) ranking
  /\ length (suggestSlotting candidates context topN weights)
     = Nat.min (Z.to_nat (default 3 topN)) (length ranking)
  /\ forall best rest s,
       suggestSlotting candidates context topN weights = best :: rest ->
       s ∈ ranking -> Double.leb (score s) (score best) = true.
Proof.
  intros Hn ranking. unfold suggestSlotting, sliceFromStart. fold ranking.
  rewrite (proj2 (Z.ltb_ge _ _) Hn).
  split; [done|]. split; [apply length_take|].
  intros best rest s Hhead Hs.
  assert (StronglySorted (fun a b => leScore a b = true) ranking) as Hsorted.
  { apply sort_sorted; [apply leScore_total | apply leScore_trans]. }
  destruct ranking as [|r0 ranking']; [by apply elem_of_nil in Hs|].
  destruct (Z.to_nat (default 3 topN)); [done|]. simpl in Hhead.
  injection Hhead as <- _.
  apply elem_of_cons in Hs as [->|Hs]; [apply Z.leb_refl|].
  apply StronglySorted_inv in Hsorted as [_ Hall].
  rewrite Forall_forall in Hall. rewrite <- leScore_leb. by apply Hall.
Qed.

Lemma X27_witness_default_top_three :
  length (suggestSlotting [candidateIn (bay "A-20" 20); candidateIn (bay "B-10" 10)]
            classA None noWeights)
  = Nat.min (Z.to_nat 3)
      (length (scoreLocations (new_SlottingScorer noWeights)
                 [candidateIn (bay "A-20" 20); candidateIn (bay "B-10" 10)] classA)).
Proof.
  apply (proj1 (proj2 (X27_suggestions_best_first
                         [candidateIn (bay "A-20" 20); candidateIn (bay "B-10" 10)]
                         classA None noWeights ltac:(simpl; lia)))).
Defined.

End SlottingMoreTheorems.
